(** * BlockTracker and RegisteredContent: a shallow embedding

    The development follows two source files of the block template:

    - the analytics tracker (class [BlockTracker]: session state, question
      and interaction events, session summary, persistence to
      [localStorage], delivery through [postMessage] and listener
      callbacks), with the event types of [blockAnalytics.ts];
    - the registered-content store (class [RegisteredContent] and the
      process-wide map [window.registeredContents]).

    Modelling conventions.

    - A method that mutates [this] and the browser is a computation in a
      state-and-exception monad [M S A := S -> Outcome A * S]; [try_catch]
      is the [try { } catch { }] of the source.
    - [Date.now()] and [Math.random()] read oracles carried by the world;
      every read advances a counter, so two reads in one method may differ.
    - JavaScript numbers supplied by the caller are exact rationals [Q];
      clock readings and counters are integers [Z].  A quotient is the
      rational that the floating-point division rounds.  A sum of numbers
      supplied by the caller (the total of the hints) is exact; it is the
      sum of the source when the numbers are whole and the sum is at most
      [2^53], which the statement about it assumes.
    - A value of type [any] is a JSON tree; where the source passes on an
      argument of type [any] that may be [undefined] (the answer and the
      expected answer of [answerQuestion]), it is an optional JSON tree.
      The browser is healthy: storage calls and [postMessage] return
      normally.  The exceptions that can arise are those of [JSON.parse] on
      a text that is not JSON, of a property read on [null], and of a
      listener callback.
    - A stored text is kept as what [JSON.parse] makes of it ([Item]): no
      JSON, [null], a primitive, or a complete session state. *)

From Stdlib Require Import ZArith QArith List String Bool Lia.
From stdpp Require Import base option gmap strings list pretty.
Import ListNotations.

Set Default Proof Using "Type".
Local Open Scope Z_scope.
Local Open Scope string_scope.
Local Open Scope list_scope.

(** ** Base types of [blockAnalytics.ts] *)

Inductive SessionEventType := SessionStarted | SessionCompleted | SessionAbandoned.

Inductive InteractionType :=
  click | input | drag | scroll | hover | focus | blur | submit | select.

Inductive QuestionEventType :=
  QuestionStarted | QuestionAnswered | QuestionSkipped | QuestionReviewed.

Inductive QuestionType :=
  multiple_choice | true_false | fill_blank | essay | matching | ordering.

Inductive SlideEventType := SlideViewed | SlideCompleted | SlideSkipped.

(** A value of TypeScript type [any] (answers, free-form payloads, content
    trees). *)
Local Unset Elimination Schemes.
Inductive json :=
| JNull
| JBool (b : bool)
| JNum (q : Q)
| JStr (s : string)
| JArr (items : list json)
| JObj (fields : list (string * json)).
Local Set Elimination Schemes.

Definition SessionEventType_eqb (a b : SessionEventType) : bool :=
  match a, b with
  | SessionStarted, SessionStarted
  | SessionCompleted, SessionCompleted
  | SessionAbandoned, SessionAbandoned => true
  | _, _ => false
  end.

Definition QuestionEventType_eqb (a b : QuestionEventType) : bool :=
  match a, b with
  | QuestionStarted, QuestionStarted
  | QuestionAnswered, QuestionAnswered
  | QuestionSkipped, QuestionSkipped
  | QuestionReviewed, QuestionReviewed => true
  | _, _ => false
  end.

(** ** Event records

    An optional property ([name?: T]) is an [option]; [None] is
    [undefined], that is, the property is absent from the object. *)

Record InteractionEvent := {
  ie_interactionType : InteractionType;
  ie_blockId : option string;
  ie_sessionId : string;
  ie_elementId : option string;
  ie_elementType : option string;
  ie_timestamp : Z;
  ie_duration : option Q;
  ie_data : option json;
}.

Record QuestionEvent := {
  eventType : QuestionEventType;
  qe_blockId : option string;
  qe_sessionId : string;
  questionId : string;
  questionType : QuestionType;
  questionText : option string;
  qe_timestamp : Z;
  timeToAnswer : option Z;
  answer : option json;
  correctAnswer : option json;
  isCorrect : option bool;
  qe_score : option Q;
  qe_maxScore : option Q;
  attemptNumber : option Q;
  hintsUsed : option Q;
  confidenceLevel : option Q;
}.

Record SlideViewEvent := {
  sv_slideId : string;
  sv_courseId : option string;
  sv_sessionId : string;
  sv_eventType : SlideEventType;
  sv_timestamp : Z;
  sv_timeSpent : Z;
  slideType : option string;
  slideTitle : option string;
  scrollDepth : option Q;
  mediaProgress : option Q;
  interactionCount : option Q;
}.

Record SessionSummary := {
  completed : bool;
  score : option Q;
  maxScore : option Q;
  timeSpent : Z;
  totalInteractions : Z;
  questionsAttempted : option Z;
  questionsCorrect : option Z;
  questionsIncorrect : option Z;
  questionsSkipped : option Z;
  slidesViewed : option Z;
  averageTimePerQuestion : option Q;
  averageTimePerSlide : option Q;
  accuracyRate : option Q;
  hintsUsedTotal : option Q;
  attemptsTotal : option Q;
}.

Record SessionDetails := {
  det_interactions : option (list InteractionEvent);
  det_questions : option (list QuestionEvent);
  det_slides : option (list SlideViewEvent);
}.

Record BlockSessionEvent := {
  se_eventType : SessionEventType;
  se_blockId : option string;
  se_slideId : option string;
  se_courseId : option string;
  se_sessionId : string;
  se_timestamp : Z;
  summary : SessionSummary;
  details : option SessionDetails;
}.

(** [LegacyBlockCompletionEvent].  The interface declares
    [timestamp: number]; the field is an [option] here because an object
    can be built without the property, as [sendLegacyCompletion] does.
    The interface has no [sessionId]. *)
Record LegacyBlockCompletionEvent := {
  lg_completed : bool;
  lg_score : option Q;
  lg_maxScore : option Q;
  lg_timeSpent : option Z;
  lg_timestamp : option Z;
  lg_data : option json;
}.

(** [BlockAnalyticsEvent], the events a tracker sends.  The constructor is
    the [type] tag of the object. *)
Inductive BlockAnalyticsEvent :=
| BLOCK_SESSION (e : BlockSessionEvent)
| BLOCK_INTERACTION (e : InteractionEvent)
| BLOCK_QUESTION (e : QuestionEvent)
| BLOCK_COMPLETION (e : LegacyBlockCompletionEvent).

(** The [timestamp] and [sessionId] properties of an event object, when it
    has them. *)
Definition event_timestamp (e : BlockAnalyticsEvent) : option Z :=
  match e with
  | BLOCK_SESSION s => Some (se_timestamp s)
  | BLOCK_INTERACTION i => Some (ie_timestamp i)
  | BLOCK_QUESTION q => Some (qe_timestamp q)
  | BLOCK_COMPLETION l => lg_timestamp l
  end.

Definition event_sessionId (e : BlockAnalyticsEvent) : option string :=
  match e with
  | BLOCK_SESSION s => Some (se_sessionId s)
  | BLOCK_INTERACTION i => Some (ie_sessionId i)
  | BLOCK_QUESTION q => Some (qe_sessionId q)
  | BLOCK_COMPLETION _ => None
  end.

(** ** Configuration and session state *)

(** [BlockTrackerConfig]: what the caller passes, every field optional. *)
Record BlockTrackerConfig := {
  opt_blockId : option string;
  opt_slideId : option string;
  opt_courseId : option string;
  opt_trackInteractions : option bool;
  opt_trackQuestions : option bool;
  opt_sendDetailedEvents : option bool;
  opt_sendSummaryEvent : option bool;
  opt_sendLegacyEvent : option bool;
  opt_interactionDebounce : option Z;
  opt_progressUpdateInterval : option Z;
  opt_persistSession : option bool;
  opt_sessionStorageKey : option string;
}.

(** [Required<BlockTrackerConfig>]: the tracker's [config] field.  The flag
    [persistSession] is [persistSessionFlag] here, the method of that name
    keeps the name. *)
Record Config := {
  blockId : string;
  slideId : string;
  courseId : string;
  trackInteractions : bool;
  trackQuestions : bool;
  sendDetailedEvents : bool;
  sendSummaryEvent : bool;
  sendLegacyEvent : bool;
  interactionDebounce : Z;
  progressUpdateInterval : Z;
  persistSessionFlag : bool;
  sessionStorageKey : string;
}.

Record SessionState := {
  sessionId : string;
  st_blockId : option string;
  startTime : Z;
  interactions : list InteractionEvent;
  questions : list QuestionEvent;
  slides : list SlideViewEvent;
  currentQuestionId : option string;
  currentQuestionStartTime : option Z;
  st_totalInteractions : Z;
  totalQuestions : Z;
  correctQuestions : Z;
}.

(** [EventSenderCallback].  [cb_id] is the identity of the function object
    (what [!==] compares); [cb_throws] tells on which events a call of it
    throws. *)
Record EventSenderCallback := {
  cb_id : nat;
  cb_throws : BlockAnalyticsEvent -> bool;
}.

(** ** The registered-content store *)

Record RegisteredContent := {
  rc_id : string;
  jsonFilePath : string;
  storeFilePath : string;
  componentPath : string;
  data : json;
}.

(** The payloads of [editor:init] and [editor:inline-update]. *)
Record EditorInit := {
  init_storeId : string;
  init_jsonFilePath : string;
  init_storeFilePath : string;
  init_componentPath : string;
  init_data : json;
}.

Record EditorInlineUpdate := {
  upd_storeId : string;
  upd_jsonFilePath : string;
  upd_componentPath : string;
  upd_storeFilePath : string;
  upd_path : string;
  upd_value : json;
}.

(** ** The browser *)

(** What [postMessage] carries, and to which window. *)
Inductive Message :=
| Analytics (e : BlockAnalyticsEvent)
| EditorInitMsg (p : EditorInit)
| EditorInlineUpdateMsg (p : EditorInlineUpdate).

Inductive Target := Window | WindowParent.

(** What [JSON.parse] returns for a stored text, read at the type the
    source casts it to ([as SessionState]): [null], a number, string or
    boolean, or a complete session state.  The cast of the source is not
    checked: an object that is no complete session state has no value
    here, and the statements about stored texts are about these three
    kinds. *)
Inductive JsValue :=
| VNull
| VPrimitive
| VSession (s : SessionState).

(** A text in [localStorage]: either no JSON text at all, or the JSON text
    of a value. *)
Inductive Item :=
| Malformed (text : string)
| Json (v : JsValue).

Inductive Error :=
| SyntaxError
| TypeError
| CallbackError (who : nat).

Record World := {
  clock : nat -> Z;
  clock_reads : nat;
  random : nat -> string;
  random_reads : nat;
  localStorage : gmap string Item;
  posted : list (Target * Message);
  delivered : list (nat * BlockAnalyticsEvent);
  console : list string;
  intervals : gset positive;
  next_interval : positive;
  registeredContents : gmap string RegisteredContent;
}.

Record BlockTracker := {
  config : Config;
  state : SessionState;
  isCompleted : bool;
  eventSenders : list EventSenderCallback;
  progressTimer : option positive;
}.

(** The store a tracker method runs on: the object [this] and the browser. *)
Record St := { this : BlockTracker; env : World }.

(** ** The monad *)

Inductive Outcome (A : Type) :=
| Returned (a : A)
| Thrown (e : Error).
Arguments Returned {A} a.
Arguments Thrown {A} e.

Definition M (S A : Type) : Type := S -> Outcome A * S.

Definition ret {S A} (a : A) : M S A := fun s => (Returned a, s).

Definition bind {S A B} (m : M S A) (k : A -> M S B) : M S B :=
  fun s =>
    match m s with
    | (Returned a, s') => k a s'
    | (Thrown e, s') => (Thrown e, s')
    end.

Definition throw {S A} (e : Error) : M S A := fun s => (Thrown e, s).

Definition try_catch {S A} (body : M S A) (handler : Error -> M S A) : M S A :=
  fun s =>
    match body s with
    | (Returned a, s') => (Returned a, s')
    | (Thrown e, s') => handler e s'
    end.

Definition gets {S A} (f : S -> A) : M S A := fun s => (Returned (f s), s).

Definition modify {S} (f : S -> S) : M S unit := fun s => (Returned tt, f s).

Declare Scope js_scope.
Delimit Scope js_scope with js.
Notation "x <- c1 ;; c2" := (bind c1 (fun x => c2))
  (at level 100, c1 at next level, right associativity) : js_scope.
Notation "c1 ;; c2" := (bind c1 (fun _ => c2))
  (at level 100, right associativity) : js_scope.
Notation "'when' b 'then' c" := (if b then c else ret tt)
  (at level 100, b at next level, c at level 100) : js_scope.
Local Open Scope js_scope.

(** A computation on the browser alone, run from a tracker method. *)
Definition in_env {A} (m : M World A) : M St A :=
  fun s =>
    let '(o, w) := m (env s) in (o, {| this := this s; env := w |}).

(** The store after a computation, and its outcome. *)
Definition exec {S A} (m : M S A) (s : S) : S := snd (m s).
Definition outcome {S A} (m : M S A) (s : S) : Outcome A := fst (m s).

(** ** Browser primitives *)

Definition Date_now : M World Z :=
  fun w =>
    (Returned (clock w (clock_reads w)),
     {| clock := clock w; clock_reads := S (clock_reads w);
        random := random w; random_reads := random_reads w;
        localStorage := localStorage w; posted := posted w;
        delivered := delivered w; console := console w;
        intervals := intervals w; next_interval := next_interval w;
        registeredContents := registeredContents w |}).

(** [Math.random().toString(36).substring(2, 9)]: the oracle gives the
    digits. *)
Definition Math_random_id : M World string :=
  fun w =>
    (Returned (random w (random_reads w)),
     {| clock := clock w; clock_reads := clock_reads w;
        random := random w; random_reads := S (random_reads w);
        localStorage := localStorage w; posted := posted w;
        delivered := delivered w; console := console w;
        intervals := intervals w; next_interval := next_interval w;
        registeredContents := registeredContents w |}).

Definition set_localStorage (m : gmap string Item) (w : World) : World :=
  {| clock := clock w; clock_reads := clock_reads w;
     random := random w; random_reads := random_reads w;
     localStorage := m; posted := posted w;
     delivered := delivered w; console := console w;
     intervals := intervals w; next_interval := next_interval w;
     registeredContents := registeredContents w |}.

Definition localStorage_getItem (key : string) : M World (option Item) :=
  gets (fun w => localStorage w !! key).

Definition localStorage_setItem (key : string) (value : Item) : M World unit :=
  modify (fun w => set_localStorage (<[key := value]> (localStorage w)) w).

Definition localStorage_removeItem (key : string) : M World unit :=
  modify (fun w => set_localStorage (delete key (localStorage w)) w).

Definition postMessage (target : Target) (message : Message) : M World unit :=
  modify (fun w =>
    {| clock := clock w; clock_reads := clock_reads w;
       random := random w; random_reads := random_reads w;
       localStorage := localStorage w;
       posted := posted w ++ [(target, message)];
       delivered := delivered w; console := console w;
       intervals := intervals w; next_interval := next_interval w;
       registeredContents := registeredContents w |}).

Definition console_warn (text : string) : M World unit :=
  modify (fun w =>
    {| clock := clock w; clock_reads := clock_reads w;
       random := random w; random_reads := random_reads w;
       localStorage := localStorage w; posted := posted w;
       delivered := delivered w; console := console w ++ [text];
       intervals := intervals w; next_interval := next_interval w;
       registeredContents := registeredContents w |}).

(** The call [sender(event)] of a listener: the call is observed, then the
    callback returns or throws. *)
Definition call_sender (sender : EventSenderCallback) (event : BlockAnalyticsEvent)
  : M World unit :=
  modify (fun w =>
    {| clock := clock w; clock_reads := clock_reads w;
       random := random w; random_reads := random_reads w;
       localStorage := localStorage w; posted := posted w;
       delivered := delivered w ++ [(cb_id sender, event)];
       console := console w;
       intervals := intervals w; next_interval := next_interval w;
       registeredContents := registeredContents w |});;
  if cb_throws sender event then throw (CallbackError (cb_id sender)) else ret tt.

Definition set_intervals (s : gset positive) (next : positive) (w : World) : World :=
  {| clock := clock w; clock_reads := clock_reads w;
     random := random w; random_reads := random_reads w;
     localStorage := localStorage w; posted := posted w;
     delivered := delivered w; console := console w;
     intervals := s; next_interval := next;
     registeredContents := registeredContents w |}.

(** [window.setInterval] hands out a fresh non-zero handle. *)
Definition setInterval : M World positive :=
  fun w =>
    (Returned (next_interval w),
     set_intervals ({[next_interval w]} ∪ intervals w) (Pos.succ (next_interval w)) w).

Definition clearInterval (handle : positive) : M World unit :=
  modify (fun w => set_intervals (intervals w ∖ {[handle]}) (next_interval w) w).

Definition set_registeredContents (m : gmap string RegisteredContent) (w : World) : World :=
  {| clock := clock w; clock_reads := clock_reads w;
     random := random w; random_reads := random_reads w;
     localStorage := localStorage w; posted := posted w;
     delivered := delivered w; console := console w;
     intervals := intervals w; next_interval := next_interval w;
     registeredContents := m |}.

(** [JSON.parse] and [JSON.stringify] on stored session records. *)
Definition JSON_parse (text : Item) : M World JsValue :=
  match text with
  | Malformed _ => throw SyntaxError
  | Json v => ret v
  end.

Definition JSON_stringify (s : SessionState) : Item := Json (VSession s).

(** Truthiness of a string read from storage, of a number and of an
    optional number. *)
Definition truthy_item (text : Item) : bool :=
  match text with
  | Malformed t => negb (String.eqb t "")
  | Json _ => true
  end.

Definition truthy_Z (o : option Z) : bool :=
  match o with
  | Some n => negb (Z.eqb n 0)
  | None => false
  end.

(** [x || 0] on optional numbers, [x || d] on optional strings, [x ?? d]. *)
Definition or_zero_Z (o : option Z) : Z :=
  match o with
  | Some n => if Z.eqb n 0 then 0 else n
  | None => 0
  end.

Definition or_zero_Q (o : option Q) : Q :=
  match o with
  | Some q => if Qeq_bool q 0 then 0%Q else q
  | None => 0%Q
  end.

Definition or_string (o : option string) (d : string) : string :=
  match o with
  | Some s => if String.eqb s "" then d else s
  | None => d
  end.

Definition nullish {A} (o : option A) (d : A) : A :=
  match o with
  | Some a => a
  | None => d
  end.

(** [a === b] for an optional string and a string. *)
Definition strict_eq_string (o : option string) (s : string) : bool :=
  match o with
  | Some a => String.eqb a s
  | None => false
  end.

(** ** Assignments to the fields of [this.state] and [this] *)

Definition push_interaction (e : InteractionEvent) (s : SessionState) : SessionState :=
  {| sessionId := sessionId s; st_blockId := st_blockId s; startTime := startTime s;
     interactions := interactions s ++ [e];
     questions := questions s; slides := slides s;
     currentQuestionId := currentQuestionId s;
     currentQuestionStartTime := currentQuestionStartTime s;
     st_totalInteractions := st_totalInteractions s;
     totalQuestions := totalQuestions s; correctQuestions := correctQuestions s |}.

Definition incr_totalInteractions (s : SessionState) : SessionState :=
  {| sessionId := sessionId s; st_blockId := st_blockId s; startTime := startTime s;
     interactions := interactions s;
     questions := questions s; slides := slides s;
     currentQuestionId := currentQuestionId s;
     currentQuestionStartTime := currentQuestionStartTime s;
     st_totalInteractions := st_totalInteractions s + 1;
     totalQuestions := totalQuestions s; correctQuestions := correctQuestions s |}.

Definition push_question (e : QuestionEvent) (s : SessionState) : SessionState :=
  {| sessionId := sessionId s; st_blockId := st_blockId s; startTime := startTime s;
     interactions := interactions s;
     questions := questions s ++ [e]; slides := slides s;
     currentQuestionId := currentQuestionId s;
     currentQuestionStartTime := currentQuestionStartTime s;
     st_totalInteractions := st_totalInteractions s;
     totalQuestions := totalQuestions s; correctQuestions := correctQuestions s |}.

Definition incr_totalQuestions (s : SessionState) : SessionState :=
  {| sessionId := sessionId s; st_blockId := st_blockId s; startTime := startTime s;
     interactions := interactions s;
     questions := questions s; slides := slides s;
     currentQuestionId := currentQuestionId s;
     currentQuestionStartTime := currentQuestionStartTime s;
     st_totalInteractions := st_totalInteractions s;
     totalQuestions := totalQuestions s + 1; correctQuestions := correctQuestions s |}.

Definition incr_correctQuestions (s : SessionState) : SessionState :=
  {| sessionId := sessionId s; st_blockId := st_blockId s; startTime := startTime s;
     interactions := interactions s;
     questions := questions s; slides := slides s;
     currentQuestionId := currentQuestionId s;
     currentQuestionStartTime := currentQuestionStartTime s;
     st_totalInteractions := st_totalInteractions s;
     totalQuestions := totalQuestions s; correctQuestions := correctQuestions s + 1 |}.

Definition set_currentQuestionId (v : option string) (s : SessionState) : SessionState :=
  {| sessionId := sessionId s; st_blockId := st_blockId s; startTime := startTime s;
     interactions := interactions s;
     questions := questions s; slides := slides s;
     currentQuestionId := v;
     currentQuestionStartTime := currentQuestionStartTime s;
     st_totalInteractions := st_totalInteractions s;
     totalQuestions := totalQuestions s; correctQuestions := correctQuestions s |}.

Definition set_currentQuestionStartTime (v : option Z) (s : SessionState) : SessionState :=
  {| sessionId := sessionId s; st_blockId := st_blockId s; startTime := startTime s;
     interactions := interactions s;
     questions := questions s; slides := slides s;
     currentQuestionId := currentQuestionId s;
     currentQuestionStartTime := v;
     st_totalInteractions := st_totalInteractions s;
     totalQuestions := totalQuestions s; correctQuestions := correctQuestions s |}.

Definition set_state (s : SessionState) (t : BlockTracker) : BlockTracker :=
  {| config := config t; state := s; isCompleted := isCompleted t;
     eventSenders := eventSenders t; progressTimer := progressTimer t |}.

Definition set_isCompleted (b : bool) (t : BlockTracker) : BlockTracker :=
  {| config := config t; state := state t; isCompleted := b;
     eventSenders := eventSenders t; progressTimer := progressTimer t |}.

Definition set_eventSenders (l : list EventSenderCallback) (t : BlockTracker) : BlockTracker :=
  {| config := config t; state := state t; isCompleted := isCompleted t;
     eventSenders := l; progressTimer := progressTimer t |}.

Definition set_progressTimer (h : option positive) (t : BlockTracker) : BlockTracker :=
  {| config := config t; state := state t; isCompleted := isCompleted t;
     eventSenders := eventSenders t; progressTimer := h |}.

(** [this.f = ...] and [this.state.f = ...]. *)
Definition assign_this (f : BlockTracker -> BlockTracker) : M St unit :=
  modify (fun s => {| this := f (this s); env := env s |}).

Definition assign_state (f : SessionState -> SessionState) : M St unit :=
  assign_this (fun t => set_state (f (state t)) t).

(** [array.forEach(body)]: an exception of [body] leaves the loop. *)
Fixpoint forEach {S A} (l : list A) (body : A -> M S unit) : M S unit :=
  match l with
  | [] => ret tt
  | x :: rest => body x;; forEach rest body
  end.

(** ** [BlockTracker]: private methods *)

(** The defaults of the constructor. *)
Definition with_defaults (c : BlockTrackerConfig) : Config :=
  {| blockId := or_string (opt_blockId c) "";
     slideId := or_string (opt_slideId c) "";
     courseId := or_string (opt_courseId c) "";
     trackInteractions := nullish (opt_trackInteractions c) true;
     trackQuestions := nullish (opt_trackQuestions c) true;
     sendDetailedEvents := nullish (opt_sendDetailedEvents c) true;
     sendSummaryEvent := nullish (opt_sendSummaryEvent c) true;
     sendLegacyEvent := nullish (opt_sendLegacyEvent c) true;
     interactionDebounce := nullish (opt_interactionDebounce c) 100;
     progressUpdateInterval := nullish (opt_progressUpdateInterval c) 5000;
     persistSessionFlag := nullish (opt_persistSession c) false;
     sessionStorageKey :=
       nullish (opt_sessionStorageKey c)
               ("blockTracker_" +:+ or_string (opt_blockId c) "anonymous") |}.

(** The body of the [try] block of [restoreOrCreateSession]: [Some state]
    when it leaves the method through [return state]. *)
Definition restoreSession (cfg : Config) : M World (option SessionState) :=
  stored <- localStorage_getItem (sessionStorageKey cfg);;
  match stored with
  | Some text =>
      if truthy_item text then
        parsed <- JSON_parse text;;
        match parsed with
        | VNull => throw TypeError
        | VPrimitive => ret None
        | VSession state =>
            if strict_eq_string (st_blockId state) (blockId cfg)
            then ret (Some state)
            else ret None
        end
      else ret None
  | None => ret None
  end.

Definition restoreOrCreateSession (cfg : Config) : M World SessionState :=
  restored <-
    (if persistSessionFlag cfg then
       try_catch (restoreSession cfg)
                 (fun _ => console_warn "[BlockTracker] Failed to restore session:";;
                           ret None)
     else ret None);;
  match restored with
  | Some state => ret state
  | None =>
      now <- Date_now;;
      digits <- Math_random_id;;
      start <- Date_now;;
      ret {| sessionId := "session_" +:+ pretty now +:+ "_" +:+ digits;
             st_blockId := Some (blockId cfg);
             startTime := start;
             interactions := [];
             questions := [];
             slides := [];
             currentQuestionId := None;
             currentQuestionStartTime := None;
             st_totalInteractions := 0;
             totalQuestions := 0;
             correctQuestions := 0 |}
  end.

Definition persistSession : M St unit :=
  t <- gets this;;
  if negb (persistSessionFlag (config t)) then ret tt else
  try_catch
    (in_env (localStorage_setItem (sessionStorageKey (config t))
                                  (JSON_stringify (state t))))
    (fun _ => in_env (console_warn "[BlockTracker] Failed to persist session:")).

Definition clearPersistedSession : M St unit :=
  t <- gets this;;
  if negb (persistSessionFlag (config t)) then ret tt else
  try_catch
    (in_env (localStorage_removeItem (sessionStorageKey (config t))))
    (fun _ => in_env (console_warn "[BlockTracker] Failed to clear session:")).

Definition sendEvent (event : BlockAnalyticsEvent) : M St unit :=
  try_catch
    (in_env (postMessage Window (Analytics event));;
     in_env (postMessage WindowParent (Analytics event)))
    (fun _ => in_env (console_warn "[BlockTracker] Failed to send postMessage:"));;
  t <- gets this;;
  forEach (eventSenders t) (fun sender =>
    try_catch
      (in_env (call_sender sender event))
      (fun _ => in_env (console_warn "[BlockTracker] Event sender error:"))).

(** The optional argument [data] of [sendSessionEvent]. *)
Record SessionData := {
  d_score : option Q;
  d_maxScore : option Q;
  d_timeSpent : option Z;
  d_additionalData : option json;
}.

Definition is_answered (q : QuestionEvent) : bool :=
  QuestionEventType_eqb (eventType q) QuestionAnswered.

Definition is_skipped (q : QuestionEvent) : bool :=
  QuestionEventType_eqb (eventType q) QuestionSkipped.

(** Truthiness of [q.isCorrect]. *)
Definition is_correct (q : QuestionEvent) : bool :=
  match isCorrect q with
  | Some b => b
  | None => false
  end.

Definition Z_length {A} (l : list A) : Z := Z.of_nat (length l).

(** The object literal at [summary:] in [sendSessionEvent], with the four
    filtered arrays computed before it. *)
Definition sessionSummary (s : SessionState) (kind : SessionEventType)
    (data : option SessionData) (spent : Z) : SessionSummary :=
  let answeredQuestions := List.filter is_answered (questions s) in
  let answeredCorrect := List.filter is_correct answeredQuestions in
  let answeredIncorrect := List.filter (fun q => negb (is_correct q)) answeredQuestions in
  let skippedQuestions := List.filter is_skipped (questions s) in
  {| completed := SessionEventType_eqb kind SessionCompleted;
     score := data ≫= d_score;
     maxScore := data ≫= d_maxScore;
     timeSpent := spent;
     totalInteractions := st_totalInteractions s;
     questionsAttempted := Some (Z_length answeredQuestions + Z_length skippedQuestions);
     questionsCorrect := Some (Z_length answeredCorrect);
     questionsIncorrect := Some (Z_length answeredIncorrect);
     questionsSkipped := Some (Z_length skippedQuestions);
     slidesViewed := None;
     averageTimePerQuestion :=
       if (0 <? Z_length answeredQuestions)%Z
       then Some (Qdiv (inject_Z (fold_left (fun sum q => sum + or_zero_Z (timeToAnswer q))
                                            answeredQuestions 0))
                       (inject_Z (Z_length answeredQuestions)))
       else None;
     averageTimePerSlide := None;
     accuracyRate :=
       if (0 <? Z_length answeredQuestions)%Z
       then Some (Qdiv (inject_Z (Z_length answeredCorrect))
                       (inject_Z (Z_length answeredQuestions)))
       else None;
     hintsUsedTotal :=
       Some (fold_left (fun sum q => (sum + or_zero_Q (hintsUsed q))%Q) (questions s) 0%Q);
     attemptsTotal := None |}.

Definition sendSessionEvent (kind : SessionEventType) (data : option SessionData)
  : M St unit :=
  t <- gets this;;
  spent <- match data ≫= d_timeSpent with
           | Some ms => ret ms
           | None => now <- in_env Date_now;; ret (now - startTime (state t))
           end;;
  stamp <- in_env Date_now;;
  let event :=
    {| se_eventType := kind;
       se_blockId := Some (blockId (config t));
       se_slideId := Some (slideId (config t));
       se_courseId := Some (courseId (config t));
       se_sessionId := sessionId (state t);
       se_timestamp := stamp;
       summary := sessionSummary (state t) kind data spent;
       details :=
         if SessionEventType_eqb kind SessionCompleted && sendSummaryEvent (config t)
         then Some {| det_interactions := Some (interactions (state t));
                      det_questions := Some (questions (state t));
                      det_slides := Some (slides (state t)) |}
         else None |} in
  sendEvent (BLOCK_SESSION event).

Definition sendLegacyCompletion (points maxPoints : option Q) (spent : option Z)
    (payload : option json) : M St unit :=
  let legacyEvent :=
    {| lg_completed := true;
       lg_score := points;
       lg_maxScore := maxPoints;
       lg_timeSpent := spent;
       lg_timestamp := None;
       lg_data := payload |} in
  sendEvent (BLOCK_COMPLETION legacyEvent).

(** ** [BlockTracker]: public methods *)

Definition trackInteraction (kind : InteractionType) (elementId : option string)
    (payload : option json) (elementType : option string) (duration : option Q)
  : M St unit :=
  t <- gets this;;
  if negb (trackInteractions (config t)) || isCompleted t then ret tt else
  stamp <- in_env Date_now;;
  let event :=
    {| ie_interactionType := kind;
       ie_blockId := Some (blockId (config t));
       ie_sessionId := sessionId (state t);
       ie_elementId := elementId;
       ie_elementType := elementType;
       ie_timestamp := stamp;
       ie_duration := duration;
       ie_data := payload |} in
  assign_state (push_interaction event);;
  assign_state incr_totalInteractions;;
  (when sendDetailedEvents (config t) then sendEvent (BLOCK_INTERACTION event));;
  persistSession.

Definition startQuestion (id : string) (type : QuestionType) (text : option string)
  : M St unit :=
  t <- gets this;;
  if negb (trackQuestions (config t)) || isCompleted t then ret tt else
  assign_state (set_currentQuestionId (Some id));;
  opened <- in_env Date_now;;
  assign_state (set_currentQuestionStartTime (Some opened));;
  stamp <- in_env Date_now;;
  let event :=
    {| eventType := QuestionStarted;
       qe_blockId := Some (blockId (config t));
       qe_sessionId := sessionId (state t);
       questionId := id;
       questionType := type;
       questionText := text;
       qe_timestamp := stamp;
       timeToAnswer := None;
       answer := None;
       correctAnswer := None;
       isCorrect := None;
       qe_score := None;
       qe_maxScore := None;
       attemptNumber := None;
       hintsUsed := None;
       confidenceLevel := None |} in
  assign_state (push_question event);;
  (when sendDetailedEvents (config t) then sendEvent (BLOCK_QUESTION event));;
  persistSession.

(** The argument [options] of [answerQuestion]. *)
Record AnswerOptions := {
  o_questionType : option QuestionType;
  o_questionText : option string;
  o_attemptNumber : option Q;
  o_hintsUsed : option Q;
}.

Definition answerQuestion (id : string) (given expected : option json) (correct : bool)
    (points maxPoints : Q) (options : option AnswerOptions) : M St unit :=
  t <- gets this;;
  if negb (trackQuestions (config t)) || isCompleted t then ret tt else
  elapsed <-
    (if strict_eq_string (currentQuestionId (state t)) id
        && truthy_Z (currentQuestionStartTime (state t))
     then now <- in_env Date_now;;
          ret (Some (now - nullish (currentQuestionStartTime (state t)) 0))
     else ret None);;
  stamp <- in_env Date_now;;
  let event :=
    {| eventType := QuestionAnswered;
       qe_blockId := Some (blockId (config t));
       qe_sessionId := sessionId (state t);
       questionId := id;
       questionType := nullish (options ≫= o_questionType) multiple_choice;
       questionText := options ≫= o_questionText;
       qe_timestamp := stamp;
       timeToAnswer := elapsed;
       answer := given;
       correctAnswer := expected;
       isCorrect := Some correct;
       qe_score := Some points;
       qe_maxScore := Some maxPoints;
       attemptNumber := options ≫= o_attemptNumber;
       hintsUsed := options ≫= o_hintsUsed;
       confidenceLevel := None |} in
  assign_state (push_question event);;
  assign_state incr_totalQuestions;;
  (when correct then assign_state incr_correctQuestions);;
  assign_state (set_currentQuestionId None);;
  assign_state (set_currentQuestionStartTime None);;
  (when sendDetailedEvents (config t) then sendEvent (BLOCK_QUESTION event));;
  persistSession.

Definition skipQuestion (id : string) (type : option QuestionType) : M St unit :=
  t <- gets this;;
  if negb (trackQuestions (config t)) || isCompleted t then ret tt else
  stamp <- in_env Date_now;;
  let event :=
    {| eventType := QuestionSkipped;
       qe_blockId := Some (blockId (config t));
       qe_sessionId := sessionId (state t);
       questionId := id;
       questionType := nullish type multiple_choice;
       questionText := None;
       qe_timestamp := stamp;
       timeToAnswer := None;
       answer := None;
       correctAnswer := None;
       isCorrect := None;
       qe_score := None;
       qe_maxScore := None;
       attemptNumber := None;
       hintsUsed := None;
       confidenceLevel := None |} in
  assign_state (push_question event);;
  (when sendDetailedEvents (config t) then sendEvent (BLOCK_QUESTION event));;
  persistSession.

Definition complete (points maxPoints : option Q) (additionalData : option json)
  : M St unit :=
  t <- gets this;;
  if isCompleted t then ret tt else
  assign_this (set_isCompleted true);;
  now <- in_env Date_now;;
  let spent := now - startTime (state t) in
  sendSessionEvent SessionCompleted
    (Some {| d_score := points; d_maxScore := maxPoints;
             d_timeSpent := Some spent; d_additionalData := additionalData |});;
  (when sendLegacyEvent (config t)
   then sendLegacyCompletion points maxPoints (Some spent) additionalData);;
  match progressTimer t with
  | Some handle => in_env (clearInterval handle)
  | None => ret tt
  end;;
  (when persistSessionFlag (config t) then clearPersistedSession).

Definition abandon : M St unit :=
  t <- gets this;;
  if isCompleted t then ret tt else
  assign_this (set_isCompleted true);;
  now <- in_env Date_now;;
  let spent := now - startTime (state t) in
  sendSessionEvent SessionAbandoned
    (Some {| d_score := None; d_maxScore := None;
             d_timeSpent := Some spent; d_additionalData := None |});;
  match progressTimer t with
  | Some handle => in_env (clearInterval handle)
  | None => ret tt
  end.

Definition addEventListener (callback : EventSenderCallback) : M St unit :=
  assign_this (fun t => set_eventSenders (eventSenders t ++ [callback]) t).

Definition removeEventListener (callback : EventSenderCallback) : M St unit :=
  assign_this (fun t =>
    set_eventSenders
      (List.filter (fun cb => negb (Nat.eqb (cb_id cb) (cb_id callback))) (eventSenders t))
      t).

Definition getState : M St SessionState := gets (fun s => state (this s)).

Definition getSessionId : M St string := gets (fun s => sessionId (state (this s))).

Definition getTimeSpent : M St Z :=
  t <- gets this;;
  now <- in_env Date_now;;
  ret (now - startTime (state t)).

(** ** Timer, unload handler, constructor *)

(** The function given to [setInterval] by [startProgressUpdates]. *)
Definition progressTick : M St unit :=
  t <- gets this;;
  if negb (isCompleted t) then persistSession else ret tt.

Definition startProgressUpdates : M St unit :=
  handle <- in_env setInterval;;
  assign_this (set_progressTimer (Some handle)).

(** The browser fires the interval of the tracker, if it is still set. *)
Definition intervalFires : M St unit :=
  s <- gets id;;
  match progressTimer (this s) with
  | Some handle =>
      if bool_decide (handle ∈ intervals (env s)) then progressTick else ret tt
  | None => ret tt
  end.

(** The [handler] of [setupUnloadHandler], which the browser calls on
    [beforeunload] and [pagehide]. *)
Definition unloadHandler : M St unit :=
  t <- gets this;;
  if negb (isCompleted t) then abandon else ret tt.

Definition setupUnloadHandler : M St unit := ret tt.

(** [new BlockTracker(config)]: the computation runs on the browser and
    gives the new object. *)
Definition new_BlockTracker (c : BlockTrackerConfig) : M World BlockTracker :=
  fun w =>
    let cfg := with_defaults c in
    match restoreOrCreateSession cfg w with
    | (Thrown e, w1) => (Thrown e, w1)
    | (Returned restored, w1) =>
        let fields :=
          {| config := cfg; state := restored; isCompleted := false;
             eventSenders := []; progressTimer := None |} in
        match (sendSessionEvent SessionStarted None;;
               (when (0 <? progressUpdateInterval cfg)%Z then startProgressUpdates);;
               setupUnloadHandler)
              {| this := fields; env := w1 |} with
        | (Returned _, s) => (Returned (this s), env s)
        | (Thrown e, s) => (Thrown e, env s)
        end
    end.

(** ** [RegisteredContent] *)

Record RegisteredContentDto := {
  dto_id : string;
  dto_jsonFilePath : string;
  dto_storeFilePath : string;
  dto_componentPath : string;
  dto_data : json;
}.

(** [new RegisteredContent(dto)]. *)
Definition new_RegisteredContent (dto : RegisteredContentDto) : M World RegisteredContent :=
  let self :=
    {| rc_id := dto_id dto;
       jsonFilePath := dto_jsonFilePath dto;
       storeFilePath := dto_storeFilePath dto;
       componentPath := dto_componentPath dto;
       data := dto_data dto |} in
  registry <- gets registeredContents;;
  match registry !! rc_id self with
  | Some _ => ret self
  | None =>
      modify (fun w => set_registeredContents (<[rc_id self := self]> (registeredContents w)) w);;
      postMessage WindowParent
        (EditorInitMsg {| init_storeId := rc_id self;
                          init_jsonFilePath := jsonFilePath self;
                          init_storeFilePath := storeFilePath self;
                          init_componentPath := componentPath self;
                          init_data := data self |});;
      ret self
  end.

Definition emitInlineEditEvent (self : RegisteredContent) (path : string) (value : json)
  : M World unit :=
  postMessage WindowParent
    (EditorInlineUpdateMsg {| upd_storeId := rc_id self;
                              upd_jsonFilePath := jsonFilePath self;
                              upd_componentPath := componentPath self;
                              upd_storeFilePath := storeFilePath self;
                              upd_path := path;
                              upd_value := value |}).

Definition inlineUpdateRegisteredContent (storeId path : string) (value : json)
  : M World unit :=
  registry <- gets registeredContents;;
  match registry !! storeId with
  | None => ret tt
  | Some store => emitInlineEditEvent store path value
  end.

(** ** Sequences of calls of the public API *)

Inductive Call :=
| TrackInteraction (kind : InteractionType) (elementId : option string)
    (payload : option json) (elementType : option string) (duration : option Q)
| StartQuestion (id : string) (type : QuestionType) (text : option string)
| AnswerQuestion (id : string) (given expected : option json) (correct : bool)
    (points maxPoints : Q) (options : option AnswerOptions)
| SkipQuestion (id : string) (type : option QuestionType)
| Complete (points maxPoints : option Q) (additionalData : option json)
| Abandon.

Definition call (c : Call) : M St unit :=
  match c with
  | TrackInteraction kind elementId payload elementType duration =>
      trackInteraction kind elementId payload elementType duration
  | StartQuestion id type text => startQuestion id type text
  | AnswerQuestion id given expected correct points maxPoints options =>
      answerQuestion id given expected correct points maxPoints options
  | SkipQuestion id type => skipQuestion id type
  | Complete points maxPoints additionalData => complete points maxPoints additionalData
  | Abandon => abandon
  end.

(** The store after a sequence of calls, and the stores after each call of
    it. *)
Definition run (calls : list Call) (s : St) : St :=
  fold_left (fun s c => exec (call c) s) calls s.

Fixpoint stores_after (calls : list Call) (s : St) : list St :=
  match calls with
  | [] => []
  | c :: rest => exec (call c) s :: stores_after rest (exec (call c) s)
  end.

(** * Definitions for the statements

    The browser after each step of a method, the events the methods build,
    and the notions the properties speak of. *)

(** ** The browser after a step *)

(** The browser after the two [postMessage] calls of [sendEvent]. *)
Definition channel (event : BlockAnalyticsEvent) (w : World) : World :=
  exec (postMessage Window (Analytics event);;
        postMessage WindowParent (Analytics event)) w.

(** The browser after the guarded call of one listener. *)
Definition notify_one (event : BlockAnalyticsEvent) (sender : EventSenderCallback)
    (w : World) : World :=
  exec (try_catch (call_sender sender event)
                  (fun _ => console_warn "[BlockTracker] Event sender error:")) w.

Definition notify (event : BlockAnalyticsEvent) (senders : list EventSenderCallback)
    (w : World) : World :=
  fold_left (fun w sender => notify_one event sender w) senders w.

(** The clock reading the next [Date.now()] gives, and the browser after
    it. *)
Definition now (w : World) : Z := clock w (clock_reads w).
Definition tick (w : World) : World := exec Date_now w.

(** The browser after [sendEvent], and after a [sendEvent] under
    [if (this.config.sendDetailedEvents)]. *)
Definition sent (event : BlockAnalyticsEvent) (senders : list EventSenderCallback)
    (w : World) : World :=
  notify event senders (channel event w).

Definition emit (detailed : bool) (event : BlockAnalyticsEvent)
    (senders : list EventSenderCallback) (w : World) : World :=
  if detailed then sent event senders w else w.

(** The browser after [persistSession]. *)
Definition stored (cfg : Config) (s : SessionState) (w : World) : World :=
  if persistSessionFlag cfg
  then set_localStorage (<[sessionStorageKey cfg := JSON_stringify s]> (localStorage w)) w
  else w.

(** ** The events the methods build

    Each definition is the object literal of a method, as a function of the
    tracker and of the browser at the entry of the method; the lemmas
    [*_eq] check them against the methods. *)

(** [sendSessionEvent] reads the clock for [timeSpent] only when [data]
    brings none. *)
Definition session_spent (t : BlockTracker) (data : option SessionData) (w : World) : Z :=
  match data ≫= d_timeSpent with
  | Some ms => ms
  | None => now w - startTime (state t)
  end.

Definition session_clock (data : option SessionData) (w : World) : World :=
  match data ≫= d_timeSpent with
  | Some _ => w
  | None => tick w
  end.

Definition sessionEvent (t : BlockTracker) (kind : SessionEventType)
    (data : option SessionData) (w : World) : BlockSessionEvent :=
  {| se_eventType := kind;
     se_blockId := Some (blockId (config t));
     se_slideId := Some (slideId (config t));
     se_courseId := Some (courseId (config t));
     se_sessionId := sessionId (state t);
     se_timestamp := now (session_clock data w);
     summary := sessionSummary (state t) kind data (session_spent t data w);
     details :=
       if SessionEventType_eqb kind SessionCompleted && sendSummaryEvent (config t)
       then Some {| det_interactions := Some (interactions (state t));
                    det_questions := Some (questions (state t));
                    det_slides := Some (slides (state t)) |}
       else None |}.

Definition legacyEvent (points maxPoints : option Q) (spent : option Z)
    (payload : option json) : LegacyBlockCompletionEvent :=
  {| lg_completed := true;
     lg_score := points;
     lg_maxScore := maxPoints;
     lg_timeSpent := spent;
     lg_timestamp := None;
     lg_data := payload |}.

Definition interactionEvent (t : BlockTracker) (w : World) (kind : InteractionType)
    (elementId : option string) (payload : option json) (elementType : option string)
    (duration : option Q) : InteractionEvent :=
  {| ie_interactionType := kind;
     ie_blockId := Some (blockId (config t));
     ie_sessionId := sessionId (state t);
     ie_elementId := elementId;
     ie_elementType := elementType;
     ie_timestamp := now w;
     ie_duration := duration;
     ie_data := payload |}.

Definition startedEvent (t : BlockTracker) (w : World) (id : string)
    (type : QuestionType) (text : option string) : QuestionEvent :=
  {| eventType := QuestionStarted;
     qe_blockId := Some (blockId (config t));
     qe_sessionId := sessionId (state t);
     questionId := id;
     questionType := type;
     questionText := text;
     qe_timestamp := now (tick w);
     timeToAnswer := None;
     answer := None;
     correctAnswer := None;
     isCorrect := None;
     qe_score := None;
     qe_maxScore := None;
     attemptNumber := None;
     hintsUsed := None;
     confidenceLevel := None |}.

(** [answerQuestion] measures the time only for the question that is
    open. *)
Definition timed (t : BlockTracker) (id : string) : bool :=
  strict_eq_string (currentQuestionId (state t)) id
  && truthy_Z (currentQuestionStartTime (state t)).

Definition answer_clock (t : BlockTracker) (id : string) (w : World) : World :=
  if timed t id then tick w else w.

Definition answeredEvent (t : BlockTracker) (w : World) (id : string)
    (given expected : option json) (correct : bool) (points maxPoints : Q)
    (options : option AnswerOptions) : QuestionEvent :=
  {| eventType := QuestionAnswered;
     qe_blockId := Some (blockId (config t));
     qe_sessionId := sessionId (state t);
     questionId := id;
     questionType := nullish (options ≫= o_questionType) multiple_choice;
     questionText := options ≫= o_questionText;
     qe_timestamp := now (answer_clock t id w);
     timeToAnswer :=
       if timed t id
       then Some (now w - nullish (currentQuestionStartTime (state t)) 0)
       else None;
     answer := given;
     correctAnswer := expected;
     isCorrect := Some correct;
     qe_score := Some points;
     qe_maxScore := Some maxPoints;
     attemptNumber := options ≫= o_attemptNumber;
     hintsUsed := options ≫= o_hintsUsed;
     confidenceLevel := None |}.

Definition answered_state (event : QuestionEvent) (correct : bool) (s : SessionState)
  : SessionState :=
  set_currentQuestionStartTime None
    (set_currentQuestionId None
       ((if correct then incr_correctQuestions else fun s => s)
          (incr_totalQuestions (push_question event s)))).

Definition skippedEvent (t : BlockTracker) (w : World) (id : string)
    (type : option QuestionType) : QuestionEvent :=
  {| eventType := QuestionSkipped;
     qe_blockId := Some (blockId (config t));
     qe_sessionId := sessionId (state t);
     questionId := id;
     questionType := nullish type multiple_choice;
     questionText := None;
     qe_timestamp := now w;
     timeToAnswer := None;
     answer := None;
     correctAnswer := None;
     isCorrect := None;
     qe_score := None;
     qe_maxScore := None;
     attemptNumber := None;
     hintsUsed := None;
     confidenceLevel := None |}.

(** ** The end of a session *)

(** The browser after the end of a session: the interval is cleared, and
    [complete] removes the stored record. *)
Definition cleared (handle : option positive) (w : World) : World :=
  match handle with
  | Some h => exec (clearInterval h) w
  | None => w
  end.

Definition forgotten (cfg : Config) (w : World) : World :=
  if persistSessionFlag cfg
  then set_localStorage (delete (sessionStorageKey cfg) (localStorage w)) w
  else w.

Definition completion_data (t : BlockTracker) (w : World) (points maxPoints : option Q)
    (additionalData : option json) : option SessionData :=
  Some {| d_score := points; d_maxScore := maxPoints;
          d_timeSpent := Some (now w - startTime (state t));
          d_additionalData := additionalData |}.

(** ** Emitted events *)

(** [sendEvent] posts an event to the window and to its parent. *)
Definition messages (events : list BlockAnalyticsEvent) : list (Target * Message) :=
  flat_map (fun e => [(Window, Analytics e); (WindowParent, Analytics e)]) events.

(** [z] is what a [Date.now()] gave between the browser [w] and the later
    browser [w']. *)
Definition read_between (w w' : World) (z : Z) : Prop :=
  exists k : nat, (clock_reads w <= k < clock_reads w')%nat /\ z = clock w k.

(** What holds of an event that a method of the tracker [t] builds between
    [w] and [w']. *)
Definition built_by (t : BlockTracker) (w w' : World) (e : BlockAnalyticsEvent) : Prop :=
  match e with
  | BLOCK_SESSION ev =>
      se_sessionId ev = sessionId (state t)
      /\ read_between w w' (se_timestamp ev)
      /\ exists data spent,
           summary ev = sessionSummary (state t) (se_eventType ev) data spent
  | BLOCK_INTERACTION ev =>
      ie_sessionId ev = sessionId (state t) /\ read_between w w' (ie_timestamp ev)
  | BLOCK_QUESTION ev =>
      qe_sessionId ev = sessionId (state t) /\ read_between w w' (qe_timestamp ev)
  | BLOCK_COMPLETION ev => lg_timestamp ev = None
  end.

(** ** Construction and restoration *)

(** The record that restoration accepts: what is stored under the key of
    the tracker is the JSON text of a session of the same block. *)
Definition stored_session (cfg : Config) (w : World) : option SessionState :=
  match localStorage w !! sessionStorageKey cfg with
  | Some (Json (VSession s)) =>
      if decide (st_blockId s = Some (blockId cfg)) then Some s else None
  | _ => None
  end.

(** A session created at the browser [w]. *)
Definition fresh_session (cfg : Config) (w : World) : SessionState :=
  {| sessionId := "session_" +:+ pretty (now w) +:+ "_" +:+ random w (random_reads w);
     st_blockId := Some (blockId cfg);
     startTime := clock w (S (clock_reads w));
     interactions := [];
     questions := [];
     slides := [];
     currentQuestionId := None;
     currentQuestionStartTime := None;
     st_totalInteractions := 0;
     totalQuestions := 0;
     correctQuestions := 0 |}.

Definition with_console (lines : list string) (w : World) : World :=
  {| clock := clock w; clock_reads := clock_reads w;
     random := random w; random_reads := random_reads w;
     localStorage := localStorage w; posted := posted w;
     delivered := delivered w; console := lines;
     intervals := intervals w; next_interval := next_interval w;
     registeredContents := registeredContents w |}.

(** The browser after a session was created: two clock reads, one random
    read. *)
Definition created (w : World) : World :=
  exec (Date_now;; Math_random_id;; Date_now) w.

(** The session [restoreOrCreateSession] gives. *)
Definition initial_session (cfg : Config) (w : World) : SessionState :=
  match (if persistSessionFlag cfg then stored_session cfg w else None) with
  | Some s => s
  | None => fresh_session cfg w
  end.

(** ** Sample inputs *)

(** [new BlockTracker()]: the empty configuration. *)
Definition no_options : BlockTrackerConfig :=
  {| opt_blockId := None; opt_slideId := None; opt_courseId := None;
     opt_trackInteractions := None; opt_trackQuestions := None;
     opt_sendDetailedEvents := None; opt_sendSummaryEvent := None;
     opt_sendLegacyEvent := None; opt_interactionDebounce := None;
     opt_progressUpdateInterval := None; opt_persistSession := None;
     opt_sessionStorageKey := None |}.

(** [{ blockId: 'quiz', persistSession: true }]. *)
Definition persisting : BlockTrackerConfig :=
  {| opt_blockId := Some "quiz"; opt_slideId := None; opt_courseId := None;
     opt_trackInteractions := None; opt_trackQuestions := None;
     opt_sendDetailedEvents := None; opt_sendSummaryEvent := None;
     opt_sendLegacyEvent := None; opt_interactionDebounce := None;
     opt_progressUpdateInterval := None; opt_persistSession := Some true;
     opt_sessionStorageKey := None |}.

(** A page just loaded: empty storage, nothing posted, a clock that
    advances by one millisecond at each reading. *)
Definition blank_page : World :=
  {| clock := fun n => 1000 + Z.of_nat n; clock_reads := 0;
     random := fun _ => "k3j9x2a"; random_reads := 0;
     localStorage := ∅; posted := []; delivered := []; console := [];
     intervals := ∅; next_interval := 1%positive;
     registeredContents := ∅ |}.

(** ** Counters, the open question, the summary *)

Fixpoint count_where {A} (p : A -> bool) (l : list A) : Z :=
  match l with
  | [] => 0
  | x :: rest => (if p x then 1 else 0) + count_where p rest
  end.

(** An answered question event whose [isCorrect] is [true]. *)
Definition answered_correctly (q : QuestionEvent) : bool :=
  is_answered q && match isCorrect q with Some true => true | _ => false end.

(** The invariant of the two question counters. *)
Definition counters_match (s : SessionState) : Prop :=
  totalQuestions s = count_where is_answered (questions s)
  /\ correctQuestions s = count_where answered_correctly (questions s).

(** The store of a tracker built on a page, after a sequence of calls. *)
Definition session_of (c : BlockTrackerConfig) (w : World) (calls : list Call)
  : option St :=
  match new_BlockTracker c w with
  | (Returned t, w') => Some (run calls {| this := t; env := w' |})
  | (Thrown _, _) => None
  end.

(** A question call is recorded when question tracking is on and the
    session is not completed. *)
Definition recording (t : BlockTracker) : bool :=
  trackQuestions (config t) && negb (isCompleted t).

(** [currentQuestionId] and [currentQuestionStartTime] after a call, on a
    tracker [t] and a browser [w]. *)
Definition open_question_after (c : Call) (t : BlockTracker) (w : World)
  : option string * option Z :=
  match c with
  | StartQuestion id _ _ =>
      if recording t then (Some id, Some (now w))
      else (currentQuestionId (state t), currentQuestionStartTime (state t))
  | AnswerQuestion _ _ _ _ _ _ _ =>
      if recording t then (None, None)
      else (currentQuestionId (state t), currentQuestionStartTime (state t))
  | _ => (currentQuestionId (state t), currentQuestionStartTime (state t))
  end.

(** The session events among the posted messages, as the window receives
    them. *)
Definition session_events (w : World) : list BlockSessionEvent :=
  flat_map (fun m => match m with
                     | (Window, Analytics (BLOCK_SESSION ev)) => [ev]
                     | _ => []
                     end) (posted w).

(** [correct / answered], undefined when nothing was answered. *)
Definition accuracy_of (qs : list QuestionEvent) : option Q :=
  let answered := count_where is_answered qs in
  if (answered =? 0)%Z then None
  else Some (Qdiv (inject_Z (count_where answered_correctly qs)) (inject_Z answered)).

(** The sum of the [timeToAnswer] of the answered events, an absent one
    counting for zero. *)
Fixpoint answer_time (qs : list QuestionEvent) : Z :=
  match qs with
  | [] => 0
  | q :: rest =>
      (if is_answered q
       then match timeToAnswer q with Some ms => ms | None => 0 end
       else 0) + answer_time rest
  end.

(** What the code computes: the sum over all answered events, divided by
    their number. *)
Definition average_of (qs : list QuestionEvent) : option Q :=
  let answered := count_where is_answered qs in
  if (answered =? 0)%Z then None
  else Some (Qdiv (inject_Z (answer_time qs)) (inject_Z answered)).

(** What C3 states: the mean over the answered events that have a
    [timeToAnswer], undefined when there is none. *)
Definition has_time (q : QuestionEvent) : bool :=
  is_answered q && match timeToAnswer q with Some _ => true | None => false end.

Definition mean_of_timed (qs : list QuestionEvent) : option Q :=
  let timed := count_where has_time qs in
  if (timed =? 0)%Z then None
  else Some (Qdiv (inject_Z (answer_time qs)) (inject_Z timed)).

(** What an emitted event carries: a legacy completion event has no
    [sessionId]; any other event has the [sessionId] of the session and,
    as [timestamp], a clock reading taken while the emitting method ran. *)
Definition carries (t : BlockTracker) (w w' : World) (e : BlockAnalyticsEvent) : Prop :=
  match e with
  | BLOCK_COMPLETION _ => event_sessionId e = None
  | _ =>
      event_sessionId e = Some (sessionId (state t))
      /\ exists stamp, event_timestamp e = Some stamp /\ read_between w w' stamp
  end.

Definition is_track (c : Call) : bool :=
  match c with
  | TrackInteraction _ _ _ _ _ => true
  | _ => false
  end.

Definition is_complete (c : Call) : bool :=
  match c with
  | Complete _ _ _ => true
  | _ => false
  end.

(** A session with persistence on a blank page, after one recorded
    interaction. *)
Definition recorded_session : St :=
  default {| this := {| config := with_defaults persisting;
                        state := fresh_session (with_defaults persisting) blank_page;
                        isCompleted := false; eventSenders := [];
                        progressTimer := None |};
             env := blank_page |}
          (session_of persisting blank_page
             [TrackInteraction click (Some "submit-button") None None None]).

(** A session on a blank page in which question [q1] is open:
    [new BlockTracker()], then [startQuestion('q1', 'multiple-choice')]. *)
Definition open_question_q1 : St :=
  default {| this := {| config := with_defaults no_options;
                        state := fresh_session (with_defaults no_options) blank_page;
                        isCompleted := false; eventSenders := [];
                        progressTimer := None |};
             env := blank_page |}
          (session_of no_options blank_page [StartQuestion "q1" multiple_choice None]).

(** ** The registry of content stores *)

(** The instance that [new RegisteredContent(dto)] builds. *)
Definition instance_of (dto : RegisteredContentDto) : RegisteredContent :=
  {| rc_id := dto_id dto;
     jsonFilePath := dto_jsonFilePath dto;
     storeFilePath := dto_storeFilePath dto;
     componentPath := dto_componentPath dto;
     data := dto_data dto |}.

(** The [editor:init] message of an instance. *)
Definition announcement (self : RegisteredContent) : Target * Message :=
  (WindowParent,
   EditorInitMsg {| init_storeId := rc_id self;
                    init_jsonFilePath := jsonFilePath self;
                    init_storeFilePath := storeFilePath self;
                    init_componentPath := componentPath self;
                    init_data := data self |}).

Definition features_store : RegisteredContentDto :=
  {| dto_id := "features";
     dto_jsonFilePath := "src/features/featuresStoreData.json";
     dto_storeFilePath := "src/features/featuresStore.tsx";
     dto_componentPath := "src/features/features.tsx";
     dto_data := JObj [("title", JObj [("content", JStr "Features")])] |}.

Definition features_store_again : RegisteredContentDto :=
  {| dto_id := "features";
     dto_jsonFilePath := "src/other/otherStoreData.json";
     dto_storeFilePath := "src/other/otherStore.tsx";
     dto_componentPath := "src/other/other.tsx";
     dto_data := JObj [("title", JObj [("content", JStr "Other")])] |}.

(** * Definitions for the further properties *)

(** ** Histories and counters *)

(** The invariant of the interaction counter. *)
Definition interactions_counted (s : SessionState) : Prop :=
  st_totalInteractions s = Z_length (interactions s).

(** What no call changes in a tracker: its configuration, its listeners,
    its interval handle, and the identity of its session. *)
Definition same_session (t t' : BlockTracker) : Prop :=
  config t' = config t
  /\ eventSenders t' = eventSenders t
  /\ progressTimer t' = progressTimer t
  /\ sessionId (state t') = sessionId (state t)
  /\ st_blockId (state t') = st_blockId (state t)
  /\ startTime (state t') = startTime (state t)
  /\ slides (state t') = slides (state t).

(** The histories only grow. *)
Definition grown (s s' : St) : Prop :=
  (exists more, interactions (state (this s')) = interactions (state (this s)) ++ more)
  /\ (exists more, questions (state (this s')) = questions (state (this s)) ++ more)
  /\ (exists more, posted (env s') = posted (env s) ++ more)
  /\ (exists more, delivered (env s') = delivered (env s) ++ more).

(** What a [trackInteraction] call hands over, and what a recorded
    interaction holds of it: the kind, the element and its type, the
    duration and the data. *)
Record Tracked := {
  tr_interactionType : InteractionType;
  tr_elementId : option string;
  tr_elementType : option string;
  tr_duration : option Q;
  tr_data : option json;
}.

Definition tracked (c : Call) : option Tracked :=
  match c with
  | TrackInteraction kind elementId payload elementType duration =>
      Some {| tr_interactionType := kind;
              tr_elementId := elementId;
              tr_elementType := elementType;
              tr_duration := duration;
              tr_data := payload |}
  | _ => None
  end.

Definition recorded (e : InteractionEvent) : option Tracked :=
  Some {| tr_interactionType := ie_interactionType e;
          tr_elementId := ie_elementId e;
          tr_elementType := ie_elementType e;
          tr_duration := ie_duration e;
          tr_data := ie_data e |}.

(** ** Listeners *)

(** The calls of the listeners [senders] for an event, in order. *)
Definition deliveries (event : BlockAnalyticsEvent) (senders : list EventSenderCallback)
  : list (nat * BlockAnalyticsEvent) :=
  map (fun cb => (cb_id cb, event)) senders.

(** No registered listener is the callback [cb]. *)
Definition unregistered (cb : EventSenderCallback) (t : BlockTracker) : bool :=
  forallb (fun x => negb (Nat.eqb (cb_id x) (cb_id cb))) (eventSenders t).

(** A tracker with one listener that throws on every event and one that
    never throws. *)
Definition faulty_listener : EventSenderCallback :=
  {| cb_id := 1; cb_throws := fun _ => true |}.

Definition sound_listener : EventSenderCallback :=
  {| cb_id := 2; cb_throws := fun _ => false |}.

Definition listening_tracker : BlockTracker :=
  {| config := with_defaults no_options;
     state := fresh_session (with_defaults no_options) blank_page;
     isCompleted := false;
     eventSenders := [faulty_listener];
     progressTimer := None |}.

(** ** Persistence *)

(** The guard of a call lets it through: the call records an event. *)
Definition records (c : Call) (t : BlockTracker) : bool :=
  match c with
  | TrackInteraction _ _ _ _ _ => trackInteractions (config t) && negb (isCompleted t)
  | StartQuestion _ _ _ | AnswerQuestion _ _ _ _ _ _ _ | SkipQuestion _ _ =>
      trackQuestions (config t) && negb (isCompleted t)
  | Complete _ _ _ | Abandon => false
  end.

(** The record in storage is the state of the tracker. *)
Definition synced (s : St) : Prop :=
  localStorage (env s) !! sessionStorageKey (config (this s))
  = Some (JSON_stringify (state (this s))).

(** The interval of the tracker is set in the browser. *)
Definition interval_live (s : St) : bool :=
  match progressTimer (this s) with
  | Some handle => bool_decide (handle ∈ intervals (env s))
  | None => false
  end.

(** ** The order of the emitted events *)

(** An event of an interaction or of a question. *)
Definition is_detail (e : BlockAnalyticsEvent) : bool :=
  match e with
  | BLOCK_INTERACTION _ | BLOCK_QUESTION _ => true
  | _ => false
  end.

(** The events that end a session: nothing, or a [completed] or
    [abandoned] session event, or a [completed] session event followed by
    a legacy completion event. *)
Definition is_ending (events : list BlockAnalyticsEvent) : bool :=
  match events with
  | [] => true
  | [BLOCK_SESSION ev] => negb (SessionEventType_eqb (se_eventType ev) SessionStarted)
  | [BLOCK_SESSION ev; BLOCK_COMPLETION _] =>
      SessionEventType_eqb (se_eventType ev) SessionCompleted
  | _ => false
  end.

(** ** The counts of the summary *)

(** An answered question event that is not correct: [isCorrect] is [false]
    or absent. *)
Definition answered_incorrectly (q : QuestionEvent) : bool :=
  is_answered q && negb (is_correct q).

(** The sum of [hintsUsed] over all the question events, an absent one
    counting for zero. *)
Fixpoint hints_sum (qs : list QuestionEvent) : Q :=
  match qs with
  | [] => 0%Q
  | q :: rest =>
      (match hintsUsed q with Some h => h | None => 0%Q end + hints_sum rest)%Q
  end.

(** An event posted by a constructor or a call has a property of the
    summaries, relative to the question events of the session. *)
Definition summary_has (P : list QuestionEvent -> SessionSummary -> Prop)
    (qs : list QuestionEvent) (e : BlockAnalyticsEvent) : Prop :=
  match e with
  | BLOCK_SESSION ev => P qs (summary ev)
  | _ => True
  end.

(** The counts of a summary partition the attempted questions. *)
Definition counts_partition (qs : list QuestionEvent) (m : SessionSummary) : Prop :=
  questionsCorrect m = Some (count_where answered_correctly qs)
  /\ questionsIncorrect m = Some (count_where answered_incorrectly qs)
  /\ questionsSkipped m = Some (count_where is_skipped qs)
  /\ questionsAttempted m
     = Some (count_where answered_correctly qs + count_where answered_incorrectly qs
             + count_where is_skipped qs)
  /\ count_where answered_correctly qs + count_where answered_incorrectly qs
     = count_where is_answered qs
  /\ count_where answered_correctly qs + count_where answered_incorrectly qs
     + count_where is_skipped qs <= Z_length qs.

(** The accuracy, when there is one, is a fraction. *)
Definition accuracy_is_fraction (qs : list QuestionEvent) (m : SessionSummary) : Prop :=
  match accuracyRate m with
  | Some r => (0 <= r)%Q /\ (r <= 1)%Q /\ 0 < count_where is_answered qs
  | None => count_where is_answered qs = 0
  end.

(** The total of the hints. *)
Definition hints_are_summed (qs : list QuestionEvent) (m : SessionSummary) : Prop :=
  exists total, hintsUsedTotal m = Some total /\ (total == hints_sum qs)%Q.

(** A whole number that is not negative. *)
Definition whole_count (h : Q) : bool :=
  (Qnum h mod Z.pos (Qden h) =? 0)%Z && (0 <=? Qnum h)%Z.

(** The hints of the question events are counts, as the comment on
    [hintsUsed] in [QuestionEvent] says ("Number of hints used"), and
    their sum is at most [2^53]: the additions of the source, which are
    those of floating-point numbers, are then exact. *)
Definition hints_are_counts (qs : list QuestionEvent) : bool :=
  forallb (fun q => match hintsUsed q with
                    | Some h => whole_count h
                    | None => true
                    end) qs
  && Qle_bool (hints_sum qs) (inject_Z (2 ^ 53)).

(** A session on a blank page with two answers, for which one hint and
    two hints were used, and a skipped question. *)
Definition hinted_session : St :=
  default {| this := {| config := with_defaults no_options;
                        state := fresh_session (with_defaults no_options) blank_page;
                        isCompleted := false; eventSenders := [];
                        progressTimer := None |};
             env := blank_page |}
          (session_of no_options blank_page
             [AnswerQuestion "q1" (Some (JStr "A")) (Some (JStr "A")) true 1 1
                (Some {| o_questionType := None; o_questionText := None;
                         o_attemptNumber := None; o_hintsUsed := Some 1%Q |});
              AnswerQuestion "q2" (Some (JStr "B")) (Some (JStr "A")) false 0 1
                (Some {| o_questionType := None; o_questionText := None;
                         o_attemptNumber := None; o_hintsUsed := Some 2%Q |});
              SkipQuestion "q3" None]).

(** ** The shape of the recorded events *)

(** A question event as the tracker of configuration [cfg] and session
    [sid] records it: it names the session and the block; a started or a
    skipped event carries no answer data; an answered event carries the
    verdict and the scores; no event is a [reviewed] one. *)
Definition question_recorded (cfg : Config) (sid : string) (q : QuestionEvent) : Prop :=
  qe_sessionId q = sid
  /\ qe_blockId q = Some (blockId cfg)
  /\ confidenceLevel q = None
  /\ match eventType q with
     | QuestionAnswered =>
         is_Some (isCorrect q) /\ is_Some (qe_score q) /\ is_Some (qe_maxScore q)
     | QuestionStarted | QuestionSkipped =>
         timeToAnswer q = None /\ answer q = None /\ correctAnswer q = None
         /\ isCorrect q = None /\ qe_score q = None /\ qe_maxScore q = None
         /\ attemptNumber q = None /\ hintsUsed q = None
     | QuestionReviewed => False
     end.

Definition interaction_recorded (cfg : Config) (sid : string) (i : InteractionEvent)
  : Prop :=
  ie_sessionId i = sid /\ ie_blockId i = Some (blockId cfg).

Definition well_recorded (cfg : Config) (sid : string) (s : SessionState) : Prop :=
  Forall (question_recorded cfg sid) (questions s)
  /\ Forall (interaction_recorded cfg sid) (interactions s)
  /\ slides s = [].

(** What a question call hands over, and what a recorded question event
    holds of it: all the fields but the session, the block and the two
    times. *)
Record Asked := {
  as_eventType : QuestionEventType;
  as_questionId : string;
  as_questionType : QuestionType;
  as_questionText : option string;
  as_answer : option json;
  as_correctAnswer : option json;
  as_isCorrect : option bool;
  as_score : option Q;
  as_maxScore : option Q;
  as_attemptNumber : option Q;
  as_hintsUsed : option Q;
}.

Definition asked (c : Call) : list Asked :=
  match c with
  | StartQuestion id type text =>
      [{| as_eventType := QuestionStarted;
          as_questionId := id;
          as_questionType := type;
          as_questionText := text;
          as_answer := None;
          as_correctAnswer := None;
          as_isCorrect := None;
          as_score := None;
          as_maxScore := None;
          as_attemptNumber := None;
          as_hintsUsed := None |}]
  | AnswerQuestion id given expected correct points maxPoints options =>
      [{| as_eventType := QuestionAnswered;
          as_questionId := id;
          as_questionType :=
            match options ≫= o_questionType with
            | Some type => type
            | None => multiple_choice
            end;
          as_questionText := options ≫= o_questionText;
          as_answer := given;
          as_correctAnswer := expected;
          as_isCorrect := Some correct;
          as_score := Some points;
          as_maxScore := Some maxPoints;
          as_attemptNumber := options ≫= o_attemptNumber;
          as_hintsUsed := options ≫= o_hintsUsed |}]
  | SkipQuestion id type =>
      [{| as_eventType := QuestionSkipped;
          as_questionId := id;
          as_questionType :=
            match type with
            | Some type => type
            | None => multiple_choice
            end;
          as_questionText := None;
          as_answer := None;
          as_correctAnswer := None;
          as_isCorrect := None;
          as_score := None;
          as_maxScore := None;
          as_attemptNumber := None;
          as_hintsUsed := None |}]
  | TrackInteraction _ _ _ _ _ | Complete _ _ _ | Abandon => []
  end.

Definition held (q : QuestionEvent) : Asked :=
  {| as_eventType := eventType q;
     as_questionId := questionId q;
     as_questionType := questionType q;
     as_questionText := questionText q;
     as_answer := answer q;
     as_correctAnswer := correctAnswer q;
     as_isCorrect := isCorrect q;
     as_score := qe_score q;
     as_maxScore := qe_maxScore q;
     as_attemptNumber := attemptNumber q;
     as_hintsUsed := hintsUsed q |}.

(** A call that does not end the session. *)
Definition keeps_open (c : Call) : bool :=
  match c with
  | Complete _ _ _ | Abandon => false
  | _ => true
  end.

(** ** The time to answer *)

(** The clock reading of the [k]-th [Date.now()] from the browser [w]
    on. *)
Definition reading (w : World) (k : nat) : Z := clock w (clock_reads w + k).

(** The time that [answerQuestion] measures from a start time. *)
Definition measured (start answered : Z) : option Z :=
  if Z.eqb start 0 then None else Some (answered - start).

(** The last question event of a store. *)
Definition last_question (s : St) : option QuestionEvent :=
  last (questions (state (this s))).

(** ** Storage keys *)

(** [{ blockId: 'poll', persistSession: true }]. *)
Definition persisting_poll : BlockTrackerConfig :=
  {| opt_blockId := Some "poll"; opt_slideId := None; opt_courseId := None;
     opt_trackInteractions := None; opt_trackQuestions := None;
     opt_sendDetailedEvents := None; opt_sendSummaryEvent := None;
     opt_sendLegacyEvent := None; opt_interactionDebounce := None;
     opt_progressUpdateInterval := None; opt_persistSession := Some true;
     opt_sessionStorageKey := None |}.

(** ** Content stores *)

(** The [editor:inline-update] message of an instance for a path and a
    value. *)
Definition update_of (self : RegisteredContent) (path : string) (value : json)
  : Target * Message :=
  (WindowParent,
   EditorInlineUpdateMsg {| upd_storeId := rc_id self;
                            upd_jsonFilePath := jsonFilePath self;
                            upd_componentPath := componentPath self;
                            upd_storeFilePath := storeFilePath self;
                            upd_path := path;
                            upd_value := value |}).

(** The modules of a page construct their stores one after the other. *)
Definition construct_all (dtos : list RegisteredContentDto) : M World unit :=
  forEach dtos (fun dto => _ <- new_RegisteredContent dto;; ret tt).

(** The stores of a list that are the first of their id, for ids not seen
    before. *)
Fixpoint newly_registered (seen : gset string) (dtos : list RegisteredContentDto)
  : list RegisteredContentDto :=
  match dtos with
  | [] => []
  | dto :: rest =>
      if bool_decide (dto_id dto ∈ seen) then newly_registered seen rest
      else dto :: newly_registered ({[dto_id dto]} ∪ seen) rest
  end.

(** ** Counters across reloads *)

(** Both counters of a session agree with its events. *)
Definition consistent (s : SessionState) : Prop :=
  counters_match s /\ interactions_counted s.

(** The record that a tracker with persistence would restore is
    consistent. *)
Definition storage_consistent (s : St) : Prop :=
  persistSessionFlag (config (this s)) = true ->
  forall r, stored_session (config (this s)) (env s) = Some r -> consistent r.

(** ** Construction on a foreign or damaged record *)

(** The warnings of a restoration: one, when the stored text is not JSON
    or is the JSON text [null]. *)
Definition restore_warnings (cfg : Config) (w : World) : list string :=
  if persistSessionFlag cfg then
    match localStorage w !! sessionStorageKey cfg with
    | Some (Malformed text) =>
        if String.eqb text "" then []
        else ["[BlockTracker] Failed to restore session:"]
    | Some (Json VNull) => ["[BlockTracker] Failed to restore session:"]
    | _ => []
    end
  else [].

(** A page on which an earlier script left a text that is no JSON under
    the key of the block [quiz]. *)
Definition page_with_garbage : World :=
  set_localStorage (<["blockTracker_quiz" := Malformed "{oops"]> ∅) blank_page.

(** ** Further sample inputs *)

(** [{ sendDetailedEvents: false, progressUpdateInterval: 0 }]: session
    events only, and no interval. *)
Definition summary_only : BlockTrackerConfig :=
  {| opt_blockId := None; opt_slideId := None; opt_courseId := None;
     opt_trackInteractions := None; opt_trackQuestions := None;
     opt_sendDetailedEvents := Some false; opt_sendSummaryEvent := None;
     opt_sendLegacyEvent := None; opt_interactionDebounce := None;
     opt_progressUpdateInterval := Some 0; opt_persistSession := None;
     opt_sessionStorageKey := None |}.

(** A tracker with that configuration, as the constructor leaves it. *)
Definition summary_only_tracker : BlockTracker :=
  {| config := with_defaults summary_only;
     state := fresh_session (with_defaults summary_only) blank_page;
     isCompleted := false;
     eventSenders := [];
     progressTimer := None |}.

(** A page on which the store [features] is registered. *)
Definition page_with_features : World :=
  exec (new_RegisteredContent features_store) blank_page.

(** * Properties *)

(** ** What [sendEvent] does to the browser *)

Arguments sendEvent : simpl never.

Lemma forEach_senders event senders t w :
  forEach senders (fun sender =>
    try_catch (in_env (call_sender sender event))
              (fun _ => in_env (console_warn "[BlockTracker] Event sender error:")))
    {| this := t; env := w |}
  = (Returned tt, {| this := t; env := notify event senders w |}).
Proof.
  revert w. induction senders as [|cb rest IH]; intros w; [reflexivity|].
  cbn [forEach notify fold_left]. unfold bind at 1.
  assert (Hone :
    try_catch (in_env (call_sender cb event))
      (fun _ => in_env (console_warn "[BlockTracker] Event sender error:"))
      {| this := t; env := w |}
    = (Returned tt, {| this := t; env := notify_one event cb w |})).
  { unfold notify_one, try_catch, in_env, call_sender, exec, bind, modify, throw, ret,
      console_warn. cbn. destruct (cb_throws cb event); reflexivity. }
  rewrite Hone. apply IH.
Qed.

Lemma sendEvent_eq event t w :
  sendEvent event {| this := t; env := w |}
  = (Returned tt,
     {| this := t; env := notify event (eventSenders t) (channel event w) |}).
Proof.
  unfold sendEvent. unfold bind at 1. unfold try_catch at 1.
  cbn -[forEach]. unfold bind, gets. cbn -[forEach].
  apply forEach_senders.
Qed.

(** [notify] leaves every part of the browser but the call log and the
    console as it is. *)
Section NotifyFrame.
Variable event : BlockAnalyticsEvent.

Lemma notify_frame {A} (field : World -> A) :
  (forall cb w, field (notify_one event cb w) = field w) ->
  forall senders w, field (notify event senders w) = field w.
Proof.
  intros Hone senders. unfold notify.
  induction senders as [|cb rest IH]; intros w; [reflexivity|].
  cbn [fold_left]. rewrite IH. apply Hone.
Qed.

Lemma notify_one_delivered cb w :
  delivered (notify_one event cb w) = delivered w ++ [(cb_id cb, event)].
Proof.
  unfold notify_one, exec, try_catch, call_sender, bind, modify, throw, ret, console_warn.
  cbn. destruct (cb_throws cb event); reflexivity.
Qed.

Lemma notify_delivered senders w :
  delivered (notify event senders w)
  = delivered w ++ map (fun cb => (cb_id cb, event)) senders.
Proof.
  unfold notify. revert w.
  induction senders as [|cb rest IH]; intros w; cbn [fold_left map].
  - symmetry. apply app_nil_r.
  - rewrite IH, notify_one_delivered, <- app_assoc. reflexivity.
Qed.

Ltac one_frame :=
  apply notify_frame; intros cb w;
  unfold notify_one, exec, try_catch, call_sender, bind, modify, throw, ret, console_warn;
  cbn; destruct (cb_throws cb event); reflexivity.

Lemma notify_posted senders w : posted (notify event senders w) = posted w.
Proof. revert senders w. one_frame. Qed.

Lemma notify_localStorage senders w :
  localStorage (notify event senders w) = localStorage w.
Proof. revert senders w. one_frame. Qed.

Lemma notify_clock senders w : clock (notify event senders w) = clock w.
Proof. revert senders w. one_frame. Qed.

Lemma notify_clock_reads senders w :
  clock_reads (notify event senders w) = clock_reads w.
Proof. revert senders w. one_frame. Qed.

Lemma notify_random senders w : random (notify event senders w) = random w.
Proof. revert senders w. one_frame. Qed.

Lemma notify_random_reads senders w :
  random_reads (notify event senders w) = random_reads w.
Proof. revert senders w. one_frame. Qed.

Lemma notify_intervals senders w :
  intervals (notify event senders w) = intervals w.
Proof. revert senders w. one_frame. Qed.

Lemma notify_registeredContents senders w :
  registeredContents (notify event senders w) = registeredContents w.
Proof. revert senders w. one_frame. Qed.
End NotifyFrame.

Create Rewrite HintDb browser.
#[global] Hint Rewrite notify_delivered notify_posted notify_localStorage notify_clock
  notify_clock_reads notify_random notify_random_reads notify_intervals
  notify_registeredContents : browser.

Arguments notify : simpl never.
Arguments channel : simpl never.
Arguments sent : simpl never.
Arguments tick : simpl never.
Arguments now : simpl never.

Lemma persistSession_eq t w :
  persistSession {| this := t; env := w |}
  = (Returned tt, {| this := t; env := stored (config t) (state t) w |}).
Proof.
  unfold persistSession, stored, bind, gets. cbn [this].
  destruct (persistSessionFlag (config t)); reflexivity.
Qed.

Arguments persistSession : simpl never.

Lemma set_state_twice s1 s2 t : set_state s2 (set_state s1 t) = set_state s2 t.
Proof. reflexivity. Qed.

(** ** Closed forms of the methods *)

Lemma sendSessionEvent_eq kind data t w :
  sendSessionEvent kind data {| this := t; env := w |}
  = (Returned tt,
     {| this := t;
        env := sent (BLOCK_SESSION (sessionEvent t kind data w)) (eventSenders t)
                    (tick (session_clock data w)) |}).
Proof.
  unfold sendSessionEvent, sessionEvent, session_spent, session_clock.
  unfold bind at 1. cbn [gets this].
  destruct (data ≫= d_timeSpent) as [ms|]; cbn -[sendEvent sessionSummary];
    rewrite sendEvent_eq; reflexivity.
Qed.

Lemma sendLegacyCompletion_eq points maxPoints spent payload t w :
  sendLegacyCompletion points maxPoints spent payload {| this := t; env := w |}
  = (Returned tt,
     {| this := t;
        env := sent (BLOCK_COMPLETION (legacyEvent points maxPoints spent payload))
                    (eventSenders t) w |}).
Proof. unfold sendLegacyCompletion. rewrite sendEvent_eq. reflexivity. Qed.

Arguments sendSessionEvent : simpl never.
Arguments sendLegacyCompletion : simpl never.

Lemma trackInteraction_eq kind elementId payload elementType duration t w :
  trackInteractions (config t) = true -> isCompleted t = false ->
  let event := interactionEvent t w kind elementId payload elementType duration in
  let s' := incr_totalInteractions (push_interaction event (state t)) in
  trackInteraction kind elementId payload elementType duration {| this := t; env := w |}
  = (Returned tt,
     {| this := set_state s' t;
        env := stored (config t) s'
                 (emit (sendDetailedEvents (config t)) (BLOCK_INTERACTION event)
                       (eventSenders t) (tick w)) |}).
Proof.
  intros Htrack Hactive. unfold trackInteraction, emit, interactionEvent.
  unfold bind at 1. cbn [gets this]. rewrite Htrack, Hactive. cbn [negb orb].
  cbn -[sendEvent persistSession].
  destruct (sendDetailedEvents (config t)); unfold bind;
    rewrite ?sendEvent_eq; cbn -[persistSession]; rewrite persistSession_eq; reflexivity.
Qed.

Lemma startQuestion_eq id type text t w :
  trackQuestions (config t) = true -> isCompleted t = false ->
  let event := startedEvent t w id type text in
  let s' := push_question event
              (set_currentQuestionStartTime (Some (now w))
                 (set_currentQuestionId (Some id) (state t))) in
  startQuestion id type text {| this := t; env := w |}
  = (Returned tt,
     {| this := set_state s' t;
        env := stored (config t) s'
                 (emit (sendDetailedEvents (config t)) (BLOCK_QUESTION event)
                       (eventSenders t) (tick (tick w))) |}).
Proof.
  intros Htrack Hactive. unfold startQuestion, emit, startedEvent.
  unfold bind at 1. cbn [gets this]. rewrite Htrack, Hactive. cbn [negb orb].
  cbn -[sendEvent persistSession].
  destruct (sendDetailedEvents (config t)); unfold bind;
    rewrite ?sendEvent_eq; cbn -[persistSession]; rewrite persistSession_eq; reflexivity.
Qed.

Lemma answerQuestion_eq id given expected correct points maxPoints options t w :
  trackQuestions (config t) = true -> isCompleted t = false ->
  let event := answeredEvent t w id given expected correct points maxPoints options in
  let s' := answered_state event correct (state t) in
  answerQuestion id given expected correct points maxPoints options
    {| this := t; env := w |}
  = (Returned tt,
     {| this := set_state s' t;
        env := stored (config t) s'
                 (emit (sendDetailedEvents (config t)) (BLOCK_QUESTION event)
                       (eventSenders t) (tick (answer_clock t id w))) |}).
Proof.
  intros Htrack Hactive.
  unfold answerQuestion, emit, answeredEvent, answered_state, answer_clock, timed.
  unfold bind at 1. cbn [gets this]. rewrite Htrack, Hactive. cbn [negb orb].
  destruct (strict_eq_string (currentQuestionId (state t)) id
            && truthy_Z (currentQuestionStartTime (state t)));
    destruct correct; cbn -[sendEvent persistSession];
    destruct (sendDetailedEvents (config t)); unfold bind;
    rewrite ?sendEvent_eq; cbn -[persistSession]; rewrite persistSession_eq; reflexivity.
Qed.

Lemma skipQuestion_eq id type t w :
  trackQuestions (config t) = true -> isCompleted t = false ->
  let event := skippedEvent t w id type in
  let s' := push_question event (state t) in
  skipQuestion id type {| this := t; env := w |}
  = (Returned tt,
     {| this := set_state s' t;
        env := stored (config t) s'
                 (emit (sendDetailedEvents (config t)) (BLOCK_QUESTION event)
                       (eventSenders t) (tick w)) |}).
Proof.
  intros Htrack Hactive. unfold skipQuestion, emit, skippedEvent.
  unfold bind at 1. cbn [gets this]. rewrite Htrack, Hactive. cbn [negb orb].
  cbn -[sendEvent persistSession].
  destruct (sendDetailedEvents (config t)); unfold bind;
    rewrite ?sendEvent_eq; cbn -[persistSession]; rewrite persistSession_eq; reflexivity.
Qed.

Lemma clearPersistedSession_eq t w :
  clearPersistedSession {| this := t; env := w |}
  = (Returned tt, {| this := t; env := forgotten (config t) w |}).
Proof.
  unfold clearPersistedSession, forgotten, bind, gets. cbn [this].
  destruct (persistSessionFlag (config t)); reflexivity.
Qed.

Lemma forgotten_when cfg w :
  (if persistSessionFlag cfg then forgotten cfg w else w) = forgotten cfg w.
Proof. unfold forgotten. destruct (persistSessionFlag cfg); reflexivity. Qed.

Arguments clearPersistedSession : simpl never.

Lemma complete_eq points maxPoints additionalData t w :
  isCompleted t = false ->
  let t' := set_isCompleted true t in
  let data := completion_data t w points maxPoints additionalData in
  let session := BLOCK_SESSION (sessionEvent t' SessionCompleted data (tick w)) in
  let legacy :=
    BLOCK_COMPLETION (legacyEvent points maxPoints (Some (now w - startTime (state t)))
                                  additionalData) in
  complete points maxPoints additionalData {| this := t; env := w |}
  = (Returned tt,
     {| this := t';
        env := forgotten (config t)
                 (cleared (progressTimer t)
                    (emit (sendLegacyEvent (config t)) legacy (eventSenders t)
                       (sent session (eventSenders t) (tick (tick w))))) |}).
Proof.
  intros Hactive. unfold complete, emit, cleared, completion_data.
  unfold bind at 1. cbn [gets this]. rewrite Hactive.
  unfold bind at 1. cbn [assign_this modify].
  unfold bind at 1. cbn [in_env Date_now env this].
  unfold bind at 1. rewrite sendSessionEvent_eq.
  rewrite <- (forgotten_when (config t)).
  destruct (sendLegacyEvent (config t)); unfold bind at 1;
    rewrite ?sendLegacyCompletion_eq; cbn [ret];
    (destruct (progressTimer t); unfold bind; cbn [in_env clearInterval modify env this ret];
     destruct (persistSessionFlag (config t)); rewrite ?clearPersistedSession_eq;
     reflexivity).
Qed.

Lemma abandon_eq t w :
  isCompleted t = false ->
  let t' := set_isCompleted true t in
  let data := completion_data t w None None None in
  let session := BLOCK_SESSION (sessionEvent t' SessionAbandoned data (tick w)) in
  abandon {| this := t; env := w |}
  = (Returned tt,
     {| this := t';
        env := cleared (progressTimer t)
                 (sent session (eventSenders t) (tick (tick w))) |}).
Proof.
  intros Hactive. unfold abandon, cleared, completion_data.
  unfold bind at 1. cbn [gets this]. rewrite Hactive.
  cbn -[sendSessionEvent clearInterval].
  unfold bind at 1. rewrite sendSessionEvent_eq.
  destruct (progressTimer t); reflexivity.
Qed.

(** ** Guarded calls *)

Lemma trackInteraction_skip kind elementId payload elementType duration s :
  negb (trackInteractions (config (this s))) || isCompleted (this s) = true ->
  trackInteraction kind elementId payload elementType duration s = (Returned tt, s).
Proof. intros H. unfold trackInteraction, bind, gets. rewrite H. reflexivity. Qed.

Lemma startQuestion_skip id type text s :
  negb (trackQuestions (config (this s))) || isCompleted (this s) = true ->
  startQuestion id type text s = (Returned tt, s).
Proof. intros H. unfold startQuestion, bind, gets. rewrite H. reflexivity. Qed.

Lemma answerQuestion_skip id given expected correct points maxPoints options s :
  negb (trackQuestions (config (this s))) || isCompleted (this s) = true ->
  answerQuestion id given expected correct points maxPoints options s = (Returned tt, s).
Proof. intros H. unfold answerQuestion, bind, gets. rewrite H. reflexivity. Qed.

Lemma skipQuestion_skip id type s :
  negb (trackQuestions (config (this s))) || isCompleted (this s) = true ->
  skipQuestion id type s = (Returned tt, s).
Proof. intros H. unfold skipQuestion, bind, gets. rewrite H. reflexivity. Qed.

Lemma complete_skip points maxPoints additionalData s :
  isCompleted (this s) = true ->
  complete points maxPoints additionalData s = (Returned tt, s).
Proof. intros H. unfold complete, bind, gets. rewrite H. reflexivity. Qed.

Lemma abandon_skip s :
  isCompleted (this s) = true -> abandon s = (Returned tt, s).
Proof. intros H. unfold abandon, bind, gets. rewrite H. reflexivity. Qed.

Lemma call_completed c s :
  isCompleted (this s) = true -> call c s = (Returned tt, s).
Proof.
  intros H. destruct c; cbn [call].
  - apply trackInteraction_skip. rewrite H. apply orb_true_r.
  - apply startQuestion_skip. rewrite H. apply orb_true_r.
  - apply answerQuestion_skip. rewrite H. apply orb_true_r.
  - apply skipQuestion_skip. rewrite H. apply orb_true_r.
  - apply complete_skip, H.
  - apply abandon_skip, H.
Qed.

Lemma run_completed calls s :
  isCompleted (this s) = true -> run calls s = s.
Proof.
  intros H. unfold run. induction calls as [|c rest IH]; [reflexivity|].
  cbn [fold_left]. unfold exec at 2. rewrite (call_completed c s H). exact IH.
Qed.

Lemma complete_isCompleted points maxPoints additionalData s :
  isCompleted (this (exec (complete points maxPoints additionalData) s)) = true.
Proof.
  destruct (isCompleted (this s)) eqn:H; unfold exec.
  - rewrite complete_skip by exact H. exact H.
  - destruct s as [t w]. rewrite complete_eq by exact H. reflexivity.
Qed.

Lemma abandon_isCompleted s : isCompleted (this (exec abandon s)) = true.
Proof.
  destruct (isCompleted (this s)) eqn:H; unfold exec.
  - rewrite abandon_skip by exact H. exact H.
  - destruct s as [t w]. rewrite abandon_eq by exact H. reflexivity.
Qed.

(** C2.  Completed and abandoned sessions are terminal.  Whatever the store
    [s] of a tracker, after [complete(...)] and after [abandon()] the
    tracker is marked completed, each of the six mutating calls returns and
    leaves the whole store as it is (the tracker, the storage, the posted
    messages and the listener calls), and so does every sequence of them.
    A second [complete], [abandon] after [complete] and [complete] after
    [abandon] are instances. *)
Theorem terminal_sessions_absorb
    (s : St) (points maxPoints : option Q) (additionalData : option json) :
  let done := exec (complete points maxPoints additionalData) s in
  let left := exec abandon s in
  (isCompleted (this done) = true /\ isCompleted (this left) = true)
  /\ (forall c, call c done = (Returned tt, done))
  /\ (forall c, call c left = (Returned tt, left))
  /\ (forall calls, run calls done = done)
  /\ (forall calls, run calls left = left).
Proof.
  intros done left.
  pose proof (complete_isCompleted points maxPoints additionalData s) as Hdone.
  pose proof (abandon_isCompleted s) as Hleft.
  repeat split; try assumption; intros.
  - apply call_completed, Hdone.
  - apply call_completed, Hleft.
  - apply run_completed, Hdone.
  - apply run_completed, Hleft.
Qed.

(** ** Listener failures *)

Lemma channel_posted event w :
  posted (channel event w)
  = posted w ++ [(Window, Analytics event); (WindowParent, Analytics event)].
Proof. unfold channel, exec, bind, postMessage, modify. cbn. rewrite <- app_assoc. reflexivity. Qed.

Lemma channel_delivered event w : delivered (channel event w) = delivered w.
Proof. reflexivity. Qed.

Lemma channel_localStorage event w : localStorage (channel event w) = localStorage w.
Proof. reflexivity. Qed.

Lemma sent_posted event senders w :
  posted (sent event senders w)
  = posted w ++ [(Window, Analytics event); (WindowParent, Analytics event)].
Proof. unfold sent. rewrite notify_posted. apply channel_posted. Qed.

Lemma sent_delivered event senders w :
  delivered (sent event senders w)
  = delivered w ++ map (fun cb => (cb_id cb, event)) senders.
Proof. unfold sent. rewrite notify_delivered. reflexivity. Qed.

Lemma sent_localStorage event senders w :
  localStorage (sent event senders w) = localStorage w.
Proof. unfold sent. rewrite notify_localStorage. reflexivity. Qed.

(** ** What a call posts, reads and stores *)

Lemma sent_clock event senders w : clock (sent event senders w) = clock w.
Proof. unfold sent. rewrite notify_clock. reflexivity. Qed.

Lemma sent_clock_reads event senders w :
  clock_reads (sent event senders w) = clock_reads w.
Proof. unfold sent. rewrite notify_clock_reads. reflexivity. Qed.

Lemma emit_posted detailed event senders w :
  posted (emit detailed event senders w)
  = posted w ++ (if detailed
                 then [(Window, Analytics event); (WindowParent, Analytics event)]
                 else []).
Proof.
  unfold emit. destruct detailed; [apply sent_posted | symmetry; apply app_nil_r].
Qed.

Lemma emit_clock detailed event senders w :
  clock (emit detailed event senders w) = clock w.
Proof. unfold emit. destruct detailed; [apply sent_clock | reflexivity]. Qed.

Lemma emit_clock_reads detailed event senders w :
  clock_reads (emit detailed event senders w) = clock_reads w.
Proof. unfold emit. destruct detailed; [apply sent_clock_reads | reflexivity]. Qed.

Lemma emit_localStorage detailed event senders w :
  localStorage (emit detailed event senders w) = localStorage w.
Proof. unfold emit. destruct detailed; [apply sent_localStorage | reflexivity]. Qed.

Lemma stored_posted cfg s w : posted (stored cfg s w) = posted w.
Proof. unfold stored. destruct (persistSessionFlag cfg); reflexivity. Qed.

Lemma stored_clock cfg s w : clock (stored cfg s w) = clock w.
Proof. unfold stored. destruct (persistSessionFlag cfg); reflexivity. Qed.

Lemma stored_clock_reads cfg s w : clock_reads (stored cfg s w) = clock_reads w.
Proof. unfold stored. destruct (persistSessionFlag cfg); reflexivity. Qed.

Lemma stored_localStorage cfg s w :
  localStorage (stored cfg s w)
  = if persistSessionFlag cfg
    then <[sessionStorageKey cfg := JSON_stringify s]> (localStorage w)
    else localStorage w.
Proof. unfold stored. destruct (persistSessionFlag cfg); reflexivity. Qed.

Lemma tick_posted w : posted (tick w) = posted w.
Proof. reflexivity. Qed.

Lemma tick_clock w : clock (tick w) = clock w.
Proof. reflexivity. Qed.

Lemma tick_clock_reads w : clock_reads (tick w) = S (clock_reads w).
Proof. reflexivity. Qed.

Lemma tick_localStorage w : localStorage (tick w) = localStorage w.
Proof. reflexivity. Qed.

Lemma cleared_posted handle w : posted (cleared handle w) = posted w.
Proof. destruct handle; reflexivity. Qed.

Lemma cleared_clock handle w : clock (cleared handle w) = clock w.
Proof. destruct handle; reflexivity. Qed.

Lemma cleared_clock_reads handle w : clock_reads (cleared handle w) = clock_reads w.
Proof. destruct handle; reflexivity. Qed.

Lemma cleared_localStorage handle w : localStorage (cleared handle w) = localStorage w.
Proof. destruct handle; reflexivity. Qed.

Lemma forgotten_posted cfg w : posted (forgotten cfg w) = posted w.
Proof. unfold forgotten. destruct (persistSessionFlag cfg); reflexivity. Qed.

Lemma forgotten_clock cfg w : clock (forgotten cfg w) = clock w.
Proof. unfold forgotten. destruct (persistSessionFlag cfg); reflexivity. Qed.

Lemma forgotten_clock_reads cfg w : clock_reads (forgotten cfg w) = clock_reads w.
Proof. unfold forgotten. destruct (persistSessionFlag cfg); reflexivity. Qed.

Lemma forgotten_localStorage cfg w :
  localStorage (forgotten cfg w)
  = if persistSessionFlag cfg
    then delete (sessionStorageKey cfg) (localStorage w)
    else localStorage w.
Proof. unfold forgotten. destruct (persistSessionFlag cfg); reflexivity. Qed.

#[global] Hint Rewrite sent_posted sent_delivered sent_localStorage sent_clock
  sent_clock_reads emit_posted emit_clock emit_clock_reads emit_localStorage
  stored_posted stored_clock stored_clock_reads stored_localStorage
  tick_posted tick_clock tick_clock_reads tick_localStorage
  cleared_posted cleared_clock cleared_clock_reads cleared_localStorage
  forgotten_posted forgotten_clock forgotten_clock_reads forgotten_localStorage
  : browser.

Lemma answer_clock_posted t id w : posted (answer_clock t id w) = posted w.
Proof. unfold answer_clock. destruct (timed t id); reflexivity. Qed.

Lemma answer_clock_clock t id w : clock (answer_clock t id w) = clock w.
Proof. unfold answer_clock. destruct (timed t id); reflexivity. Qed.

Lemma answer_clock_localStorage t id w :
  localStorage (answer_clock t id w) = localStorage w.
Proof. unfold answer_clock. destruct (timed t id); reflexivity. Qed.

#[global] Hint Rewrite answer_clock_posted answer_clock_clock answer_clock_localStorage
  : browser.

(** Every public call returns normally. *)
Lemma call_returns c s : fst (call c s) = Returned tt.
Proof.
  destruct s as [t w]. destruct c; cbn [call].
  - destruct (negb (trackInteractions (config t)) || isCompleted t) eqn:G.
    + rewrite trackInteraction_skip by exact G. reflexivity.
    + apply orb_false_elim in G as [G1 G2]. apply negb_false_iff in G1.
      rewrite trackInteraction_eq by assumption. reflexivity.
  - destruct (negb (trackQuestions (config t)) || isCompleted t) eqn:G.
    + rewrite startQuestion_skip by exact G. reflexivity.
    + apply orb_false_elim in G as [G1 G2]. apply negb_false_iff in G1.
      rewrite startQuestion_eq by assumption. reflexivity.
  - destruct (negb (trackQuestions (config t)) || isCompleted t) eqn:G.
    + rewrite answerQuestion_skip by exact G. reflexivity.
    + apply orb_false_elim in G as [G1 G2]. apply negb_false_iff in G1.
      rewrite answerQuestion_eq by assumption. reflexivity.
  - destruct (negb (trackQuestions (config t)) || isCompleted t) eqn:G.
    + rewrite skipQuestion_skip by exact G. reflexivity.
    + apply orb_false_elim in G as [G1 G2]. apply negb_false_iff in G1.
      rewrite skipQuestion_eq by assumption. reflexivity.
  - destruct (isCompleted t) eqn:G.
    + rewrite complete_skip by exact G. reflexivity.
    + rewrite complete_eq by assumption. reflexivity.
  - destruct (isCompleted t) eqn:G.
    + rewrite abandon_skip by exact G. reflexivity.
    + rewrite abandon_eq by assumption. reflexivity.
Qed.

(** C9.  A throwing listener is contained.  For every event, every tracker
    (so every list of registered callbacks, each throwing or not on the
    event) and every browser, [sendEvent] returns normally; every
    registered callback has been called with the event, once and in the
    order of registration; both [postMessage] deliveries have been made;
    the tracker is as before; and every call of the public API returns
    normally to its caller. *)
Theorem listener_failures_contained
    (event : BlockAnalyticsEvent) (t : BlockTracker) (w : World) :
  let result := sendEvent event {| this := t; env := w |} in
  fst result = Returned tt
  /\ delivered (env (snd result))
     = delivered w ++ map (fun cb => (cb_id cb, event)) (eventSenders t)
  /\ posted (env (snd result))
     = posted w ++ [(Window, Analytics event); (WindowParent, Analytics event)]
  /\ this (snd result) = t
  /\ forall c, fst (call c {| this := t; env := w |}) = Returned tt.
Proof.
  cbv zeta. rewrite sendEvent_eq. cbn [fst snd this env].
  fold (sent event (eventSenders t) w).
  rewrite sent_delivered, sent_posted. repeat split.
  intros c. apply call_returns.
Qed.

(** ** The events a call emits *)

Ltac read_at k :=
  unfold read_between; exists k;
  split; [autorewrite with browser; cbn; lia | reflexivity].

Lemma sessionEvent_built_by t t' kind data w0 w w' :
  state t' = state t ->
  clock w = clock w0 ->
  (clock_reads w0 <= clock_reads w < clock_reads w')%nat ->
  data ≫= d_timeSpent <> None ->
  built_by t w0 w' (BLOCK_SESSION (sessionEvent t' kind data w)).
Proof.
  intros Hstate Hclock Hreads Hdata.
  cbn [built_by sessionEvent se_sessionId se_timestamp summary se_eventType].
  rewrite Hstate. split; [reflexivity|]. split; [|eauto].
  unfold session_clock. destruct (data ≫= d_timeSpent); [|congruence].
  exists (clock_reads w). split; [lia|]. unfold now. rewrite Hclock. reflexivity.
Qed.

Ltac one_event :=
  eexists [_]; split; [reflexivity|]; constructor; [|constructor];
  split; [reflexivity|].

Lemma call_emits c t w :
  let w' := env (exec (call c) {| this := t; env := w |}) in
  exists events,
    posted w' = posted w ++ messages events
    /\ Forall (built_by t w w') events.
Proof.
  cbv zeta. unfold exec. destruct c; cbn [call].
  - pose proof (trackInteraction_skip kind elementId payload elementType duration
                  {| this := t; env := w |}) as Hskip. cbn [this env] in Hskip.
    destruct (negb (trackInteractions (config t)) || isCompleted t) eqn:G.
    { rewrite Hskip by reflexivity. exists [].
      split; [symmetry; apply app_nil_r | constructor]. }
    apply orb_false_elim in G as [G1 G2]. apply negb_false_iff in G1.
    rewrite trackInteraction_eq by assumption. cbn [snd env].
    autorewrite with browser. destruct (sendDetailedEvents (config t)).
    2:{ exists []. split; [reflexivity | constructor]. }
    one_event. read_at (clock_reads w).
  - pose proof (startQuestion_skip id type text {| this := t; env := w |}) as Hskip.
    cbn [this env] in Hskip.
    destruct (negb (trackQuestions (config t)) || isCompleted t) eqn:G.
    { rewrite Hskip by reflexivity. exists [].
      split; [symmetry; apply app_nil_r | constructor]. }
    apply orb_false_elim in G as [G1 G2]. apply negb_false_iff in G1.
    rewrite startQuestion_eq by assumption. cbn [snd env].
    autorewrite with browser. destruct (sendDetailedEvents (config t)).
    2:{ exists []. split; [reflexivity | constructor]. }
    one_event. read_at (S (clock_reads w)).
  - pose proof (answerQuestion_skip id given expected correct points maxPoints options
                  {| this := t; env := w |}) as Hskip. cbn [this env] in Hskip.
    destruct (negb (trackQuestions (config t)) || isCompleted t) eqn:G.
    { rewrite Hskip by reflexivity. exists [].
      split; [symmetry; apply app_nil_r | constructor]. }
    apply orb_false_elim in G as [G1 G2]. apply negb_false_iff in G1.
    rewrite answerQuestion_eq by assumption. cbn [snd env].
    autorewrite with browser. destruct (sendDetailedEvents (config t)).
    2:{ exists []. split; [reflexivity | constructor]. }
    one_event. cbn [answeredEvent qe_timestamp]. unfold answer_clock.
    destruct (timed t id); autorewrite with browser.
    + read_at (S (clock_reads w)).
    + read_at (clock_reads w).
  - pose proof (skipQuestion_skip id type {| this := t; env := w |}) as Hskip.
    cbn [this env] in Hskip.
    destruct (negb (trackQuestions (config t)) || isCompleted t) eqn:G.
    { rewrite Hskip by reflexivity. exists [].
      split; [symmetry; apply app_nil_r | constructor]. }
    apply orb_false_elim in G as [G1 G2]. apply negb_false_iff in G1.
    rewrite skipQuestion_eq by assumption. cbn [snd env].
    autorewrite with browser. destruct (sendDetailedEvents (config t)).
    2:{ exists []. split; [reflexivity | constructor]. }
    one_event. read_at (clock_reads w).
  - destruct (isCompleted t) eqn:G.
    { rewrite complete_skip by exact G. exists [].
      split; [symmetry; apply app_nil_r | constructor]. }
    rewrite complete_eq by assumption. cbn [snd env].
    autorewrite with browser.
    destruct (sendLegacyEvent (config t)).
    + eexists [_; _]. split; [rewrite <- app_assoc; reflexivity|].
      constructor; [|constructor; [reflexivity | constructor]].
      apply sessionEvent_built_by;
        [reflexivity | reflexivity | autorewrite with browser; lia | discriminate].
    + eexists [_]. split; [rewrite app_nil_r; reflexivity|].
      constructor; [|constructor].
      apply sessionEvent_built_by;
        [reflexivity | reflexivity | autorewrite with browser; lia | discriminate].
  - destruct (isCompleted t) eqn:G.
    { rewrite abandon_skip by exact G. exists [].
      split; [symmetry; apply app_nil_r | constructor]. }
    rewrite abandon_eq by assumption. cbn [snd env].
    autorewrite with browser.
    eexists [_]. split; [reflexivity|]. constructor; [|constructor].
    apply sessionEvent_built_by;
      [reflexivity | reflexivity | autorewrite with browser; lia | discriminate].
Qed.

(** ** Construction *)

Lemma strict_eq_string_decide (o : option string) (s : string) :
  strict_eq_string o s = bool_decide (o = Some s).
Proof.
  destruct o as [a|]; cbn.
  - destruct (String.eqb_spec a s) as [->|Hne].
    + symmetry. apply bool_decide_eq_true. reflexivity.
    + symmetry. apply bool_decide_eq_false. congruence.
  - symmetry. apply bool_decide_eq_false. congruence.
Qed.

Lemma restoreSession_caught cfg w :
  exists lines,
    try_catch (restoreSession cfg)
      (fun _ => console_warn "[BlockTracker] Failed to restore session:";; ret None) w
    = (Returned (stored_session cfg w), with_console (console w ++ lines) w).
Proof.
  unfold try_catch, restoreSession, stored_session, bind, localStorage_getItem, gets.
  assert (Hsame : with_console (console w ++ []) w = w)
    by (destruct w; unfold with_console; cbn; rewrite app_nil_r; reflexivity).
  destruct (localStorage w !! sessionStorageKey cfg) as [[text|[| |s]]|].
  - cbn [truthy_item JSON_parse]. destruct (negb (String.eqb text "")).
    + eexists [_]. reflexivity.
    + exists []. rewrite Hsame. reflexivity.
  - eexists [_]. reflexivity.
  - exists []. rewrite Hsame. reflexivity.
  - exists []. rewrite Hsame. cbn [truthy_item JSON_parse ret].
    rewrite strict_eq_string_decide.
    destruct (decide (st_blockId s = Some (blockId cfg))) as [Heq|Hne].
    + rewrite bool_decide_eq_true_2 by exact Heq. reflexivity.
    + rewrite bool_decide_eq_false_2 by exact Hne. reflexivity.
  - exists []. rewrite Hsame. reflexivity.
Qed.

Lemma restoreOrCreateSession_eq cfg w :
  exists lines,
    let w0 := with_console (console w ++ lines) w in
    restoreOrCreateSession cfg w
    = (Returned (initial_session cfg w),
       match (if persistSessionFlag cfg then stored_session cfg w else None) with
       | Some _ => w0
       | None => created w0
       end).
Proof.
  unfold restoreOrCreateSession, initial_session.
  destruct (persistSessionFlag cfg).
  - destruct (restoreSession_caught cfg w) as [lines Hcaught].
    exists lines. cbv zeta. unfold bind at 1. rewrite Hcaught.
    destruct (stored_session cfg w); reflexivity.
  - exists []. cbv zeta.
    assert (Hsame : with_console (console w ++ []) w = w)
      by (destruct w; unfold with_console; cbn; rewrite app_nil_r; reflexivity).
    rewrite Hsame. reflexivity.
Qed.

Arguments restoreOrCreateSession : simpl never.

(** What the constructor gives: it returns; the new tracker has the
    defaulted configuration, the restored or created session, no
    listener, and is not completed; the storage is as before; one
    [started] session event is posted. *)
Lemma new_BlockTracker_spec c w :
  exists t w',
    new_BlockTracker c w = (Returned t, w')
    /\ config t = with_defaults c
    /\ state t = initial_session (with_defaults c) w
    /\ isCompleted t = false
    /\ eventSenders t = []
    /\ localStorage w' = localStorage w
    /\ clock w' = clock w
    /\ (clock_reads w <= clock_reads w')%nat
    /\ exists ev,
         posted w' = posted w ++ messages [BLOCK_SESSION ev]
         /\ se_eventType ev = SessionStarted
         /\ built_by t w w' (BLOCK_SESSION ev).
Proof.
  unfold new_BlockTracker.
  destruct (restoreOrCreateSession_eq (with_defaults c) w) as [lines Hrestore].
  cbv zeta in Hrestore. rewrite Hrestore. clear Hrestore.
  set (cfg := with_defaults c).
  set (w1 := match (if persistSessionFlag cfg then stored_session cfg w else None) with
             | Some _ => with_console (console w ++ lines) w
             | None => created (with_console (console w ++ lines) w)
             end).
  assert (Hw1 : localStorage w1 = localStorage w /\ clock w1 = clock w
                /\ (clock_reads w <= clock_reads w1)%nat /\ posted w1 = posted w).
  { unfold w1. destruct (if persistSessionFlag cfg then stored_session cfg w else None);
      cbn; repeat split; lia. }
  destruct Hw1 as (Hls & Hclock & Hreads & Hposted).
  set (t0 := {| config := cfg; state := initial_session cfg w; isCompleted := false;
                eventSenders := []; progressTimer := None |}).
  unfold bind at 1. rewrite sendSessionEvent_eq.
  set (ev := sessionEvent t0 SessionStarted None w1).
  assert (Hbuilt : forall t w', state t = state t0 ->
            (S (clock_reads w1) < clock_reads w')%nat ->
            built_by t w w' (BLOCK_SESSION ev)).
  { intros t w' Hstate Hlt. cbn [built_by]. subst ev.
    cbn [sessionEvent se_sessionId se_timestamp summary se_eventType session_clock mbind
         option_bind]. rewrite Hstate. split; [reflexivity|]. split; [|eauto].
    exists (S (clock_reads w1)). split; [lia|]. rewrite <- Hclock. reflexivity. }
  destruct (0 <? progressUpdateInterval cfg)%Z.
  - unfold bind, startProgressUpdates, setupUnloadHandler, bind, assign_this, modify, ret,
      in_env, setInterval. cbn [fst snd this env].
    eexists _, _. split; [reflexivity|]. cbn [config state isCompleted eventSenders set_progressTimer].
    do 4 (split; [reflexivity|]).
    cbn [localStorage clock clock_reads posted set_intervals].
    autorewrite with browser. cbn [session_clock mbind option_bind].
    autorewrite with browser.
    split; [exact Hls|]. split; [exact Hclock|]. split; [lia|].
    exists ev. split; [rewrite Hposted; reflexivity|]. split; [reflexivity|].
    apply Hbuilt; [reflexivity|]. cbn [clock_reads set_intervals].
    autorewrite with browser. lia.
  - unfold bind, setupUnloadHandler, ret. cbn [fst snd this env].
    eexists _, _. split; [reflexivity|]. cbn [config state isCompleted eventSenders].
    do 4 (split; [reflexivity|]).
    autorewrite with browser. cbn [session_clock mbind option_bind].
    autorewrite with browser.
    split; [exact Hls|]. split; [exact Hclock|]. split; [lia|].
    exists ev. split; [rewrite Hposted; reflexivity|]. split; [reflexivity|].
    apply Hbuilt; [reflexivity|]. autorewrite with browser. lia.
Qed.

Lemma sent_random_reads event senders w :
  random_reads (sent event senders w) = random_reads w.
Proof. unfold sent. rewrite notify_random_reads. reflexivity. Qed.

(** The constructor calls [Math.random()] once when it creates a session,
    and never when it restores one. *)
Lemma new_BlockTracker_random_reads c w t w' :
  new_BlockTracker c w = (Returned t, w') ->
  random_reads w'
  = match (if persistSessionFlag (with_defaults c)
           then stored_session (with_defaults c) w else None) with
    | Some _ => random_reads w
    | None => S (random_reads w)
    end.
Proof.
  unfold new_BlockTracker.
  destruct (restoreOrCreateSession_eq (with_defaults c) w) as [lines Hrestore].
  cbv zeta in Hrestore. rewrite Hrestore. clear Hrestore.
  set (cfg := with_defaults c).
  set (w1 := match (if persistSessionFlag cfg then stored_session cfg w else None) with
             | Some _ => with_console (console w ++ lines) w
             | None => created (with_console (console w ++ lines) w)
             end).
  assert (Hw1 : random_reads w1
                = match (if persistSessionFlag cfg then stored_session cfg w else None) with
                  | Some _ => random_reads w
                  | None => S (random_reads w)
                  end).
  { unfold w1. destruct (if persistSessionFlag cfg then stored_session cfg w else None);
      reflexivity. }
  rewrite <- Hw1. clear Hw1.
  unfold bind at 1. rewrite sendSessionEvent_eq.
  destruct (0 <? progressUpdateInterval cfg)%Z.
  - unfold bind, startProgressUpdates, setupUnloadHandler, bind, assign_this, modify, ret,
      in_env, setInterval. cbn [fst snd this env].
    intros [= <- <-]. cbn [random_reads set_intervals].
    rewrite sent_random_reads. reflexivity.
  - unfold bind, setupUnloadHandler, ret. cbn [fst snd this env].
    intros [= <- <-]. rewrite sent_random_reads. reflexivity.
Qed.

(** ** Counters and question events *)

Lemma count_where_app {A} (p : A -> bool) (l1 l2 : list A) :
  count_where p (l1 ++ l2) = count_where p l1 + count_where p l2.
Proof. induction l1 as [|x l1 IH]; cbn [count_where app]; [reflexivity | lia]. Qed.

Lemma count_where_filter {A} (p : A -> bool) (l : list A) :
  Z_length (List.filter p l) = count_where p l.
Proof.
  unfold Z_length. induction l as [|x l IH]; cbn [List.filter count_where]; [reflexivity|].
  destruct (p x); cbn [length]; lia.
Qed.

Lemma fresh_session_counters cfg w : counters_match (fresh_session cfg w).
Proof. split; reflexivity. Qed.

Lemma call_counters c s :
  counters_match (state (this s)) ->
  counters_match (state (this (exec (call c) s))).
Proof.
  intros [Htotal Hcorrect]. destruct s as [t w]. cbn [this] in *.
  unfold exec. destruct c; cbn [call].
  - destruct (negb (trackInteractions (config t)) || isCompleted t) eqn:G.
    { rewrite trackInteraction_skip by exact G. split; assumption. }
    apply orb_false_elim in G as [G1 G2]. apply negb_false_iff in G1.
    rewrite trackInteraction_eq by assumption. split; assumption.
  - destruct (negb (trackQuestions (config t)) || isCompleted t) eqn:G.
    { rewrite startQuestion_skip by exact G. split; assumption. }
    apply orb_false_elim in G as [G1 G2]. apply negb_false_iff in G1.
    rewrite startQuestion_eq by assumption.
    unfold counters_match. cbn -[count_where Z.add].
    rewrite !count_where_app. cbn -[Z.add]. split; lia.
  - destruct (negb (trackQuestions (config t)) || isCompleted t) eqn:G.
    { rewrite answerQuestion_skip by exact G. split; assumption. }
    apply orb_false_elim in G as [G1 G2]. apply negb_false_iff in G1.
    rewrite answerQuestion_eq by assumption.
    unfold counters_match, answered_state.
    destruct correct; cbn -[count_where Z.add];
      rewrite !count_where_app; cbn -[Z.add]; split; lia.
  - destruct (negb (trackQuestions (config t)) || isCompleted t) eqn:G.
    { rewrite skipQuestion_skip by exact G. split; assumption. }
    apply orb_false_elim in G as [G1 G2]. apply negb_false_iff in G1.
    rewrite skipQuestion_eq by assumption.
    unfold counters_match. cbn -[count_where Z.add].
    rewrite !count_where_app. cbn -[Z.add]. split; lia.
  - destruct (isCompleted t) eqn:G.
    { rewrite complete_skip by exact G. split; assumption. }
    rewrite complete_eq by assumption. split; assumption.
  - destruct (isCompleted t) eqn:G.
    { rewrite abandon_skip by exact G. split; assumption. }
    rewrite abandon_eq by assumption. split; assumption.
Qed.

Lemma stores_after_counters calls s :
  counters_match (state (this s)) ->
  Forall (fun s' => counters_match (state (this s'))) (stores_after calls s).
Proof.
  revert s. induction calls as [|c rest IH]; intros s Hs; cbn [stores_after].
  - constructor.
  - constructor; [|apply IH]; apply call_counters, Hs.
Qed.

(** C1.  The question counters agree with the question events.  Take any
    configuration and any browser in which the constructor restores no
    session, so that the session is a fresh one.  Then the constructor
    returns a tracker, and for every sequence of calls of the six mutating
    methods, in the state after the construction and after every call,
    [totalQuestions] is the number of question events with [eventType]
    [answered] and [correctQuestions] is the number of those whose
    [isCorrect] is [true]. *)
Theorem counters_agree_with_events
    (c : BlockTrackerConfig) (w : World) (calls : list Call) :
  (if persistSessionFlag (with_defaults c)
   then stored_session (with_defaults c) w else None) = None ->
  exists t w',
    new_BlockTracker c w = (Returned t, w')
    /\ counters_match (state t)
    /\ Forall (fun s => counters_match (state (this s)))
              (stores_after calls {| this := t; env := w' |}).
Proof.
  intros Hfresh.
  destruct (new_BlockTracker_spec c w) as (t & w' & Hnew & _ & Hstate & _).
  exists t, w'. split; [exact Hnew|].
  assert (Hcounters : counters_match (state t)).
  { rewrite Hstate. unfold initial_session. rewrite Hfresh.
    apply fresh_session_counters. }
  split; [exact Hcounters|]. apply stores_after_counters. exact Hcounters.
Qed.

Lemma counters_agree_with_events_witness :
  (if persistSessionFlag (with_defaults persisting)
   then stored_session (with_defaults persisting) blank_page else None) = None
  /\ exists t w',
       new_BlockTracker persisting blank_page = (Returned t, w')
       /\ counters_match (state t)
       /\ Forall (fun s => counters_match (state (this s)))
            (stores_after
               [StartQuestion "q1" multiple_choice None;
                AnswerQuestion "q1" (Some (JStr "A")) (Some (JStr "A")) true 1 1 None;
                SkipQuestion "q2" None;
                Complete None None None]
               {| this := t; env := w' |}).
Proof.
  split; [reflexivity|].
  apply (counters_agree_with_events persisting blank_page). reflexivity.
Defined.

(** ** The open question *)

Lemma recording_guard t :
  negb (trackQuestions (config t)) || isCompleted t = negb (recording t).
Proof. unfold recording. destruct (trackQuestions (config t)), (isCompleted t); reflexivity. Qed.

Lemma open_question_after_call c t w :
  let s' := state (this (exec (call c) {| this := t; env := w |})) in
  (currentQuestionId s', currentQuestionStartTime s') = open_question_after c t w.
Proof.
  cbv zeta. unfold exec, open_question_after. destruct c; cbn [call].
  - destruct (negb (trackInteractions (config t)) || isCompleted t) eqn:G.
    { rewrite trackInteraction_skip by exact G. reflexivity. }
    apply orb_false_elim in G as [G1 G2]. apply negb_false_iff in G1.
    rewrite trackInteraction_eq by assumption. reflexivity.
  - pose proof (recording_guard t) as G. destruct (recording t).
    + apply orb_false_elim in G as [G1 G2]. apply negb_false_iff in G1.
      rewrite startQuestion_eq by assumption. reflexivity.
    + rewrite startQuestion_skip by exact G. reflexivity.
  - pose proof (recording_guard t) as G. destruct (recording t).
    + apply orb_false_elim in G as [G1 G2]. apply negb_false_iff in G1.
      rewrite answerQuestion_eq by assumption. reflexivity.
    + rewrite answerQuestion_skip by exact G. reflexivity.
  - pose proof (recording_guard t) as G. destruct (recording t).
    + apply orb_false_elim in G as [G1 G2]. apply negb_false_iff in G1.
      rewrite skipQuestion_eq by assumption. reflexivity.
    + rewrite skipQuestion_skip by exact G. reflexivity.
  - destruct (isCompleted t) eqn:G.
    { rewrite complete_skip by exact G. reflexivity. }
    rewrite complete_eq by assumption. reflexivity.
  - destruct (isCompleted t) eqn:G.
    { rewrite abandon_skip by exact G. reflexivity. }
    rewrite abandon_eq by assumption. reflexivity.
Qed.

(** C4, as the code has it.  [currentQuestionId] and
    [currentQuestionStartTime] are set by a recorded [startQuestion] and
    cleared by every recorded [answerQuestion], whatever its question id;
    no other call touches them.  In a session with an open question [q1], a
    recorded [answerQuestion] with another id appends the answered event
    for that id, with no [timeToAnswer], and leaves both fields
    undefined. *)
Theorem open_question_cleared_by_any_answer
    (t : BlockTracker) (w : World) :
  (forall c,
     let s' := state (this (exec (call c) {| this := t; env := w |})) in
     (currentQuestionId s', currentQuestionStartTime s') = open_question_after c t w)
  /\ (forall id given expected correct points maxPoints options,
        recording t = true ->
        let s' := state (this (exec (answerQuestion id given expected correct points
                                       maxPoints options) {| this := t; env := w |})) in
        currentQuestionId s' = None
        /\ currentQuestionStartTime s' = None
        /\ exists event,
             questions s' = questions (state t) ++ [event]
             /\ eventType event = QuestionAnswered
             /\ questionId event = id
             /\ isCorrect event = Some correct
             /\ (currentQuestionId (state t) <> Some id -> timeToAnswer event = None)).
Proof.
  split; [intros c; apply open_question_after_call|].
  intros id given expected correct points maxPoints options Hrec. cbv zeta.
  pose proof (recording_guard t) as G. rewrite Hrec in G.
  apply orb_false_elim in G as [G1 G2]. apply negb_false_iff in G1.
  unfold exec. rewrite answerQuestion_eq by assumption.
  cbn [snd this state set_state]. unfold answered_state.
  split; [reflexivity|]. split; [reflexivity|].
  eexists. split; [destruct correct; reflexivity|].
  do 3 (split; [reflexivity|]).
  intros Hother. cbn [answeredEvent timeToAnswer]. unfold timed.
  rewrite strict_eq_string_decide, bool_decide_eq_false_2 by exact Hother.
  reflexivity.
Qed.

Lemma open_question_cleared_by_any_answer_witness :
  recording (this open_question_q1) = true
  /\ currentQuestionId (state (this open_question_q1)) = Some "q1"
  /\ currentQuestionStartTime (state (this open_question_q1)) = Some 1004
  /\ let s' := state (this (exec (answerQuestion "q2" (Some (JStr "B")) (Some (JStr "A"))
                                                 false 0 1 None)
                                 {| this := this open_question_q1;
                                    env := env open_question_q1 |})) in
     currentQuestionId s' = None
     /\ currentQuestionStartTime s' = None
     /\ exists event,
          questions s' = questions (state (this open_question_q1)) ++ [event]
          /\ eventType event = QuestionAnswered
          /\ questionId event = "q2"
          /\ timeToAnswer event = None.
Proof.
  assert (Hrec : recording (this open_question_q1) = true) by reflexivity.
  assert (Hopen : currentQuestionId (state (this open_question_q1)) = Some "q1")
    by reflexivity.
  split; [exact Hrec|]. split; [exact Hopen|]. split; [reflexivity|].
  pose proof (proj2 (open_question_cleared_by_any_answer
                       (this open_question_q1) (env open_question_q1))
                    "q2" (Some (JStr "B")) (Some (JStr "A")) false 0%Q 1%Q None Hrec)
    as Hanswer.
  cbv zeta in Hanswer |- *.
  destruct Hanswer as (Hid & Htime & event & Hquestions & Hkind & Hqid & _ & Huntimed).
  split; [exact Hid|]. split; [exact Htime|]. exists event.
  split; [exact Hquestions|]. split; [exact Hkind|]. split; [exact Hqid|].
  apply Huntimed. rewrite Hopen. discriminate.
Defined.

(** C4, as stated, fails.  On a blank page, [new BlockTracker()], then
    [startQuestion('q1', ...)]: question [q1] is open.  Then
    [answerQuestion('q2', ...)]: the answer for [q2] is recorded without
    [timeToAnswer], and [currentQuestionId] and [currentQuestionStartTime]
    are undefined, not those of [q1]. *)
Lemma mismatched_answer_clears_open_question :
  let opened := session_of no_options blank_page
                  [StartQuestion "q1" multiple_choice None] in
  let answered := session_of no_options blank_page
                    [StartQuestion "q1" multiple_choice None;
                     AnswerQuestion "q2" (Some (JStr "B")) (Some (JStr "A")) false 0 1 None] in
  (fun s => currentQuestionId (state (this s))) <$> opened = Some (Some "q1")
  /\ (fun s => currentQuestionStartTime (state (this s))) <$> opened = Some (Some 1004)
  /\ (fun s => currentQuestionId (state (this s))) <$> answered = Some None
  /\ (fun s => currentQuestionStartTime (state (this s))) <$> answered = Some None
  /\ (fun s => map (fun q => (eventType q, questionId q, timeToAnswer q))
                   (questions (state (this s)))) <$> answered
     = Some [(QuestionStarted, "q1", None); (QuestionAnswered, "q2", None)].
Proof. vm_compute. repeat split; reflexivity. Qed.

(** ** The session summary *)

Lemma count_where_nonneg {A} (p : A -> bool) (l : list A) : 0 <= count_where p l.
Proof. induction l as [|x l IH]; cbn [count_where]; [lia|]. destruct (p x); lia. Qed.

Lemma count_correct_filter (qs : list QuestionEvent) :
  Z_length (List.filter is_correct (List.filter is_answered qs))
  = count_where answered_correctly qs.
Proof.
  unfold Z_length. induction qs as [|q qs IH]; cbn [List.filter count_where]; [reflexivity|].
  unfold answered_correctly at 1.
  destruct (is_answered q); cbn [List.filter andb]; [|lia].
  unfold is_correct at 1. destruct (isCorrect q) as [[|]|]; cbn [length]; lia.
Qed.

Lemma summary_accuracyRate s kind data spent :
  accuracyRate (sessionSummary s kind data spent) = accuracy_of (questions s).
Proof.
  unfold sessionSummary, accuracy_of. cbn [accuracyRate].
  rewrite count_correct_filter, count_where_filter.
  pose proof (count_where_nonneg is_answered (questions s)) as Hpos.
  destruct (Z.ltb_spec 0 (count_where is_answered (questions s)));
    destruct (Z.eqb_spec (count_where is_answered (questions s)) 0); try lia; reflexivity.
Qed.

Lemma or_zero_Z_value (o : option Z) :
  or_zero_Z o = match o with Some ms => ms | None => 0 end.
Proof. destruct o as [ms|]; cbn; [|reflexivity]. destruct (Z.eqb_spec ms 0); congruence. Qed.

Lemma fold_answer_time (qs : list QuestionEvent) (acc : Z) :
  fold_left (fun sum q => sum + or_zero_Z (timeToAnswer q)) (List.filter is_answered qs) acc
  = acc + answer_time qs.
Proof.
  revert acc. induction qs as [|q qs IH]; intros acc; cbn [List.filter answer_time fold_left].
  - lia.
  - destruct (is_answered q); cbn [fold_left]; rewrite IH, ?or_zero_Z_value; lia.
Qed.

Lemma summary_averageTimePerQuestion s kind data spent :
  averageTimePerQuestion (sessionSummary s kind data spent) = average_of (questions s).
Proof.
  unfold sessionSummary, average_of. cbn [averageTimePerQuestion].
  rewrite fold_answer_time, count_where_filter, Z.add_0_l.
  pose proof (count_where_nonneg is_answered (questions s)) as Hpos.
  destruct (Z.ltb_spec 0 (count_where is_answered (questions s)));
    destruct (Z.eqb_spec (count_where is_answered (questions s)) 0); try lia; reflexivity.
Qed.

(** Every session event that the constructor or a call emits carries the
    summary of the questions of the session. *)
Lemma emitted_session_summaries (field : SessionSummary -> option Q)
    (value : list QuestionEvent -> option Q) :
  (forall s kind data spent, field (sessionSummary s kind data spent) = value (questions s)) ->
  (forall c w, exists t w' ev,
      new_BlockTracker c w = (Returned t, w')
      /\ posted w' = posted w ++ messages [BLOCK_SESSION ev]
      /\ field (summary ev) = value (questions (state t)))
  /\ (forall c t w, exists events,
        posted (env (exec (call c) {| this := t; env := w |}))
        = posted w ++ messages events
        /\ Forall (fun e => match e with
                            | BLOCK_SESSION ev =>
                                field (summary ev) = value (questions (state t))
                            | _ => True
                            end) events).
Proof.
  intros Hfield. split.
  - intros c w.
    destruct (new_BlockTracker_spec c w)
      as (t & w' & Hnew & _ & _ & _ & _ & _ & _ & _ & ev & Hposted & _ & Hbuilt).
    exists t, w', ev. split; [exact Hnew|]. split; [exact Hposted|].
    destruct Hbuilt as (_ & _ & data & spent & ->). apply Hfield.
  - intros c t w. destruct (call_emits c t w) as (events & Hposted & Hbuilt).
    exists events. split; [exact Hposted|].
    revert Hbuilt. apply List.Forall_impl.
    intros [ev| | |]; cbn [built_by]; [|trivial..].
    intros (_ & _ & data & spent & ->). apply Hfield.
Qed.

(** C6.  [accuracyRate] in the summary of every emitted session event, be
    it the [started] event of the constructor or the [completed] or
    [abandoned] event of a call: undefined when the session has no
    answered question event, and otherwise the number of answered events
    with [isCorrect] [true] divided by the number of answered events. *)
Theorem accuracy_rate_of_emitted_summaries :
  (forall c w, exists t w' ev,
      new_BlockTracker c w = (Returned t, w')
      /\ posted w' = posted w ++ messages [BLOCK_SESSION ev]
      /\ accuracyRate (summary ev) = accuracy_of (questions (state t)))
  /\ (forall c t w, exists events,
        posted (env (exec (call c) {| this := t; env := w |}))
        = posted w ++ messages events
        /\ Forall (fun e => match e with
                            | BLOCK_SESSION ev =>
                                accuracyRate (summary ev)
                                = accuracy_of (questions (state t))
                            | _ => True
                            end) events).
Proof. apply emitted_session_summaries, summary_accuracyRate. Qed.

(** C3, as the code has it.  [averageTimePerQuestion] in the summary of
    every emitted session event is undefined when the session has no
    answered question event; otherwise it is the sum of [timeToAnswer] over
    the answered events, an undefined [timeToAnswer] counting for zero,
    divided by the number of all answered events. *)
Theorem average_time_of_emitted_summaries :
  (forall c w, exists t w' ev,
      new_BlockTracker c w = (Returned t, w')
      /\ posted w' = posted w ++ messages [BLOCK_SESSION ev]
      /\ averageTimePerQuestion (summary ev) = average_of (questions (state t)))
  /\ (forall c t w, exists events,
        posted (env (exec (call c) {| this := t; env := w |}))
        = posted w ++ messages events
        /\ Forall (fun e => match e with
                            | BLOCK_SESSION ev =>
                                averageTimePerQuestion (summary ev)
                                = average_of (questions (state t))
                            | _ => True
                            end) events).
Proof. apply emitted_session_summaries, summary_averageTimePerQuestion. Qed.

(** C3, as stated, fails, in both of its parts.  On a blank page, after
    [new BlockTracker()]:

    - [answerQuestion('q2', ...)] for a question that was never started,
      then [complete()].  The only answered event has no [timeToAnswer], so
      the mean over the answered events with a defined [timeToAnswer] is
      undefined; the [completed] session event carries
      [averageTimePerQuestion = 0 / 1].
    - [startQuestion('q1')], [answerQuestion('q1')] two milliseconds later,
      [answerQuestion('q2')] never started, then [complete()].  The mean
      over the timed answers is [2 / 1]; the [completed] session event
      carries [2 / 2]. *)
Lemma average_counts_untimed_answers :
  let untimed := session_of no_options blank_page
                   [AnswerQuestion "q2" (Some (JStr "B")) (Some (JStr "A")) false 0 1 None;
                    Complete None None None] in
  let mixed := session_of no_options blank_page
                 [StartQuestion "q1" multiple_choice None;
                  AnswerQuestion "q1" (Some (JStr "A")) (Some (JStr "A")) true 1 1 None;
                  AnswerQuestion "q2" (Some (JStr "B")) (Some (JStr "A")) false 0 1 None;
                  Complete None None None] in
  let answers := fun s => map (fun q => (eventType q, timeToAnswer q))
                              (questions (state (this s))) in
  let claimed := fun s => mean_of_timed (questions (state (this s))) in
  let emitted := fun s => map (fun ev => (se_eventType ev,
                                          averageTimePerQuestion (summary ev)))
                              (session_events (env s)) in
  (answers <$> untimed = Some [(QuestionAnswered, None)]
   /\ claimed <$> untimed = Some None
   /\ emitted <$> untimed
      = Some [(SessionStarted, None);
              (SessionCompleted, Some (Qdiv (inject_Z 0) (inject_Z 1)))])
  /\ (answers <$> mixed
      = Some [(QuestionStarted, None); (QuestionAnswered, Some 2);
              (QuestionAnswered, None)]
      /\ claimed <$> mixed = Some (Some (Qdiv (inject_Z 2) (inject_Z 1)))
      /\ emitted <$> mixed
         = Some [(SessionStarted, None);
                 (SessionCompleted, Some (Qdiv (inject_Z 2) (inject_Z 2)))]
      /\ ~ Qeq (Qdiv (inject_Z 2) (inject_Z 2)) (Qdiv (inject_Z 2) (inject_Z 1))).
Proof. vm_compute. repeat split; try reflexivity. discriminate. Qed.

(** The example of the specification: one question answered, correctly,
    gives an accuracy of one; a session abandoned without an answer has
    none. *)
Example accuracy_rate_samples :
  let emitted := fun s => map (fun ev => (se_eventType ev, accuracyRate (summary ev)))
                              (session_events (env s)) in
  emitted <$> session_of no_options blank_page
                [StartQuestion "q1" multiple_choice None;
                 AnswerQuestion "q1" (Some (JStr "A")) (Some (JStr "A")) true 1 1 None;
                 Complete (Some 1%Q) (Some 1%Q) None]
  = Some [(SessionStarted, None); (SessionCompleted, Some 1%Q)]
  /\ emitted <$> session_of no_options blank_page
                   [SkipQuestion "q1" None; Abandon]
     = Some [(SessionStarted, None); (SessionAbandoned, None)].
Proof. vm_compute. split; reflexivity. Qed.

(** ** Timestamps and session ids of emitted events *)

Lemma built_by_carries t w w' e : built_by t w w' e -> carries t w w' e.
Proof.
  destruct e as [ev|ev|ev|ev]; cbn [built_by carries event_sessionId event_timestamp].
  - intros (-> & Hstamp & _). eauto.
  - intros (-> & Hstamp). eauto.
  - intros (-> & Hstamp). eauto.
  - reflexivity.
Qed.

Lemma call_sessionId c s :
  sessionId (state (this (exec (call c) s))) = sessionId (state (this s)).
Proof.
  destruct s as [t w]. unfold exec. destruct c; cbn [call].
  - destruct (negb (trackInteractions (config t)) || isCompleted t) eqn:G.
    { rewrite trackInteraction_skip by exact G. reflexivity. }
    apply orb_false_elim in G as [G1 G2]. apply negb_false_iff in G1.
    rewrite trackInteraction_eq by assumption. reflexivity.
  - destruct (negb (trackQuestions (config t)) || isCompleted t) eqn:G.
    { rewrite startQuestion_skip by exact G. reflexivity. }
    apply orb_false_elim in G as [G1 G2]. apply negb_false_iff in G1.
    rewrite startQuestion_eq by assumption. reflexivity.
  - destruct (negb (trackQuestions (config t)) || isCompleted t) eqn:G.
    { rewrite answerQuestion_skip by exact G. reflexivity. }
    apply orb_false_elim in G as [G1 G2]. apply negb_false_iff in G1.
    rewrite answerQuestion_eq by assumption. destruct correct; reflexivity.
  - destruct (negb (trackQuestions (config t)) || isCompleted t) eqn:G.
    { rewrite skipQuestion_skip by exact G. reflexivity. }
    apply orb_false_elim in G as [G1 G2]. apply negb_false_iff in G1.
    rewrite skipQuestion_eq by assumption. reflexivity.
  - destruct (isCompleted t) eqn:G.
    { rewrite complete_skip by exact G. reflexivity. }
    rewrite complete_eq by assumption. reflexivity.
  - destruct (isCompleted t) eqn:G.
    { rewrite abandon_skip by exact G. reflexivity. }
    rewrite abandon_eq by assumption. reflexivity.
Qed.

(** C5, as the code has it.  Every interaction, question and session event
    that the constructor or a call emits carries the [sessionId] of the
    session, which no call changes, and a [timestamp] that is a reading of
    the clock taken while the method ran.  A legacy completion event
    carries no [sessionId]. *)
Theorem emitted_events_carry_session_and_time :
  (forall c w, exists t w' ev,
      new_BlockTracker c w = (Returned t, w')
      /\ posted w' = posted w ++ messages [BLOCK_SESSION ev]
      /\ carries t w w' (BLOCK_SESSION ev))
  /\ (forall c t w,
        let s' := exec (call c) {| this := t; env := w |} in
        sessionId (state (this s')) = sessionId (state t)
        /\ exists events,
             posted (env s') = posted w ++ messages events
             /\ Forall (carries t w (env s')) events).
Proof.
  split.
  - intros c w.
    destruct (new_BlockTracker_spec c w)
      as (t & w' & Hnew & _ & _ & _ & _ & _ & _ & _ & ev & Hposted & _ & Hbuilt).
    exists t, w', ev. split; [exact Hnew|]. split; [exact Hposted|].
    apply built_by_carries, Hbuilt.
  - intros c t w. cbv zeta. split; [apply (call_sessionId c {| this := t; env := w |})|].
    destruct (call_emits c t w) as (events & Hposted & Hbuilt).
    exists events. split; [exact Hposted|].
    revert Hbuilt. apply List.Forall_impl. intros e. apply built_by_carries.
Qed.

(** C5, as stated, fails.  On a blank page, [new BlockTracker()] then
    [complete()]: six messages are posted, the [started] and the
    [completed] session event and the legacy completion event, each to the
    window and to its parent.  The legacy event has neither [timestamp] nor
    [sessionId]. *)
Lemma legacy_event_lacks_timestamp_and_session :
  let final := session_of no_options blank_page [Complete None None None] in
  (fun s => sessionId (state (this s))) <$> final = Some "session_1000_k3j9x2a"
  /\ (fun s => map (fun m => match m with
                            | (_, Analytics e) => (event_timestamp e, event_sessionId e)
                            | _ => (None, None)
                            end) (posted (env s))) <$> final
     = Some [(Some 1003, Some "session_1000_k3j9x2a");
             (Some 1003, Some "session_1000_k3j9x2a");
             (Some 1005, Some "session_1000_k3j9x2a");
             (Some 1005, Some "session_1000_k3j9x2a");
             (None, None);
             (None, None)]
  /\ (fun s => last (posted (env s))) <$> final
     = Some (Some (WindowParent,
                   Analytics (BLOCK_COMPLETION
                     {| lg_completed := true; lg_score := None; lg_maxScore := None;
                        lg_timeSpent := Some 3; lg_timestamp := None;
                        lg_data := None |}))).
Proof. vm_compute. repeat split; reflexivity. Qed.

(** ** Persistence and restoration *)

Lemma stored_session_lookup cfg w s :
  localStorage w !! sessionStorageKey cfg = Some (JSON_stringify s) ->
  st_blockId s = Some (blockId cfg) ->
  stored_session cfg w = Some s.
Proof.
  intros Hlookup Hblock. unfold stored_session. rewrite Hlookup. cbn.
  destruct (decide (st_blockId s = Some (blockId cfg))); [reflexivity | contradiction].
Qed.

Lemma stored_session_Some cfg w s :
  stored_session cfg w = Some s ->
  localStorage w !! sessionStorageKey cfg = Some (JSON_stringify s)
  /\ st_blockId s = Some (blockId cfg).
Proof.
  unfold stored_session.
  destruct (localStorage w !! sessionStorageKey cfg) as [[text|[| |s0]]|]; try discriminate.
  destruct (decide (st_blockId s0 = Some (blockId cfg))); [|discriminate].
  intros [= ->]. split; [reflexivity | assumption].
Qed.

Lemma initial_session_blockId cfg w :
  st_blockId (initial_session cfg w) = Some (blockId cfg).
Proof.
  unfold initial_session.
  destruct (persistSessionFlag cfg); [|reflexivity].
  destruct (stored_session cfg w) as [s|] eqn:Hs; [|reflexivity].
  apply stored_session_Some in Hs. apply Hs.
Qed.

(** What recorded interactions do to a session that is not completed. *)
Lemma track_step c t w :
  is_track c = true ->
  trackInteractions (config t) = true ->
  isCompleted t = false ->
  let s' := exec (call c) {| this := t; env := w |} in
  config (this s') = config t
  /\ isCompleted (this s') = false
  /\ sessionId (state (this s')) = sessionId (state t)
  /\ st_blockId (state (this s')) = st_blockId (state t)
  /\ (exists event, interactions (state (this s')) = interactions (state t) ++ [event])
  /\ (persistSessionFlag (config t) = true ->
      localStorage (env s') !! sessionStorageKey (config t)
      = Some (JSON_stringify (state (this s')))).
Proof.
  intros Htrack Hon Hactive. destruct c; try discriminate. cbv zeta.
  unfold exec. cbn [call]. rewrite trackInteraction_eq by assumption.
  cbn [snd this env config set_state isCompleted state].
  split; [reflexivity|]. split; [exact Hactive|]. do 2 (split; [reflexivity|]).
  split; [eexists; reflexivity|].
  intros Hpersist. autorewrite with browser. rewrite Hpersist.
  apply lookup_insert_eq.
Qed.

Lemma track_run calls : forall s,
  forallb is_track calls = true ->
  trackInteractions (config (this s)) = true ->
  isCompleted (this s) = false ->
  let s' := run calls s in
  config (this s') = config (this s)
  /\ isCompleted (this s') = false
  /\ sessionId (state (this s')) = sessionId (state (this s))
  /\ st_blockId (state (this s')) = st_blockId (state (this s))
  /\ (exists events,
        interactions (state (this s')) = interactions (state (this s)) ++ events
        /\ length events = length calls)
  /\ (persistSessionFlag (config (this s)) = true -> calls <> [] ->
      localStorage (env s') !! sessionStorageKey (config (this s))
      = Some (JSON_stringify (state (this s')))).
Proof.
  induction calls as [|c rest IH] using rev_ind; intros s Hall Hon Hactive; cbv zeta.
  - cbn [run fold_left]. split; [reflexivity|]. split; [exact Hactive|].
    do 2 (split; [reflexivity|]).
    split; [exists []; split; [symmetry; apply app_nil_r | reflexivity]|].
    intros _ Hne. contradiction.
  - unfold run. rewrite fold_left_app. cbn [fold_left]. fold (run rest s).
    rewrite forallb_app in Hall. apply andb_true_iff in Hall as [Hrest Hc].
    cbn [forallb] in Hc. rewrite andb_true_r in Hc.
    destruct (IH s Hrest Hon Hactive) as (Hcfg & Hact & Hsid & Hbid & (evs & Hevs & Hlen) & _).
    destruct (run rest s) as [t1 w1] eqn:Hrun. cbn [this env] in *.
    destruct (track_step c t1 w1 Hc) as (Hcfg' & Hact' & Hsid' & Hbid' & (ev & Hev) & Hstored);
      [congruence | assumption |].
    split; [congruence|]. split; [assumption|]. split; [congruence|]. split; [congruence|].
    split.
    + exists (evs ++ [ev]). split.
      * rewrite Hev, Hevs, <- app_assoc. reflexivity.
      * rewrite !length_app. cbn [length]. lia.
    + intros Hpersist _. rewrite <- Hcfg. apply Hstored. congruence.
Qed.

(** C7.  Restoration at construction, with persistence enabled.  The
    constructor returns a tracker.  It restores, that is, it draws no new
    session id, if and only if the text stored under the key of the tracker
    is the JSON text of a session whose [blockId] is the configured one;
    the state of the tracker is then that session.  In every other case (no
    text, a text that does not parse, a value that is no session of this
    block) the state is a session created afresh.  In particular, when the
    first tracker has recorded interactions, a second tracker built from
    the same configuration on the same page has the state of the first: the
    same [sessionId] and the interactions recorded so far. *)
Theorem restoration_accepts_matching_record (c : BlockTrackerConfig) (w : World) :
  let cfg := with_defaults c in
  persistSessionFlag cfg = true ->
  exists t w',
    new_BlockTracker c w = (Returned t, w')
    /\ (random_reads w' = random_reads w
        <-> exists s,
              localStorage w !! sessionStorageKey cfg = Some (Json (VSession s))
              /\ st_blockId s = Some (blockId cfg))
    /\ (forall s,
          localStorage w !! sessionStorageKey cfg = Some (Json (VSession s)) ->
          st_blockId s = Some (blockId cfg) ->
          state t = s)
    /\ ((forall s,
           localStorage w !! sessionStorageKey cfg = Some (Json (VSession s)) ->
           st_blockId s <> Some (blockId cfg)) ->
        state t = fresh_session cfg w)
    /\ (forall calls,
          trackInteractions cfg = true ->
          forallb is_track calls = true ->
          calls <> [] ->
          let s1 := run calls {| this := t; env := w' |} in
          exists t2 w2,
            new_BlockTracker c (env s1) = (Returned t2, w2)
            /\ state t2 = state (this s1)
            /\ sessionId (state t2) = sessionId (state t)
            /\ exists events,
                 interactions (state t2) = interactions (state t) ++ events
                 /\ length events = length calls).
Proof.
  intros cfg Hpersist.
  destruct (new_BlockTracker_spec c w)
    as (t & w' & Hnew & Hcfg & Hstate & Hactive & _ & _).
  fold cfg in Hcfg, Hstate.
  exists t, w'. split; [exact Hnew|].
  unfold initial_session in Hstate. rewrite Hpersist in Hstate.
  split; [|split; [|split]].
  - rewrite (new_BlockTracker_random_reads c w t w' Hnew). fold cfg. rewrite Hpersist.
    destruct (stored_session cfg w) as [s|] eqn:Hs.
    + apply stored_session_Some in Hs. split; [eauto | reflexivity].
    + split; [lia|]. intros (s & Hlookup & Hblock).
      rewrite (stored_session_lookup cfg w s Hlookup Hblock) in Hs. discriminate.
  - intros s Hlookup Hblock.
    rewrite (stored_session_lookup cfg w s Hlookup Hblock) in Hstate. exact Hstate.
  - intros Hnone. destruct (stored_session cfg w) as [s|] eqn:Hs; [|exact Hstate].
    apply stored_session_Some in Hs as [Hlookup Hblock].
    destruct (Hnone s Hlookup Hblock).
  - intros calls Hon Hall Hne. cbv zeta.
    destruct (track_run calls {| this := t; env := w' |} Hall)
      as (Hcfg1 & _ & Hsid & Hbid & Hevents & Hstored); cbn [this]; [congruence | assumption |].
    cbn [this] in *. rewrite Hcfg in *.
    set (s1 := run calls {| this := t; env := w' |}) in *.
    destruct (new_BlockTracker_spec c (env s1)) as (t2 & w2 & Hnew2 & _ & Hstate2 & _).
    fold cfg in Hstate2.
    exists t2, w2. split; [exact Hnew2|].
    assert (Hsame : state t2 = state (this s1)).
    { rewrite Hstate2. unfold initial_session. rewrite Hpersist.
      rewrite (stored_session_lookup cfg (env s1) (state (this s1))); [reflexivity | |].
      - apply Hstored; assumption.
      - rewrite Hbid. replace (state t) with (initial_session cfg w).
        + apply initial_session_blockId.
        + unfold initial_session. rewrite Hpersist. symmetry. exact Hstate. }
    split; [exact Hsame|]. rewrite Hsame. split; [exact Hsid | exact Hevents].
Qed.

Lemma restoration_accepts_matching_record_witness :
  let calls := [TrackInteraction click (Some "submit-button") None None None;
                TrackInteraction input (Some "name") None None None] in
  persistSessionFlag (with_defaults persisting) = true
  /\ trackInteractions (with_defaults persisting) = true
  /\ forallb is_track calls = true
  /\ calls <> []
  /\ exists t w',
       new_BlockTracker persisting blank_page = (Returned t, w')
       /\ exists t2 w2,
            new_BlockTracker persisting (env (run calls {| this := t; env := w' |}))
            = (Returned t2, w2)
            /\ state t2 = state (this (run calls {| this := t; env := w' |}))
            /\ sessionId (state t2) = sessionId (state t)
            /\ exists events,
                 interactions (state t2) = interactions (state t) ++ events
                 /\ length events = length calls.
Proof.
  cbv zeta. do 3 (split; [reflexivity|]). split; [discriminate|].
  destruct (restoration_accepts_matching_record persisting blank_page eq_refl)
    as (t & w' & Hnew & _ & _ & _ & Hsecond).
  exists t, w'. split; [exact Hnew|].
  apply Hsecond; [reflexivity | reflexivity | discriminate].
Defined.

(** The scenario of C7, run: two interactions on a first tracker, then a
    second tracker on the same page. *)
Example second_tracker_continues :
  let first := session_of persisting blank_page
                 [TrackInteraction click (Some "submit-button") None None None;
                  TrackInteraction input (Some "name") None None None] in
  let second := first ≫= fun s => session_of persisting (env s) [] in
  (fun s => sessionId (state (this s))) <$> first = Some "session_1000_k3j9x2a"
  /\ (fun s => sessionId (state (this s))) <$> second = Some "session_1000_k3j9x2a"
  /\ (fun s => map ie_elementId (interactions (state (this s)))) <$> second
     = Some [Some "submit-button"; Some "name"]
  /\ (fun s => map se_eventType (session_events (env s))) <$> second
     = Some [SessionStarted; SessionStarted].
Proof. vm_compute. repeat split; reflexivity. Qed.

Lemma abandon_localStorage s :
  localStorage (env (exec abandon s)) = localStorage (env s).
Proof.
  destruct s as [t w]. unfold exec. destruct (isCompleted t) eqn:G.
  - rewrite abandon_skip by exact G. reflexivity.
  - rewrite abandon_eq by exact G. cbn [snd env]. autorewrite with browser. reflexivity.
Qed.

Lemma abandon_state s : state (this (exec abandon s)) = state (this s).
Proof.
  destruct s as [t w]. unfold exec. destruct (isCompleted t) eqn:G.
  - rewrite abandon_skip by exact G. reflexivity.
  - rewrite abandon_eq by exact G. reflexivity.
Qed.

Lemma complete_localStorage points maxPoints additionalData t w :
  isCompleted t = false ->
  persistSessionFlag (config t) = true ->
  localStorage (env (exec (complete points maxPoints additionalData)
                       {| this := t; env := w |}))
  = delete (sessionStorageKey (config t)) (localStorage w).
Proof.
  intros Hactive Hpersist. unfold exec. rewrite complete_eq by exact Hactive.
  cbn [snd env]. autorewrite with browser. rewrite Hpersist. reflexivity.
Qed.

(** A call other than [complete] keeps a stored record: it stores the
    session again or leaves the storage. *)
Lemma call_keeps_record c t w :
  is_complete c = false ->
  is_Some (localStorage w !! sessionStorageKey (config t)) ->
  is_Some (localStorage (env (exec (call c) {| this := t; env := w |}))
             !! sessionStorageKey (config t)).
Proof.
  intros Hother Hsome.
  assert (Hstored : forall s' w1, localStorage w1 = localStorage w ->
            is_Some (localStorage (stored (config t) s' w1) !! sessionStorageKey (config t))).
  { intros s' w1 Hw1. autorewrite with browser. destruct (persistSessionFlag (config t)).
    - rewrite lookup_insert_eq. eauto.
    - rewrite Hw1. exact Hsome. }
  unfold exec. destruct c; try discriminate; cbn [call].
  - destruct (negb (trackInteractions (config t)) || isCompleted t) eqn:G.
    { rewrite trackInteraction_skip by exact G. exact Hsome. }
    apply orb_false_elim in G as [G1 G2]. apply negb_false_iff in G1.
    rewrite trackInteraction_eq by assumption. cbn [snd env].
    apply Hstored. autorewrite with browser. reflexivity.
  - destruct (negb (trackQuestions (config t)) || isCompleted t) eqn:G.
    { rewrite startQuestion_skip by exact G. exact Hsome. }
    apply orb_false_elim in G as [G1 G2]. apply negb_false_iff in G1.
    rewrite startQuestion_eq by assumption. cbn [snd env].
    apply Hstored. autorewrite with browser. reflexivity.
  - destruct (negb (trackQuestions (config t)) || isCompleted t) eqn:G.
    { rewrite answerQuestion_skip by exact G. exact Hsome. }
    apply orb_false_elim in G as [G1 G2]. apply negb_false_iff in G1.
    rewrite answerQuestion_eq by assumption. cbn [snd env].
    apply Hstored. autorewrite with browser. reflexivity.
  - destruct (negb (trackQuestions (config t)) || isCompleted t) eqn:G.
    { rewrite skipQuestion_skip by exact G. exact Hsome. }
    apply orb_false_elim in G as [G1 G2]. apply negb_false_iff in G1.
    rewrite skipQuestion_eq by assumption. cbn [snd env].
    apply Hstored. autorewrite with browser. reflexivity.
  - pose proof (abandon_localStorage {| this := t; env := w |}) as Hsame.
    unfold exec in Hsame. rewrite Hsame. exact Hsome.
Qed.

(** C10.  With persistence enabled, on the store [s] of a tracker built
    from the configuration [c]: [abandon()] leaves the storage as it is; of
    the six calls only [complete(...)], on a session that is not
    completed, removes the stored record; and when the record under the
    key is the state of the session, a tracker built from the same
    configuration after [abandon()] has exactly that state, with the same
    [sessionId], and is not marked completed, although the abandoned
    tracker is. *)
Theorem abandoned_session_is_restored (c : BlockTrackerConfig) (s : St) :
  let cfg := with_defaults c in
  let key := sessionStorageKey cfg in
  config (this s) = cfg ->
  persistSessionFlag cfg = true ->
  localStorage (env (exec abandon s)) = localStorage (env s)
  /\ (forall points maxPoints additionalData,
        isCompleted (this s) = false ->
        localStorage (env (exec (complete points maxPoints additionalData) s)) !! key
        = None)
  /\ (forall other,
        is_complete other = false ->
        is_Some (localStorage (env s) !! key) ->
        is_Some (localStorage (env (exec (call other) s)) !! key))
  /\ (isCompleted (this s) = false ->
      localStorage (env s) !! key = Some (JSON_stringify (state (this s))) ->
      st_blockId (state (this s)) = Some (blockId cfg) ->
      exists t2 w2,
        new_BlockTracker c (env (exec abandon s)) = (Returned t2, w2)
        /\ isCompleted (this (exec abandon s)) = true
        /\ state t2 = state (this (exec abandon s))
        /\ state t2 = state (this s)
        /\ sessionId (state t2) = sessionId (state (this s))
        /\ isCompleted t2 = false).
Proof.
  intros cfg key Hcfg Hpersist. destruct s as [t w]. cbn [this env] in *.
  split; [apply abandon_localStorage|]. split; [|split].
  - intros points maxPoints additionalData Hactive.
    rewrite complete_localStorage by (rewrite ?Hcfg; assumption).
    rewrite Hcfg. apply lookup_delete_eq.
  - intros other Hother Hsome. unfold key. rewrite <- Hcfg.
    apply call_keeps_record; [exact Hother|]. rewrite Hcfg. exact Hsome.
  - intros Hactive Hstored Hblock.
    destruct (new_BlockTracker_spec c (env (exec abandon {| this := t; env := w |})))
      as (t2 & w2 & Hnew & _ & Hstate & Hactive2 & _).
    exists t2, w2. split; [exact Hnew|].
    split; [apply abandon_isCompleted|].
    assert (Hsame : state t2 = t.(state)).
    { rewrite Hstate. fold cfg. unfold initial_session. rewrite Hpersist.
      rewrite (stored_session_lookup cfg _ (state t)); [reflexivity | | exact Hblock].
      rewrite abandon_localStorage. exact Hstored. }
    rewrite (abandon_state {| this := t; env := w |}). cbn [this].
    split; [exact Hsame|]. split; [exact Hsame|]. rewrite Hsame.
    split; [reflexivity | exact Hactive2].
Qed.

Lemma abandoned_session_is_restored_witness :
  config (this recorded_session) = with_defaults persisting
  /\ persistSessionFlag (with_defaults persisting) = true
  /\ isCompleted (this recorded_session) = false
  /\ localStorage (env recorded_session) !! sessionStorageKey (with_defaults persisting)
     = Some (JSON_stringify (state (this recorded_session)))
  /\ st_blockId (state (this recorded_session)) = Some (blockId (with_defaults persisting))
  /\ exists t2 w2,
       new_BlockTracker persisting (env (exec abandon recorded_session)) = (Returned t2, w2)
       /\ isCompleted (this (exec abandon recorded_session)) = true
       /\ state t2 = state (this (exec abandon recorded_session))
       /\ state t2 = state (this recorded_session)
       /\ sessionId (state t2) = sessionId (state (this recorded_session))
       /\ isCompleted t2 = false.
Proof.
  assert (H1 : config (this recorded_session) = with_defaults persisting)
    by (vm_compute; reflexivity).
  assert (H2 : persistSessionFlag (with_defaults persisting) = true) by reflexivity.
  assert (H3 : isCompleted (this recorded_session) = false) by (vm_compute; reflexivity).
  assert (H4 : localStorage (env recorded_session)
                 !! sessionStorageKey (with_defaults persisting)
               = Some (JSON_stringify (state (this recorded_session))))
    by (vm_compute; reflexivity).
  assert (H5 : st_blockId (state (this recorded_session))
               = Some (blockId (with_defaults persisting)))
    by (vm_compute; reflexivity).
  do 5 (split; [assumption|]).
  destruct (abandoned_session_is_restored persisting recorded_session H1 H2)
    as (_ & _ & _ & Hrestore).
  exact (Hrestore H3 H4 H5).
Defined.

(** ** The registry of content stores *)

Lemma new_RegisteredContent_first dto w :
  registeredContents w !! dto_id dto = None ->
  exists w',
    new_RegisteredContent dto w = (Returned (instance_of dto), w')
    /\ registeredContents w' = <[dto_id dto := instance_of dto]> (registeredContents w)
    /\ posted w' = posted w ++ [announcement (instance_of dto)]
    /\ localStorage w' = localStorage w.
Proof.
  intros Hfree. unfold new_RegisteredContent, bind, gets. cbn [rc_id].
  rewrite Hfree. cbn. eexists. split; [reflexivity|]. cbn. auto.
Qed.

Lemma new_RegisteredContent_again dto w first :
  registeredContents w !! dto_id dto = Some first ->
  new_RegisteredContent dto w = (Returned (instance_of dto), w).
Proof.
  intros Htaken. unfold new_RegisteredContent, bind, gets. cbn [rc_id].
  rewrite Htaken. reflexivity.
Qed.

(** C8.  First registration wins.  When the id of [dto] is free in the
    registry, [new RegisteredContent(dto)] returns, records the new
    instance under the id and posts to the parent exactly one message,
    the [editor:init] carrying the id, the three paths and the data.  When
    the id is taken, the construction returns and leaves the browser as it
    is: nothing is posted and the registry is unchanged.  So after two
    constructions with one id, the registry maps the id to the first
    instance and one announcement, of the first, was posted. *)
Theorem first_registration_wins (dto : RegisteredContentDto) (w : World) :
  (registeredContents w !! dto_id dto = None ->
   exists w',
     new_RegisteredContent dto w = (Returned (instance_of dto), w')
     /\ registeredContents w' = <[dto_id dto := instance_of dto]> (registeredContents w)
     /\ posted w' = posted w ++ [announcement (instance_of dto)]
     /\ forall again,
          dto_id again = dto_id dto ->
          exists w'',
            new_RegisteredContent again w' = (Returned (instance_of again), w'')
            /\ w'' = w'
            /\ registeredContents w'' !! dto_id dto = Some (instance_of dto)
            /\ posted w'' = posted w ++ [announcement (instance_of dto)])
  /\ (forall first,
        registeredContents w !! dto_id dto = Some first ->
        new_RegisteredContent dto w = (Returned (instance_of dto), w)).
Proof.
  split.
  - intros Hfree.
    destruct (new_RegisteredContent_first dto w Hfree) as (w' & Hnew & Hreg & Hposted & _).
    exists w'. split; [exact Hnew|]. split; [exact Hreg|]. split; [exact Hposted|].
    intros again Hid.
    assert (Htaken : registeredContents w' !! dto_id again = Some (instance_of dto))
      by (rewrite Hreg, Hid; apply lookup_insert_eq).
    exists w'. split; [apply (new_RegisteredContent_again again w' _ Htaken)|].
    split; [reflexivity|]. split; [|exact Hposted].
    rewrite <- Hid. exact Htaken.
  - intros first. apply new_RegisteredContent_again.
Qed.

Lemma first_registration_wins_witness :
  registeredContents blank_page !! dto_id features_store = None
  /\ dto_id features_store_again = dto_id features_store
  /\ exists w',
       new_RegisteredContent features_store blank_page
       = (Returned (instance_of features_store), w')
       /\ exists w'',
            new_RegisteredContent features_store_again w'
            = (Returned (instance_of features_store_again), w'')
            /\ w'' = w'
            /\ registeredContents w'' !! dto_id features_store
               = Some (instance_of features_store)
            /\ posted w'' = posted blank_page ++ [announcement (instance_of features_store)].
Proof.
  assert (Hfree : registeredContents blank_page !! dto_id features_store = None)
    by reflexivity.
  split; [exact Hfree|]. split; [reflexivity|].
  destruct (proj1 (first_registration_wins features_store blank_page) Hfree)
    as (w' & Hnew & _ & _ & Hagain).
  exists w'. split; [exact Hnew|]. apply Hagain. reflexivity.
Defined.

(** * Further properties *)

(** ** Case analysis of a call *)

(** One goal for each method and each side of its guard, the call
    replaced by its closed form. *)
Ltac each_call t :=
  unfold exec;
  match goal with |- context [call ?c _] => destruct c end; cbn [call];
  [ destruct (negb (trackInteractions (config t)) || isCompleted t) eqn:Hguard;
    [ rewrite trackInteraction_skip by exact Hguard
    | apply orb_false_elim in Hguard as [Hflag Hactive]; apply negb_false_iff in Hflag;
      rewrite trackInteraction_eq by assumption ]
  | destruct (negb (trackQuestions (config t)) || isCompleted t) eqn:Hguard;
    [ rewrite startQuestion_skip by exact Hguard
    | apply orb_false_elim in Hguard as [Hflag Hactive]; apply negb_false_iff in Hflag;
      rewrite startQuestion_eq by assumption ]
  | destruct (negb (trackQuestions (config t)) || isCompleted t) eqn:Hguard;
    [ rewrite answerQuestion_skip by exact Hguard
    | apply orb_false_elim in Hguard as [Hflag Hactive]; apply negb_false_iff in Hflag;
      rewrite answerQuestion_eq by assumption ]
  | destruct (negb (trackQuestions (config t)) || isCompleted t) eqn:Hguard;
    [ rewrite skipQuestion_skip by exact Hguard
    | apply orb_false_elim in Hguard as [Hflag Hactive]; apply negb_false_iff in Hflag;
      rewrite skipQuestion_eq by assumption ]
  | destruct (isCompleted t) eqn:Hactive;
    [ rewrite complete_skip by exact Hactive | rewrite complete_eq by exact Hactive ]
  | destruct (isCompleted t) eqn:Hactive;
    [ rewrite abandon_skip by exact Hactive | rewrite abandon_eq by exact Hactive ] ];
  cbn [fst snd this env].

Lemma call_same_session c t w :
  same_session t (this (exec (call c) {| this := t; env := w |})).
Proof.
  each_call t; try (repeat split; reflexivity).
  destruct correct; repeat split; reflexivity.
Qed.

Lemma call_isCompleted c t w :
  isCompleted t = true ->
  isCompleted (this (exec (call c) {| this := t; env := w |})) = true.
Proof.
  intros Hdone. unfold exec. rewrite call_completed by exact Hdone. exact Hdone.
Qed.

Lemma sent_more event senders w :
  exists more, delivered (sent event senders w) = delivered w ++ more.
Proof. rewrite sent_delivered. eauto. Qed.

Lemma emit_delivered detailed event senders w :
  delivered (emit detailed event senders w)
  = delivered w ++ (if detailed then map (fun cb => (cb_id cb, event)) senders else []).
Proof.
  unfold emit. destruct detailed; [apply sent_delivered | symmetry; apply app_nil_r].
Qed.

Lemma stored_delivered cfg s w : delivered (stored cfg s w) = delivered w.
Proof. unfold stored. destruct (persistSessionFlag cfg); reflexivity. Qed.

Lemma cleared_delivered handle w : delivered (cleared handle w) = delivered w.
Proof. destruct handle; reflexivity. Qed.

Lemma forgotten_delivered cfg w : delivered (forgotten cfg w) = delivered w.
Proof. unfold forgotten. destruct (persistSessionFlag cfg); reflexivity. Qed.

Lemma tick_delivered w : delivered (tick w) = delivered w.
Proof. reflexivity. Qed.

Lemma answer_clock_delivered t id w : delivered (answer_clock t id w) = delivered w.
Proof. unfold answer_clock. destruct (timed t id); reflexivity. Qed.

#[global] Hint Rewrite emit_delivered stored_delivered cleared_delivered
  forgotten_delivered tick_delivered answer_clock_delivered : browser.

Lemma grown_refl s : grown s s.
Proof. repeat split; exists []; symmetry; apply app_nil_r. Qed.

Lemma grown_trans s1 s2 s3 : grown s1 s2 -> grown s2 s3 -> grown s1 s3.
Proof.
  intros ((i1 & Hi1) & (q1 & Hq1) & (p1 & Hp1) & (d1 & Hd1))
         ((i2 & Hi2) & (q2 & Hq2) & (p2 & Hp2) & (d2 & Hd2)).
  repeat split.
  - exists (i1 ++ i2). rewrite Hi2, Hi1, <- app_assoc. reflexivity.
  - exists (q1 ++ q2). rewrite Hq2, Hq1, <- app_assoc. reflexivity.
  - exists (p1 ++ p2). rewrite Hp2, Hp1, <- app_assoc. reflexivity.
  - exists (d1 ++ d2). rewrite Hd2, Hd1, <- app_assoc. reflexivity.
Qed.

Lemma call_grown c t w :
  grown {| this := t; env := w |} (exec (call c) {| this := t; env := w |}).
Proof.
  each_call t; try apply grown_refl;
    unfold grown; cbn [this env state set_state set_isCompleted];
    autorewrite with browser; rewrite <- ?app_assoc.
  - repeat split; eauto. all: try (exists []; symmetry; apply app_nil_r).
  - repeat split; eauto. all: try (exists []; symmetry; apply app_nil_r).
  - unfold answered_state. destruct correct; cbn; repeat split; eauto.
    all: try (exists []; symmetry; apply app_nil_r).
  - repeat split; eauto. all: try (exists []; symmetry; apply app_nil_r).
  - repeat split; eauto. all: try (exists []; symmetry; apply app_nil_r).
  - repeat split; eauto. all: try (exists []; symmetry; apply app_nil_r).
Qed.

(** ** Histories, identity, counters *)

Lemma run_cons c calls s : run (c :: calls) s = run calls (exec (call c) s).
Proof. reflexivity. Qed.

Lemma same_session_refl t : same_session t t.
Proof. repeat split; reflexivity. Qed.

Lemma same_session_trans t1 t2 t3 :
  same_session t1 t2 -> same_session t2 t3 -> same_session t1 t3.
Proof.
  unfold same_session. intros (?&?&?&?&?&?&?) (?&?&?&?&?&?&?).
  repeat split; congruence.
Qed.

(** X1.  The histories only grow.  Whatever the store and the sequence of
    calls, the interactions, the question events, the posted messages and
    the listener calls after the calls are those before, followed by new
    entries: no call removes, reorders or rewrites a recorded entry. *)
Theorem histories_only_grow (calls : list Call) (s : St) : grown s (run calls s).
Proof.
  revert s. induction calls as [|c rest IH]; intros s; [apply grown_refl|].
  rewrite run_cons. eapply grown_trans; [|apply IH].
  destruct s as [t w]. apply call_grown.
Qed.

(** X2.  The identity of a session is stable.  No sequence of calls changes
    the configuration of the tracker, its listeners, its interval handle,
    or the [sessionId], [blockId], [startTime] and [slides] of its state;
    and a completed tracker stays completed. *)
Theorem session_identity_is_stable (calls : list Call) (s : St) :
  same_session (this s) (this (run calls s))
  /\ (isCompleted (this s) = true -> isCompleted (this (run calls s)) = true).
Proof.
  split.
  - revert s. induction calls as [|c rest IH]; intros s; [apply same_session_refl|].
    rewrite run_cons. eapply same_session_trans; [|apply IH].
    destruct s as [t w]. apply call_same_session.
  - intros Hdone. rewrite run_completed by exact Hdone. exact Hdone.
Qed.

Lemma fresh_session_interactions cfg w : interactions_counted (fresh_session cfg w).
Proof. reflexivity. Qed.

Lemma call_interactions_counted c t w :
  interactions_counted (state t) ->
  interactions_counted (state (this (exec (call c) {| this := t; env := w |}))).
Proof.
  unfold interactions_counted. intros Hinv.
  each_call t; try exact Hinv;
    cbn [state set_state set_isCompleted]; try exact Hinv.
  - cbn [incr_totalInteractions push_interaction st_totalInteractions interactions].
    unfold Z_length in *. rewrite length_app. cbn [length]. lia.
  - unfold answered_state. destruct correct; exact Hinv.
Qed.

Lemma run_interactions_counted calls s :
  interactions_counted (state (this s)) ->
  interactions_counted (state (this (run calls s))).
Proof.
  revert s. induction calls as [|c rest IH]; intros s Hinv; [exact Hinv|].
  rewrite run_cons. apply IH. destruct s as [t w]. apply call_interactions_counted, Hinv.
Qed.

Lemma track_run_order calls : forall s,
  forallb is_track calls = true ->
  trackInteractions (config (this s)) = true ->
  isCompleted (this s) = false ->
  map recorded (interactions (state (this (run calls s))))
  = map recorded (interactions (state (this s))) ++ map tracked calls.
Proof.
  induction calls as [|c rest IH]; intros s Hall Hon Hactive.
  - cbn [run fold_left map]. symmetry. apply app_nil_r.
  - cbn [forallb] in Hall. apply andb_true_iff in Hall as [Hc Hrest].
    rewrite run_cons. destruct s as [t w]. cbn [this] in *.
    destruct (track_step c t w Hc Hon Hactive) as (Hcfg & Hact & _).
    rewrite IH; [| exact Hrest | rewrite Hcfg; exact Hon | exact Hact].
    destruct c; try discriminate. unfold exec. cbn [call].
    rewrite trackInteraction_eq by assumption.
    cbn [snd this state set_state incr_totalInteractions push_interaction interactions map
         tracked].
    rewrite map_app, <- app_assoc. reflexivity.
Qed.

(** X3.  The interaction counter agrees with the recorded interactions.
    When the constructor restores no session, then after every sequence of
    calls [totalInteractions] is the number of recorded interaction
    events; and on such a tracker, when it records interactions, a
    sequence of [trackInteraction] calls leaves one event per call, in the
    order of the calls and with the kind, the element id, the element
    type, the duration and the data of its call, and the counter is the
    number of calls. *)
Theorem interactions_are_counted
    (c : BlockTrackerConfig) (w : World) (calls : list Call) :
  (if persistSessionFlag (with_defaults c)
   then stored_session (with_defaults c) w else None) = None ->
  exists t w',
    new_BlockTracker c w = (Returned t, w')
    /\ interactions_counted (state (this (run calls {| this := t; env := w' |})))
    /\ (trackInteractions (with_defaults c) = true ->
        forallb is_track calls = true ->
        st_totalInteractions (state (this (run calls {| this := t; env := w' |})))
        = Z_length calls
        /\ map recorded (interactions (state (this (run calls {| this := t; env := w' |}))))
           = map tracked calls).
Proof.
  intros Hfresh.
  destruct (new_BlockTracker_spec c w) as (t & w' & Hnew & Hcfg & Hstate & Hactive & _).
  exists t, w'. split; [exact Hnew|].
  assert (Hinit : state t = fresh_session (with_defaults c) w)
    by (rewrite Hstate; unfold initial_session; rewrite Hfresh; reflexivity).
  assert (Hinv : interactions_counted
                   (state (this (run calls {| this := t; env := w' |})))).
  { apply run_interactions_counted. cbn [this]. rewrite Hinit.
    apply fresh_session_interactions. }
  split; [exact Hinv|]. intros Hon Hall.
  pose proof (track_run_order calls {| this := t; env := w' |} Hall) as Horder.
  cbn [this] in Horder. rewrite Hcfg, Hinit in Horder.
  specialize (Horder Hon Hactive). cbn [fresh_session interactions map app] in Horder.
  split; [|exact Horder].
  unfold interactions_counted, Z_length in *. rewrite Hinv.
  rewrite <- (length_map recorded), Horder, length_map. reflexivity.
Qed.

Lemma interactions_are_counted_witness :
  let calls := [TrackInteraction click (Some "submit-button") None (Some "button") None;
                TrackInteraction input (Some "name")
                  (Some (JObj [("length", JNum 4)])) (Some "input") (Some 1200%Q);
                TrackInteraction submit None None None None] in
  (if persistSessionFlag (with_defaults persisting)
   then stored_session (with_defaults persisting) blank_page else None) = None
  /\ trackInteractions (with_defaults persisting) = true
  /\ forallb is_track calls = true
  /\ exists t w',
       new_BlockTracker persisting blank_page = (Returned t, w')
       /\ st_totalInteractions (state (this (run calls {| this := t; env := w' |}))) = 3
       /\ map (fun e => (ie_interactionType e, ie_elementId e, ie_elementType e,
                         ie_duration e, ie_data e))
              (interactions (state (this (run calls {| this := t; env := w' |}))))
          = [(click, Some "submit-button", Some "button", None, None);
             (input, Some "name", Some "input", Some 1200%Q,
              Some (JObj [("length", JNum 4)]));
             (submit, None, None, None, None)].
Proof.
  cbv zeta. do 3 (split; [reflexivity|]).
  destruct (interactions_are_counted persisting blank_page
              [TrackInteraction click (Some "submit-button") None (Some "button") None;
               TrackInteraction input (Some "name")
                 (Some (JObj [("length", JNum 4)])) (Some "input") (Some 1200%Q);
               TrackInteraction submit None None None None] eq_refl)
    as (t & w' & Hnew & _ & Hcount).
  exists t, w'. split; [exact Hnew|].
  destruct (Hcount eq_refl eq_refl) as (Htotal & Horder).
  split; [exact Htotal|].
  rewrite <- (map_map recorded
                (fun r => match r with
                          | Some r => (tr_interactionType r, tr_elementId r,
                                       tr_elementType r, tr_duration r, tr_data r)
                          | None => (click, None, None, None, None)
                          end)).
  rewrite Horder. reflexivity.
Defined.

(** ** Listeners *)

Lemma addEventListener_eq cb t w :
  addEventListener cb {| this := t; env := w |}
  = (Returned tt, {| this := set_eventSenders (eventSenders t ++ [cb]) t; env := w |}).
Proof. reflexivity. Qed.

Lemma removeEventListener_eq cb t w :
  removeEventListener cb {| this := t; env := w |}
  = (Returned tt,
     {| this := set_eventSenders
                  (List.filter (fun x => negb (Nat.eqb (cb_id x) (cb_id cb)))
                               (eventSenders t)) t;
        env := w |}).
Proof. reflexivity. Qed.

(** X4.  A listener is called from its registration on, after the
    listeners registered before it.  [addEventListener] itself posts
    nothing, calls nobody and stores nothing, on a completed tracker as on
    an active one; the next event that is sent reaches every earlier
    listener and then the new one.  Registrations are not deduplicated: a
    callback that was registered already is called once more. *)
Theorem added_listener_is_called_last
    (cb : EventSenderCallback) (event : BlockAnalyticsEvent) (t : BlockTracker) (w : World) :
  let s1 := exec (addEventListener cb) {| this := t; env := w |} in
  env s1 = w
  /\ state (this s1) = state t
  /\ isCompleted (this s1) = isCompleted t
  /\ eventSenders (this s1) = eventSenders t ++ [cb]
  /\ fst (sendEvent event s1) = Returned tt
  /\ delivered (env (exec (sendEvent event) s1))
     = delivered w ++ deliveries event (eventSenders t) ++ [(cb_id cb, event)].
Proof.
  cbv zeta. unfold exec. rewrite addEventListener_eq. cbn [snd env this].
  do 4 (split; [reflexivity|]).
  rewrite sendEvent_eq. cbn [fst snd env]. split; [reflexivity|].
  fold (sent event (eventSenders (set_eventSenders (eventSenders t ++ [cb]) t)) w).
  rewrite sent_delivered. cbn [eventSenders set_eventSenders]. unfold deliveries.
  rewrite map_app. reflexivity.
Qed.

Lemma deliveries_filter event cb senders :
  deliveries event (List.filter (fun x => negb (Nat.eqb (cb_id x) (cb_id cb))) senders)
  = List.filter (fun d => negb (Nat.eqb (fst d) (cb_id cb))) (deliveries event senders).
Proof.
  unfold deliveries. induction senders as [|x rest IH]; [reflexivity|].
  cbn [List.filter map fst]. destruct (negb (Nat.eqb (cb_id x) (cb_id cb)));
    cbn [map]; rewrite IH; reflexivity.
Qed.

(** X5.  A removed listener is not called again.  After
    [removeEventListener(cb)], which itself posts and stores nothing, an
    event that is sent reaches the remaining listeners in their order: the
    calls are those that would have been made, without the calls of [cb],
    however often [cb] was registered.  Removing twice is removing once. *)
Theorem removed_listener_is_not_called
    (cb : EventSenderCallback) (event : BlockAnalyticsEvent) (t : BlockTracker) (w : World) :
  let s1 := exec (removeEventListener cb) {| this := t; env := w |} in
  env s1 = w
  /\ state (this s1) = state t
  /\ delivered (env (exec (sendEvent event) s1))
     = delivered w
       ++ List.filter (fun d => negb (Nat.eqb (fst d) (cb_id cb)))
                      (deliveries event (eventSenders t))
  /\ Forall (fun x => cb_id x <> cb_id cb) (eventSenders (this s1))
  /\ exec (removeEventListener cb) s1 = s1.
Proof.
  cbv zeta. unfold exec. rewrite removeEventListener_eq. cbn [snd env this].
  do 2 (split; [reflexivity|]). split; [|split].
  - rewrite sendEvent_eq. cbn [snd env eventSenders set_eventSenders].
    match goal with |- context [notify event ?l (channel event w)] =>
      fold (sent event l w) end.
    rewrite sent_delivered. fold (deliveries event
      (List.filter (fun x => negb (Nat.eqb (cb_id x) (cb_id cb))) (eventSenders t))).
    rewrite deliveries_filter. reflexivity.
  - cbn [eventSenders set_eventSenders]. apply List.Forall_forall.
    intros x Hx. apply List.filter_In in Hx as [_ Hx].
    apply negb_true_iff, Nat.eqb_neq in Hx. exact Hx.
  - rewrite removeEventListener_eq. cbn [snd eventSenders set_eventSenders].
    f_equal. unfold set_eventSenders. cbn. f_equal.
    induction (eventSenders t) as [|x rest IH]; [reflexivity|].
    cbn [List.filter]. destruct (negb (Nat.eqb (cb_id x) (cb_id cb))) eqn:Hx;
      cbn [List.filter]; rewrite ?Hx, IH; reflexivity.
Qed.

Lemma filter_unregistered (cb : EventSenderCallback) (senders : list EventSenderCallback) :
  forallb (fun x => negb (Nat.eqb (cb_id x) (cb_id cb))) senders = true ->
  List.filter (fun x => negb (Nat.eqb (cb_id x) (cb_id cb))) senders = senders.
Proof.
  induction senders as [|x rest IH]; [reflexivity|]. cbn [forallb List.filter].
  intros H. apply andb_true_iff in H as [Hx Hrest]. rewrite Hx, IH by exact Hrest.
  reflexivity.
Qed.

(** X6.  Registration and removal undo each other.  For a callback that is
    not registered, [removeEventListener] leaves the whole store as it
    is, and [addEventListener] followed by [removeEventListener] gives
    back the store from before. *)
Theorem listener_added_then_removed
    (cb : EventSenderCallback) (s : St) :
  unregistered cb (this s) = true ->
  exec (removeEventListener cb) s = s
  /\ exec (removeEventListener cb) (exec (addEventListener cb) s) = s.
Proof.
  unfold unregistered. intros Hfree. destruct s as [t w]. cbn [this] in Hfree.
  unfold exec. rewrite addEventListener_eq, !removeEventListener_eq.
  cbn [snd]. split.
  - rewrite filter_unregistered by exact Hfree. destruct t; reflexivity.
  - rewrite removeEventListener_eq. cbn [snd eventSenders set_eventSenders].
    rewrite List.filter_app, filter_unregistered by exact Hfree.
    cbn [List.filter]. rewrite Nat.eqb_refl. cbn [negb]. rewrite app_nil_r.
    destruct t; reflexivity.
Qed.

Lemma listener_added_then_removed_witness :
  unregistered sound_listener listening_tracker = true
  /\ exec (removeEventListener sound_listener)
          (exec (addEventListener sound_listener)
                {| this := listening_tracker; env := blank_page |})
     = {| this := listening_tracker; env := blank_page |}.
Proof.
  split; [reflexivity|].
  apply (listener_added_then_removed sound_listener
           {| this := listening_tracker; env := blank_page |}).
  reflexivity.
Defined.

(** ** Persistence *)

Lemma call_localStorage c t w :
  localStorage (env (exec (call c) {| this := t; env := w |}))
  = if is_complete c
    then (if isCompleted t then localStorage w
          else if persistSessionFlag (config t)
               then delete (sessionStorageKey (config t)) (localStorage w)
               else localStorage w)
    else if records c t && persistSessionFlag (config t)
         then <[sessionStorageKey (config t) :=
                  JSON_stringify (state (this (exec (call c) {| this := t; env := w |})))]>
                (localStorage w)
         else localStorage w.
Proof.
  assert (Hskip : forall flag, negb flag || isCompleted t = true ->
            flag && negb (isCompleted t) = false)
    by (intros flag; destruct flag, (isCompleted t); cbn; congruence).
  unfold exec at 1.
  destruct c; cbn [call is_complete records].
  - destruct (negb (trackInteractions (config t)) || isCompleted t) eqn:Hguard.
    + rewrite (Hskip _ Hguard). unfold exec.
      rewrite !trackInteraction_skip by exact Hguard. reflexivity.
    + apply orb_false_elim in Hguard as [Hflag Hactive]. apply negb_false_iff in Hflag.
      unfold exec. rewrite !trackInteraction_eq by assumption. cbn [snd env this state set_state].
      autorewrite with browser. rewrite Hflag, Hactive. reflexivity.
  - destruct (negb (trackQuestions (config t)) || isCompleted t) eqn:Hguard.
    + rewrite (Hskip _ Hguard). unfold exec.
      rewrite !startQuestion_skip by exact Hguard. reflexivity.
    + apply orb_false_elim in Hguard as [Hflag Hactive]. apply negb_false_iff in Hflag.
      unfold exec. rewrite !startQuestion_eq by assumption. cbn [snd env this state set_state].
      autorewrite with browser. rewrite Hflag, Hactive. reflexivity.
  - destruct (negb (trackQuestions (config t)) || isCompleted t) eqn:Hguard.
    + rewrite (Hskip _ Hguard). unfold exec.
      rewrite !answerQuestion_skip by exact Hguard. reflexivity.
    + apply orb_false_elim in Hguard as [Hflag Hactive]. apply negb_false_iff in Hflag.
      unfold exec. rewrite !answerQuestion_eq by assumption. cbn [snd env this state set_state].
      autorewrite with browser. rewrite Hflag, Hactive. reflexivity.
  - destruct (negb (trackQuestions (config t)) || isCompleted t) eqn:Hguard.
    + rewrite (Hskip _ Hguard). unfold exec.
      rewrite !skipQuestion_skip by exact Hguard. reflexivity.
    + apply orb_false_elim in Hguard as [Hflag Hactive]. apply negb_false_iff in Hflag.
      unfold exec. rewrite !skipQuestion_eq by assumption. cbn [snd env this state set_state].
      autorewrite with browser. rewrite Hflag, Hactive. reflexivity.
  - destruct (isCompleted t) eqn:Hactive.
    + rewrite complete_skip by exact Hactive. reflexivity.
    + rewrite complete_eq by exact Hactive. cbn [snd env].
      autorewrite with browser. reflexivity.
  - cbn [andb]. apply (abandon_localStorage {| this := t; env := w |}).
Qed.

Lemma progressTick_eq t w :
  progressTick {| this := t; env := w |}
  = (Returned tt,
     {| this := t;
        env := if isCompleted t then w else stored (config t) (state t) w |}).
Proof.
  unfold progressTick, bind, gets. cbn [this].
  destruct (isCompleted t); cbn [negb]; [reflexivity | apply persistSession_eq].
Qed.

Lemma intervalFires_eq t w :
  intervalFires {| this := t; env := w |}
  = (Returned tt,
     {| this := t;
        env := if interval_live {| this := t; env := w |} && negb (isCompleted t)
               then stored (config t) (state t) w else w |}).
Proof.
  unfold intervalFires, interval_live, bind, gets. cbn [id this env].
  destruct (progressTimer t) as [handle|]; [|reflexivity].
  destruct (bool_decide (handle ∈ intervals w)); [|reflexivity].
  rewrite progressTick_eq. destruct (isCompleted t); reflexivity.
Qed.

Lemma unloadHandler_eq s : unloadHandler s = abandon s.
Proof.
  unfold unloadHandler, bind, gets. destruct (isCompleted (this s)) eqn:Hdone; cbn [negb].
  - symmetry. apply abandon_skip, Hdone.
  - reflexivity.
Qed.

(** X7.  Without persistence the storage is never touched.  On a tracker
    whose configuration has [persistSession] off, no sequence of calls, no
    firing of the progress interval and no page unload changes
    [localStorage]. *)
Theorem no_persistence_no_storage (calls : list Call) (s : St) :
  persistSessionFlag (config (this s)) = false ->
  localStorage (env (run calls s)) = localStorage (env s)
  /\ localStorage (env (exec intervalFires (run calls s))) = localStorage (env s)
  /\ localStorage (env (exec unloadHandler (run calls s))) = localStorage (env s).
Proof.
  intros Hoff.
  assert (Hrun : forall calls s, persistSessionFlag (config (this s)) = false ->
            localStorage (env (run calls s)) = localStorage (env s)
            /\ persistSessionFlag (config (this (run calls s))) = false).
  { clear. induction calls as [|c rest IH]; intros s Hoff; [split; [reflexivity | exact Hoff]|].
    rewrite run_cons. destruct s as [t w]. cbn [this env] in *.
    destruct (call_same_session c t w) as (Hcfg & _).
    destruct (IH (exec (call c) {| this := t; env := w |})) as [Hls Hflag];
      [rewrite Hcfg; exact Hoff|].
    split; [|exact Hflag]. rewrite Hls, call_localStorage, Hoff.
    rewrite andb_false_r. destruct (is_complete c), (isCompleted t); reflexivity. }
  destruct (Hrun calls s Hoff) as [Hls Hflag]. split; [exact Hls|].
  destruct (run calls s) as [t w] eqn:Hs. cbn [this env] in *. split.
  - unfold exec. rewrite intervalFires_eq. cbn [snd env].
    destruct (interval_live _ && negb (isCompleted t)); [|exact Hls].
    autorewrite with browser. rewrite Hflag. exact Hls.
  - unfold exec. rewrite unloadHandler_eq.
    pose proof (abandon_localStorage {| this := t; env := w |}) as Hsame.
    unfold exec in Hsame. rewrite Hsame. exact Hls.
Qed.

Lemma no_persistence_no_storage_witness :
  persistSessionFlag (config listening_tracker) = false
  /\ localStorage
       (env (run [TrackInteraction click None None None None; Complete None None None]
                 {| this := listening_tracker; env := blank_page |}))
     = localStorage blank_page.
Proof.
  split; [reflexivity|].
  exact (proj1 (no_persistence_no_storage
                  [TrackInteraction click None None None None; Complete None None None]
                  {| this := listening_tracker; env := blank_page |} eq_refl)).
Defined.

(** X8.  Persistence is write-through.  With [persistSession] on, a call
    that records an event leaves in storage, under the key of the
    tracker, exactly the state after the call.  A stored record that is
    the state of the tracker remains so through every call but
    [complete]: the record never lags behind the state. *)
Theorem persistence_is_write_through (c : Call) (s : St) :
  persistSessionFlag (config (this s)) = true ->
  (records c (this s) = true -> synced (exec (call c) s))
  /\ (is_complete c = false -> synced s -> synced (exec (call c) s)).
Proof.
  intros Hon. destruct s as [t w]. cbn [this] in *.
  destruct (call_same_session c t w) as (Hcfg & _).
  unfold synced. rewrite Hcfg, call_localStorage, Hon, andb_true_r. split.
  - intros Hrec. destruct c; try discriminate; cbn [is_complete];
      rewrite Hrec; apply lookup_insert_eq.
  - intros Hother. rewrite Hother. cbn [this env]. intros Hsynced.
    destruct (records c t) eqn:Hrec; [apply lookup_insert_eq|].
    rewrite Hsynced. do 2 f_equal.
    clear Hsynced Hcfg. destruct c; try discriminate; cbn [records] in Hrec; unfold exec; cbn [call].
    + rewrite trackInteraction_skip; [reflexivity|].
      cbn [this]. destruct (trackInteractions (config t)), (isCompleted t); cbn in *; congruence.
    + rewrite startQuestion_skip; [reflexivity|].
      cbn [this]. destruct (trackQuestions (config t)), (isCompleted t); cbn in *; congruence.
    + rewrite answerQuestion_skip; [reflexivity|].
      cbn [this]. destruct (trackQuestions (config t)), (isCompleted t); cbn in *; congruence.
    + rewrite skipQuestion_skip; [reflexivity|].
      cbn [this]. destruct (trackQuestions (config t)), (isCompleted t); cbn in *; congruence.
    + symmetry. apply (abandon_state {| this := t; env := w |}).
Qed.

Lemma persistence_is_write_through_witness :
  persistSessionFlag (config (this recorded_session)) = true
  /\ records (StartQuestion "q1" multiple_choice None) (this recorded_session) = true
  /\ synced (exec (call (StartQuestion "q1" multiple_choice None)) recorded_session).
Proof.
  assert (H1 : persistSessionFlag (config (this recorded_session)) = true)
    by (vm_compute; reflexivity).
  assert (H2 : records (StartQuestion "q1" multiple_choice None) (this recorded_session)
               = true) by (vm_compute; reflexivity).
  split; [exact H1|]. split; [exact H2|].
  exact (proj1 (persistence_is_write_through
                  (StartQuestion "q1" multiple_choice None) recorded_session H1) H2).
Defined.

(** X9.  A tracker touches its own key only.  Whatever else the page keeps
    in [localStorage], no call, no firing of the progress interval and no
    page unload changes what is stored under a key other than the
    tracker's [sessionStorageKey]. *)
Theorem other_keys_are_untouched (c : Call) (s : St) (key : string) :
  key <> sessionStorageKey (config (this s)) ->
  localStorage (env (exec (call c) s)) !! key = localStorage (env s) !! key
  /\ localStorage (env (exec intervalFires s)) !! key = localStorage (env s) !! key
  /\ localStorage (env (exec unloadHandler s)) !! key = localStorage (env s) !! key.
Proof.
  intros Hother. destruct s as [t w]. cbn [this env] in *. split; [|split].
  - rewrite call_localStorage.
    destruct (is_complete c), (isCompleted t), (records c t), (persistSessionFlag (config t));
      cbn [andb]; try reflexivity.
    all: try (apply lookup_delete_ne; congruence).
    all: apply lookup_insert_ne; congruence.
  - unfold exec. rewrite intervalFires_eq. cbn [snd env].
    destruct (interval_live _ && negb (isCompleted t)); [|reflexivity].
    autorewrite with browser. destruct (persistSessionFlag (config t)); [|reflexivity].
    apply lookup_insert_ne. congruence.
  - unfold exec. rewrite unloadHandler_eq.
    pose proof (abandon_localStorage {| this := t; env := w |}) as Hsame.
    unfold exec in Hsame. rewrite Hsame. reflexivity.
Qed.

Lemma other_keys_are_untouched_witness :
  "theme" <> sessionStorageKey (config (this recorded_session))
  /\ localStorage (env (exec (call (Complete None None None)) recorded_session)) !! "theme"
     = localStorage (env recorded_session) !! "theme".
Proof.
  assert (H : "theme" <> sessionStorageKey (config (this recorded_session)))
    by (vm_compute; discriminate).
  split; [exact H|].
  exact (proj1 (other_keys_are_untouched (Complete None None None) recorded_session
                  "theme" H)).
Defined.

(** ** The progress interval and the page unload *)

Lemma sent_intervals event senders w : intervals (sent event senders w) = intervals w.
Proof. unfold sent. rewrite notify_intervals. reflexivity. Qed.

Lemma notify_next_interval event senders w :
  next_interval (notify event senders w) = next_interval w.
Proof.
  revert senders w. apply notify_frame. intros cb w.
  unfold notify_one, exec, try_catch, call_sender, bind, modify, throw, ret, console_warn.
  cbn. destruct (cb_throws cb event); reflexivity.
Qed.

Lemma sent_next_interval event senders w :
  next_interval (sent event senders w) = next_interval w.
Proof. unfold sent. rewrite notify_next_interval. reflexivity. Qed.

(** X10.  The progress interval is silent.  When the browser fires the
    interval of a tracker, nothing is posted, no listener is called, the
    clock is not read and the tracker is unchanged.  When the interval is
    set, the session is not completed and persistence is on, the state is
    stored again: whatever the storage held under the key, it holds the
    state of the tracker afterwards. *)
Theorem progress_interval_is_silent (s : St) :
  let s' := exec intervalFires s in
  fst (intervalFires s) = Returned tt
  /\ this s' = this s
  /\ posted (env s') = posted (env s)
  /\ delivered (env s') = delivered (env s)
  /\ clock_reads (env s') = clock_reads (env s)
  /\ (interval_live s = true ->
      isCompleted (this s) = false ->
      persistSessionFlag (config (this s)) = true ->
      synced s').
Proof.
  destruct s as [t w]. cbv zeta. unfold exec, synced. rewrite intervalFires_eq.
  cbn [fst snd this env]. split; [reflexivity|]. split; [reflexivity|].
  destruct (interval_live {| this := t; env := w |}) eqn:Hlive;
    destruct (isCompleted t) eqn:Hdone; cbn [andb negb];
    autorewrite with browser; repeat split; try reflexivity; try discriminate.
  intros _ _ Hon. rewrite Hon. apply lookup_insert_eq.
Qed.

(** X11.  The end of a session stops the interval.  After [complete(...)]
    and after [abandon()], on any store, a firing of the interval changes
    nothing at all; and when the session was not completed before, the
    handle of the tracker is no longer among the intervals of the
    browser. *)
Theorem ended_session_stops_interval
    (s : St) (points maxPoints : option Q) (additionalData : option json) :
  let done := exec (complete points maxPoints additionalData) s in
  let left := exec abandon s in
  intervalFires done = (Returned tt, done)
  /\ intervalFires left = (Returned tt, left)
  /\ (isCompleted (this s) = false ->
      interval_live done = false /\ interval_live left = false).
Proof.
  cbv zeta.
  assert (Hnoop : forall s', isCompleted (this s') = true ->
            intervalFires s' = (Returned tt, s')).
  { intros [t' w'] Hdone. cbn [this] in Hdone. rewrite intervalFires_eq, Hdone.
    rewrite andb_false_r. reflexivity. }
  split; [apply Hnoop, complete_isCompleted|]. split; [apply Hnoop, abandon_isCompleted|].
  intros Hactive. destruct s as [t w]. cbn [this] in Hactive. unfold exec, interval_live.
  rewrite complete_eq, abandon_eq by exact Hactive.
  cbn [snd this env progressTimer set_isCompleted].
  destruct (progressTimer t) as [handle|]; [|split; reflexivity].
  assert (Hgone : forall X : gset positive, handle ∉ X ∖ {[handle]}).
  { intros X Hin. apply elem_of_difference in Hin as [_ Hout].
    apply Hout, elem_of_singleton. reflexivity. }
  split; apply bool_decide_eq_false.
  - unfold forgotten. destruct (persistSessionFlag (config t)); cbn; apply Hgone.
  - cbn. apply Hgone.
Qed.

Lemma new_BlockTracker_timer c w t w' :
  new_BlockTracker c w = (Returned t, w') ->
  if (0 <? progressUpdateInterval (with_defaults c))%Z
  then progressTimer t = Some (next_interval w)
       /\ intervals w' = {[next_interval w]} ∪ intervals w
  else progressTimer t = None /\ intervals w' = intervals w.
Proof.
  unfold new_BlockTracker.
  destruct (restoreOrCreateSession_eq (with_defaults c) w) as [lines Hrestore].
  cbv zeta in Hrestore. rewrite Hrestore. clear Hrestore.
  set (cfg := with_defaults c).
  set (w1 := match (if persistSessionFlag cfg then stored_session cfg w else None) with
             | Some _ => with_console (console w ++ lines) w
             | None => created (with_console (console w ++ lines) w)
             end).
  assert (Hw1 : intervals w1 = intervals w /\ next_interval w1 = next_interval w).
  { unfold w1. destruct (if persistSessionFlag cfg then stored_session cfg w else None);
      split; reflexivity. }
  destruct Hw1 as [Hset Hnext].
  unfold bind at 1. rewrite sendSessionEvent_eq.
  destruct (0 <? progressUpdateInterval cfg)%Z.
  - unfold bind, startProgressUpdates, setupUnloadHandler, bind, assign_this, modify, ret,
      in_env, setInterval. cbn [fst snd this env].
    intros [= <- <-]. cbn [progressTimer set_progressTimer intervals set_intervals].
    rewrite Hset, Hnext. split; reflexivity.
  - unfold bind, setupUnloadHandler, ret. cbn [fst snd this env].
    intros [= <- <-]. cbn [progressTimer]. rewrite sent_intervals.
    split; [reflexivity | exact Hset].
Qed.

(** X12.  The constructor sets the interval only for a positive period.
    The constructor returns a tracker.  With [progressUpdateInterval]
    positive (5000 by default) the tracker holds the handle that
    [setInterval] gave and the interval is set in the browser; with a
    period of zero or less the tracker holds no handle and no interval is
    set, so that the state is stored by the recorded calls only. *)
Theorem interval_set_for_positive_period (c : BlockTrackerConfig) (w : World) :
  exists t w',
    new_BlockTracker c w = (Returned t, w')
    /\ (0 < progressUpdateInterval (with_defaults c) ->
        progressTimer t = Some (next_interval w)
        /\ intervals w' = {[next_interval w]} ∪ intervals w
        /\ interval_live {| this := t; env := w' |} = true)
    /\ (progressUpdateInterval (with_defaults c) <= 0 ->
        progressTimer t = None
        /\ intervals w' = intervals w
        /\ interval_live {| this := t; env := w' |} = false).
Proof.
  destruct (new_BlockTracker_spec c w) as (t & w' & Hnew & _).
  exists t, w'. split; [exact Hnew|].
  pose proof (new_BlockTracker_timer c w t w' Hnew) as Htimer.
  unfold interval_live. cbn [this env].
  destruct (Z.ltb_spec 0 (progressUpdateInterval (with_defaults c))) as [Hpos|Hneg];
    destruct Htimer as [Hhandle Hset]; rewrite Hhandle, Hset.
  - split; [|lia]. intros _. do 2 (split; [reflexivity|]).
    apply bool_decide_eq_true, elem_of_union_l, elem_of_singleton. reflexivity.
  - split; [lia|]. intros _. repeat split; reflexivity.
Qed.

(** X13.  A page unload abandons the session once.  The unload handler does
    what [abandon()] does, on every store.  The browser fires it on
    [beforeunload] and on [pagehide]: the second firing changes nothing.
    On a session that is not completed the first firing posts one
    [abandoned] session event, to the window and to its parent, whose
    summary is not marked completed, carries no score, and has for
    [timeSpent] the reading of the clock less the [startTime] of the
    session; no detail is attached and no legacy event is sent. *)
Theorem unload_abandons_once (s : St) :
  let s1 := exec unloadHandler s in
  unloadHandler s = abandon s
  /\ unloadHandler s1 = (Returned tt, s1)
  /\ (isCompleted (this s) = false ->
      exists ev,
        posted (env s1) = posted (env s) ++ messages [BLOCK_SESSION ev]
        /\ se_eventType ev = SessionAbandoned
        /\ completed (summary ev) = false
        /\ score (summary ev) = None
        /\ maxScore (summary ev) = None
        /\ timeSpent (summary ev) = now (env s) - startTime (state (this s))
        /\ details ev = None).
Proof.
  cbv zeta. split; [apply unloadHandler_eq|]. unfold exec.
  rewrite !unloadHandler_eq. split.
  - apply abandon_skip. apply (abandon_isCompleted s).
  - intros Hactive. destruct s as [t w]. cbn [this env] in *.
    rewrite abandon_eq by exact Hactive. cbn [snd env].
    autorewrite with browser. eexists. split; [reflexivity|].
    repeat split.
Qed.

(** ** The order of the emitted events *)

Lemma messages_app events1 events2 :
  messages (events1 ++ events2) = messages events1 ++ messages events2.
Proof. unfold messages. apply flat_map_app. Qed.

(** A call either leaves the session as completed as it was and emits
    detail events, none with [sendDetailedEvents] off, or ends the
    session and emits its ending. *)
Lemma call_events c t w :
  let s' := exec (call c) {| this := t; env := w |} in
  exists events,
    posted (env s') = posted w ++ messages events
    /\ ((isCompleted (this s') = isCompleted t
         /\ forallb is_detail events = true
         /\ (sendDetailedEvents (config t) = false -> events = []))
        \/ (isCompleted (this s') = true
            /\ events <> []
            /\ is_ending events = true)).
Proof.
  cbv zeta. each_call t; autorewrite with browser.
  all: try (exists []; split; [symmetry; apply app_nil_r|]; left;
            repeat split; intros; first [reflexivity | assumption]).
  1-4: destruct (sendDetailedEvents (config t));
       [ eexists [_]; split; [reflexivity|]; left; repeat split; discriminate
       | exists []; split; [reflexivity|]; left; repeat split; intros; reflexivity ].
  - destruct (sendLegacyEvent (config t)).
    + eexists [_; _]. split; [rewrite <- ?app_assoc; reflexivity|].
      right. repeat split. discriminate.
    + eexists [_]. split; [rewrite ?app_nil_r; reflexivity|].
      right. repeat split. discriminate.
  - eexists [_]. split; [reflexivity|]. right. repeat split. discriminate.
Qed.

(** X14.  Nothing follows the end of a session.  The events that a
    sequence of calls emits, each to the window and then to its parent,
    are interaction and question events followed by the ending of the
    session: nothing, or one [completed] or [abandoned] session event, or
    one [completed] session event and then one legacy completion event.
    So a session ends at most once and no event is emitted after its end.
    With [sendDetailedEvents] off there is no interaction or question
    event at all, and on a completed tracker nothing is emitted. *)
Theorem nothing_follows_the_end (calls : list Call) (s : St) :
  exists details ending,
    posted (env (run calls s)) = posted (env s) ++ messages (details ++ ending)
    /\ forallb is_detail details = true
    /\ is_ending ending = true
    /\ (sendDetailedEvents (config (this s)) = false -> details = [])
    /\ (isCompleted (this s) = true -> details = [] /\ ending = []).
Proof.
  revert s. induction calls as [|c rest IH]; intros s.
  - exists [], []. cbn [run fold_left app messages flat_map].
    rewrite app_nil_r. repeat split; reflexivity.
  - rewrite run_cons. destruct s as [t w]. cbn [this env].
    destruct (call_events c t w) as (events & Hposted & Hcase).
    destruct (call_same_session c t w) as (Hcfg & _).
    destruct Hcase as [(Hsame & Hdetail & Hquiet) | (Hdone & Hne & Hending)].
    + destruct (IH (exec (call c) {| this := t; env := w |}))
        as (details & ending & Hrest & Hd & He & Hq & Hc).
      exists (events ++ details), ending.
      split; [rewrite Hrest, Hposted, !messages_app, <- ?app_assoc; reflexivity|].
      split; [rewrite forallb_app, Hdetail, Hd; reflexivity|].
      split; [exact He|]. split.
      * intros Hoff. rewrite Hquiet by exact Hoff. rewrite Hq; [reflexivity|].
        rewrite Hcfg. exact Hoff.
      * intros Hcompleted. destruct Hc as [-> ->]; [rewrite Hsame; exact Hcompleted|].
        split; [|reflexivity].
        pose proof (call_completed c {| this := t; env := w |} Hcompleted) as Hnoop.
        unfold exec in Hposted. rewrite Hnoop in Hposted. cbn [snd env] in Hposted.
        rewrite app_nil_r.
        destruct events as [|e events]; [reflexivity|].
        apply (f_equal (@length _)) in Hposted. rewrite length_app in Hposted.
        cbn in Hposted. lia.
    + exists [], events. rewrite run_completed by exact Hdone.
      split; [exact Hposted|]. split; [reflexivity|]. split; [exact Hending|].
      split; [reflexivity|]. intros Hcompleted. split; [reflexivity|].
      pose proof (call_completed c {| this := t; env := w |} Hcompleted) as Hnoop.
      unfold exec in Hposted. rewrite Hnoop in Hposted. cbn [snd env] in Hposted.
      destruct events as [|e events]; [reflexivity|].
      apply (f_equal (@length _)) in Hposted. rewrite length_app in Hposted.
      cbn in Hposted. lia.
Qed.

(** ** The events of a completion *)

(** X15.  What [complete] emits.  On a session that is not completed,
    [complete(score, maxScore, additionalData)] posts one [completed]
    session event and, when [sendLegacyEvent] is on, one legacy completion
    event after it.  The summary is marked completed and carries the score
    and the maximal score of the call and, as [timeSpent], the reading of
    the clock less the [startTime] of the session; the interactions, the
    questions and the slides of the session are attached exactly when
    [sendSummaryEvent] is on.  The legacy event carries the same score,
    maximal score and time.  The additional data reach the legacy event
    only: the session event is the same whatever they are. *)
Theorem completion_events_agree
    (t : BlockTracker) (w : World) (points maxPoints : option Q) :
  isCompleted t = false ->
  exists ev,
    se_eventType ev = SessionCompleted
    /\ completed (summary ev) = true
    /\ score (summary ev) = points
    /\ maxScore (summary ev) = maxPoints
    /\ timeSpent (summary ev) = now w - startTime (state t)
    /\ details ev
       = (if sendSummaryEvent (config t)
          then Some {| det_interactions := Some (interactions (state t));
                       det_questions := Some (questions (state t));
                       det_slides := Some (slides (state t)) |}
          else None)
    /\ forall additionalData,
         posted (env (exec (complete points maxPoints additionalData)
                           {| this := t; env := w |}))
         = posted w
           ++ messages
                (BLOCK_SESSION ev
                 :: if sendLegacyEvent (config t)
                    then [BLOCK_COMPLETION
                            {| lg_completed := true;
                               lg_score := score (summary ev);
                               lg_maxScore := maxScore (summary ev);
                               lg_timeSpent := Some (timeSpent (summary ev));
                               lg_timestamp := None;
                               lg_data := additionalData |}]
                    else []).
Proof.
  intros Hactive.
  exists (sessionEvent (set_isCompleted true t) SessionCompleted
            (completion_data t w points maxPoints None) (tick w)).
  do 5 (split; [reflexivity|]). split; [reflexivity|].
  intros additionalData. unfold exec. rewrite complete_eq by exact Hactive.
  cbn [snd env]. autorewrite with browser.
  destruct (sendLegacyEvent (config t)); rewrite <- ?app_assoc; reflexivity.
Qed.

Lemma completion_events_agree_witness :
  isCompleted (this recorded_session) = false
  /\ exists ev,
       se_eventType ev = SessionCompleted
       /\ score (summary ev) = Some 1%Q
       /\ forall additionalData,
            posted (env (exec (complete (Some 1%Q) (Some 2%Q) additionalData)
                              {| this := this recorded_session;
                                 env := env recorded_session |}))
            = posted (env recorded_session)
              ++ messages
                   (BLOCK_SESSION ev
                    :: if sendLegacyEvent (config (this recorded_session))
                       then [BLOCK_COMPLETION
                               {| lg_completed := true;
                                  lg_score := score (summary ev);
                                  lg_maxScore := maxScore (summary ev);
                                  lg_timeSpent := Some (timeSpent (summary ev));
                                  lg_timestamp := None;
                                  lg_data := additionalData |}]
                       else []).
Proof.
  assert (H : isCompleted (this recorded_session) = false) by (vm_compute; reflexivity).
  split; [exact H|].
  destruct (completion_events_agree (this recorded_session) (env recorded_session)
              (Some 1%Q) (Some 2%Q) H)
    as (ev & Hkind & _ & Hscore & _ & _ & _ & Hposted).
  exists ev. split; [exact Hkind|]. split; [exact Hscore | exact Hposted].
Defined.

(** ** The counts of the summary *)

Lemma emitted_summaries_satisfy (P : list QuestionEvent -> SessionSummary -> Prop) :
  (forall s kind data spent, P (questions s) (sessionSummary s kind data spent)) ->
  (forall c w, exists t w' ev,
      new_BlockTracker c w = (Returned t, w')
      /\ posted w' = posted w ++ messages [BLOCK_SESSION ev]
      /\ P (questions (state t)) (summary ev))
  /\ (forall c t w, exists events,
        posted (env (exec (call c) {| this := t; env := w |}))
        = posted w ++ messages events
        /\ Forall (summary_has P (questions (state t))) events).
Proof.
  intros Hall. split.
  - intros c w.
    destruct (new_BlockTracker_spec c w)
      as (t & w' & Hnew & _ & _ & _ & _ & _ & _ & _ & ev & Hposted & _ & Hbuilt).
    exists t, w', ev. split; [exact Hnew|]. split; [exact Hposted|].
    destruct Hbuilt as (_ & _ & data & spent & ->). apply Hall.
  - intros c t w. destruct (call_emits c t w) as (events & Hposted & Hbuilt).
    exists events. split; [exact Hposted|].
    revert Hbuilt. apply List.Forall_impl.
    intros [ev| | |]; cbn [built_by summary_has]; [|trivial..].
    intros (_ & _ & data & spent & ->). apply Hall.
Qed.

Lemma count_incorrect_filter (qs : list QuestionEvent) :
  Z_length (List.filter (fun q => negb (is_correct q)) (List.filter is_answered qs))
  = count_where answered_incorrectly qs.
Proof.
  unfold Z_length. induction qs as [|q qs IH]; cbn [List.filter count_where]; [reflexivity|].
  unfold answered_incorrectly at 1.
  destruct (is_answered q); cbn [List.filter andb]; [|lia].
  destruct (negb (is_correct q)); cbn [length]; lia.
Qed.

Lemma count_answered_split (qs : list QuestionEvent) :
  count_where answered_correctly qs + count_where answered_incorrectly qs
  = count_where is_answered qs.
Proof.
  induction qs as [|q qs IH]; cbn [count_where]; [reflexivity|].
  unfold answered_correctly at 1, answered_incorrectly at 1, is_correct.
  destruct (is_answered q), (isCorrect q) as [[|]|]; cbn [andb negb]; lia.
Qed.

Lemma count_attempted_bound (qs : list QuestionEvent) :
  count_where is_answered qs + count_where is_skipped qs <= Z_length qs.
Proof.
  unfold Z_length. induction qs as [|q qs IH]; cbn [count_where length]; [lia|].
  unfold is_answered at 1, is_skipped at 1.
  destruct (eventType q); cbn [QuestionEventType_eqb]; lia.
Qed.

Lemma summary_counts_partition s kind data spent :
  counts_partition (questions s) (sessionSummary s kind data spent).
Proof.
  unfold counts_partition, sessionSummary.
  cbn [questionsCorrect questionsIncorrect questionsSkipped questionsAttempted].
  rewrite count_correct_filter, count_incorrect_filter, !count_where_filter.
  pose proof (count_answered_split (questions s)) as Hsplit.
  pose proof (count_attempted_bound (questions s)) as Hbound.
  repeat split; try reflexivity; try lia.
  rewrite Hsplit. reflexivity.
Qed.

(** X16.  The counts of a summary partition the attempted questions.  In
    the summary of every session event that the constructor or a call
    emits, [questionsCorrect], [questionsIncorrect] and [questionsSkipped]
    count the answered events with a true [isCorrect], the answered
    events with a false or absent [isCorrect], and the skipped events;
    [questionsAttempted] is their sum; correct and incorrect together are
    the answered events; and started events are counted nowhere, so that
    the attempted questions are at most the question events. *)
Theorem summary_counts_partition_attempts :
  (forall c w, exists t w' ev,
      new_BlockTracker c w = (Returned t, w')
      /\ posted w' = posted w ++ messages [BLOCK_SESSION ev]
      /\ counts_partition (questions (state t)) (summary ev))
  /\ (forall c t w, exists events,
        posted (env (exec (call c) {| this := t; env := w |}))
        = posted w ++ messages events
        /\ Forall (summary_has counts_partition (questions (state t))) events).
Proof. apply emitted_summaries_satisfy, summary_counts_partition. Qed.

Lemma fraction_bounds (c a : Z) :
  0 <= c <= a -> 0 < a ->
  (0 <= inject_Z c / inject_Z a)%Q /\ (inject_Z c / inject_Z a <= 1)%Q.
Proof.
  intros [Hc Hca] Ha.
  assert (Hpos : (0 < inject_Z a)%Q)
    by (change 0%Q with (inject_Z 0); rewrite <- Zlt_Qlt; exact Ha).
  split.
  - apply Qle_shift_div_l; [exact Hpos|]. rewrite Qmult_0_l.
    change 0%Q with (inject_Z 0). rewrite <- Zle_Qle. exact Hc.
  - apply Qle_shift_div_r; [exact Hpos|]. rewrite Qmult_1_l.
    rewrite <- Zle_Qle. exact Hca.
Qed.

Lemma summary_accuracy_is_fraction s kind data spent :
  accuracy_is_fraction (questions s) (sessionSummary s kind data spent).
Proof.
  unfold accuracy_is_fraction. rewrite summary_accuracyRate. unfold accuracy_of.
  pose proof (count_where_nonneg is_answered (questions s)) as Ha.
  pose proof (count_where_nonneg answered_correctly (questions s)) as Hc.
  pose proof (count_where_nonneg answered_incorrectly (questions s)) as Hi.
  pose proof (count_answered_split (questions s)) as Hsplit.
  destruct (Z.eqb_spec (count_where is_answered (questions s)) 0) as [Hzero|Hsome];
    [exact Hzero|].
  destruct (fraction_bounds (count_where answered_correctly (questions s))
              (count_where is_answered (questions s))) as [Hlow Hhigh]; [lia | lia |].
  split; [exact Hlow|]. split; [exact Hhigh | lia].
Qed.

(** X17.  The accuracy is a fraction between zero and one.  In the summary
    of every emitted session event, [accuracyRate] is defined exactly when
    the session has an answered question event, and then lies between 0
    and 1, as the comment on the field in [SessionSummary] says. *)
Theorem accuracy_rate_is_a_fraction :
  (forall c w, exists t w' ev,
      new_BlockTracker c w = (Returned t, w')
      /\ posted w' = posted w ++ messages [BLOCK_SESSION ev]
      /\ accuracy_is_fraction (questions (state t)) (summary ev))
  /\ (forall c t w, exists events,
        posted (env (exec (call c) {| this := t; env := w |}))
        = posted w ++ messages events
        /\ Forall (summary_has accuracy_is_fraction (questions (state t))) events).
Proof. apply emitted_summaries_satisfy, summary_accuracy_is_fraction. Qed.

Lemma or_zero_Q_value (o : option Q) :
  (or_zero_Q o == match o with Some h => h | None => 0 end)%Q.
Proof.
  destruct o as [h|]; cbn; [|reflexivity].
  destruct (Qeq_bool h 0) eqn:Hzero; [|reflexivity].
  apply Qeq_bool_eq in Hzero. symmetry. exact Hzero.
Qed.

Lemma fold_hints (qs : list QuestionEvent) (acc : Q) :
  (fold_left (fun sum q => (sum + or_zero_Q (hintsUsed q))%Q) qs acc
   == acc + hints_sum qs)%Q.
Proof.
  revert acc. induction qs as [|q qs IH]; intros acc; cbn [fold_left hints_sum].
  - ring.
  - rewrite IH, or_zero_Q_value. ring.
Qed.

Lemma summary_hints_are_summed s kind data spent :
  hints_are_summed (questions s) (sessionSummary s kind data spent).
Proof.
  eexists. split; [reflexivity|]. rewrite fold_hints. ring.
Qed.

(** X18.  The hints are summed over every question event.  Take a
    session whose [hintsUsed] are counts: each is absent or a whole number
    that is not negative, and their sum is at most [2^53], so that the
    additions of the source are exact.  Then in the summary of every
    session event that the constructor or a call emits, [hintsUsedTotal]
    is defined and equals the sum of [hintsUsed] over all the question
    events of the session, whether started, answered or skipped, an event
    without [hintsUsed] counting for zero. *)
Theorem hints_total_sums_all_events :
  (forall c w, exists t w' ev,
      new_BlockTracker c w = (Returned t, w')
      /\ posted w' = posted w ++ messages [BLOCK_SESSION ev]
      /\ (hints_are_counts (questions (state t)) = true ->
          hints_are_summed (questions (state t)) (summary ev)))
  /\ (forall c t w,
        hints_are_counts (questions (state t)) = true ->
        exists events,
          posted (env (exec (call c) {| this := t; env := w |}))
          = posted w ++ messages events
          /\ Forall (summary_has hints_are_summed (questions (state t))) events).
Proof.
  destruct (emitted_summaries_satisfy hints_are_summed summary_hints_are_summed)
    as (Hnew & Hcall).
  split.
  - intros c w. destruct (Hnew c w) as (t & w' & ev & Hbuilt & Hposted & Hsum).
    exists t, w', ev. split; [exact Hbuilt|]. split; [exact Hposted|].
    intros _. exact Hsum.
  - intros c t w _. exact (Hcall c t w).
Qed.

Lemma hints_total_sums_all_events_witness :
  hints_are_counts (questions (state (this hinted_session))) = true
  /\ (hints_sum (questions (state (this hinted_session))) == 3)%Q
  /\ exists events,
       posted (env (exec (call (Complete None None None))
                         {| this := this hinted_session; env := env hinted_session |}))
       = posted (env hinted_session) ++ messages events
       /\ Forall (summary_has hints_are_summed
                              (questions (state (this hinted_session)))) events.
Proof.
  split; [reflexivity|]. split; [reflexivity|].
  exact (proj2 hints_total_sums_all_events (Complete None None None)
               (this hinted_session) (env hinted_session) eq_refl).
Defined.

(** ** The shape of the recorded events *)

Lemma call_well_recorded c t w :
  well_recorded (config t) (sessionId (state t)) (state t) ->
  well_recorded (config t) (sessionId (state t))
                (state (this (exec (call c) {| this := t; env := w |}))).
Proof.
  intros (Hq & Hi & Hs).
  each_call t; cbn [state set_state set_isCompleted]; try (split; [|split]; assumption).
  - split; [exact Hq|]. split; [|exact Hs].
    cbn [incr_totalInteractions push_interaction interactions].
    apply Forall_app. split; [exact Hi|]. repeat constructor.
  - split; [|split; [exact Hi | exact Hs]].
    cbn [push_question set_currentQuestionStartTime set_currentQuestionId questions].
    apply Forall_app. split; [exact Hq|]. repeat constructor.
  - unfold answered_state. split; [|split].
    + destruct correct; cbn; apply Forall_app; (split; [exact Hq|]);
        repeat constructor; cbn; eauto.
    + destruct correct; exact Hi.
    + destruct correct; exact Hs.
  - split; [|split; [exact Hi | exact Hs]].
    cbn [push_question questions].
    apply Forall_app. split; [exact Hq|]. repeat constructor.
Qed.

Lemma run_well_recorded calls : forall s,
  well_recorded (config (this s)) (sessionId (state (this s))) (state (this s)) ->
  well_recorded (config (this s)) (sessionId (state (this s)))
                (state (this (run calls s))).
Proof.
  induction calls as [|c rest IH]; intros s Hinv; [exact Hinv|].
  rewrite run_cons. destruct s as [t w]. cbn [this] in *.
  destruct (call_same_session c t w) as (Hcfg & _ & _ & Hsid & _).
  rewrite <- Hcfg, <- Hsid. apply IH. rewrite Hcfg, Hsid.
  apply call_well_recorded, Hinv.
Qed.

Lemma call_questions_held c t w :
  keeps_open c = true ->
  trackQuestions (config t) = true ->
  isCompleted t = false ->
  let s' := exec (call c) {| this := t; env := w |} in
  isCompleted (this s') = false
  /\ map held (questions (state (this s'))) = map held (questions (state t)) ++ asked c.
Proof.
  intros Hopen Hon Hactive. cbv zeta. unfold exec.
  destruct c; try discriminate; cbn [call asked].
  - destruct (trackInteractions (config t)) eqn:Htrack.
    + rewrite trackInteraction_eq by assumption.
      cbn [snd this state set_state isCompleted incr_totalInteractions push_interaction
           questions].
      rewrite app_nil_r. split; [exact Hactive | reflexivity].
    + rewrite trackInteraction_skip by (cbn [this]; rewrite Htrack; reflexivity).
      cbn [snd this]. rewrite app_nil_r. split; [exact Hactive | reflexivity].
  - rewrite startQuestion_eq by assumption.
    cbn [snd this state set_state isCompleted push_question set_currentQuestionStartTime
         set_currentQuestionId questions].
    rewrite map_app. split; [exact Hactive | reflexivity].
  - rewrite answerQuestion_eq by assumption.
    cbn [snd this state set_state isCompleted]. unfold answered_state.
    split; [exact Hactive|].
    destruct correct; cbn; rewrite map_app; reflexivity.
  - rewrite skipQuestion_eq by assumption.
    cbn [snd this state set_state isCompleted push_question questions].
    rewrite map_app. split; [exact Hactive | reflexivity].
Qed.

Lemma run_questions_held calls : forall s,
  forallb keeps_open calls = true ->
  trackQuestions (config (this s)) = true ->
  isCompleted (this s) = false ->
  map held (questions (state (this (run calls s))))
  = map held (questions (state (this s))) ++ flat_map asked calls.
Proof.
  induction calls as [|c rest IH]; intros s Hall Hon Hactive.
  - cbn [run fold_left flat_map]. symmetry. apply app_nil_r.
  - cbn [forallb] in Hall. apply andb_true_iff in Hall as [Hc Hrest].
    rewrite run_cons. destruct s as [t w]. cbn [this] in *.
    destruct (call_questions_held c t w Hc Hon Hactive) as (Hstill & Hheld).
    destruct (call_same_session c t w) as (Hcfg & _).
    rewrite IH; [| exact Hrest | rewrite Hcfg; exact Hon | exact Hstill].
    rewrite Hheld. cbn [flat_map]. rewrite <- app_assoc. reflexivity.
Qed.

(** X19.  The recorded events belong to the session, have the shape of
    their kind and hold what the calls handed over.  When the constructor
    restores no session, then after every sequence of calls every
    recorded question event and every recorded interaction carries the
    [sessionId] of the session and the [blockId] of the configuration; a
    started or a skipped event carries no time, answer, verdict, score,
    attempt number or hints; an answered event carries a verdict and both
    scores; no [reviewed] event and no slide is ever recorded.  When
    questions are tracked and no call ends the session, the question
    events are those of the question calls, one for one and in their
    order: each holds the id, the type, the text, the answer, the expected
    answer, the verdict, the scores, the attempt number and the hints of
    its call, an answer or an expected answer that is [undefined] being
    recorded as such. *)
Theorem recorded_events_are_well_formed
    (c : BlockTrackerConfig) (w : World) (calls : list Call) :
  (if persistSessionFlag (with_defaults c)
   then stored_session (with_defaults c) w else None) = None ->
  exists t w',
    new_BlockTracker c w = (Returned t, w')
    /\ well_recorded (with_defaults c) (sessionId (state t))
                     (state (this (run calls {| this := t; env := w' |})))
    /\ (trackQuestions (with_defaults c) = true ->
        forallb keeps_open calls = true ->
        map held (questions (state (this (run calls {| this := t; env := w' |}))))
        = flat_map asked calls).
Proof.
  intros Hfresh.
  destruct (new_BlockTracker_spec c w) as (t & w' & Hnew & Hcfg & Hstate & Hactive & _).
  exists t, w'. split; [exact Hnew|].
  assert (Hinit : state t = fresh_session (with_defaults c) w)
    by (rewrite Hstate; unfold initial_session; rewrite Hfresh; reflexivity).
  split.
  - pose proof (run_well_recorded calls {| this := t; env := w' |}) as Hrun.
    cbn [this] in Hrun. rewrite Hcfg in Hrun. apply Hrun.
    rewrite Hinit. repeat split; constructor.
  - intros Hon Hall.
    pose proof (run_questions_held calls {| this := t; env := w' |} Hall) as Hheld.
    cbn [this] in Hheld. rewrite Hcfg, Hinit in Hheld.
    exact (Hheld Hon Hactive).
Qed.

Lemma recorded_events_are_well_formed_witness :
  let calls := [StartQuestion "q1" multiple_choice (Some "2 + 2 = ?");
                TrackInteraction click (Some "hint") None (Some "button") None;
                AnswerQuestion "q1" (Some (JStr "5")) (Some (JStr "4")) false 0 1
                  (Some {| o_questionType := Some fill_blank;
                           o_questionText := None;
                           o_attemptNumber := Some 2%Q;
                           o_hintsUsed := Some 1%Q |});
                AnswerQuestion "q2" None (Some (JStr "A")) false 0 1 None;
                SkipQuestion "q3" None] in
  (if persistSessionFlag (with_defaults persisting)
   then stored_session (with_defaults persisting) blank_page else None) = None
  /\ trackQuestions (with_defaults persisting) = true
  /\ forallb keeps_open calls = true
  /\ exists t w',
       new_BlockTracker persisting blank_page = (Returned t, w')
       /\ well_recorded (with_defaults persisting) (sessionId (state t))
                        (state (this (run calls {| this := t; env := w' |})))
       /\ map (fun q => (eventType q, questionId q, answer q, correctAnswer q))
              (questions (state (this (run calls {| this := t; env := w' |}))))
          = [(QuestionStarted, "q1", None, None);
             (QuestionAnswered, "q1", Some (JStr "5"), Some (JStr "4"));
             (QuestionAnswered, "q2", None, Some (JStr "A"));
             (QuestionSkipped, "q3", None, None)].
Proof.
  cbv zeta. do 3 (split; [reflexivity|]).
  destruct (recorded_events_are_well_formed persisting blank_page
              [StartQuestion "q1" multiple_choice (Some "2 + 2 = ?");
               TrackInteraction click (Some "hint") None (Some "button") None;
               AnswerQuestion "q1" (Some (JStr "5")) (Some (JStr "4")) false 0 1
                 (Some {| o_questionType := Some fill_blank;
                          o_questionText := None;
                          o_attemptNumber := Some 2%Q;
                          o_hintsUsed := Some 1%Q |});
               AnswerQuestion "q2" None (Some (JStr "A")) false 0 1 None;
               SkipQuestion "q3" None] eq_refl)
    as (t & w' & Hnew & Hwell & Hheld).
  exists t, w'. split; [exact Hnew|]. split; [exact Hwell|].
  specialize (Hheld eq_refl eq_refl).
  rewrite <- (map_map held
                (fun a => (as_eventType a, as_questionId a, as_answer a, as_correctAnswer a))).
  rewrite Hheld. reflexivity.
Defined.

(** ** The time to answer *)

Lemma last_question_answer id given expected correct points maxPoints options t w :
  trackQuestions (config t) = true -> isCompleted t = false ->
  last_question (exec (answerQuestion id given expected correct points maxPoints options)
                      {| this := t; env := w |})
  = Some (answeredEvent t w id given expected correct points maxPoints options).
Proof.
  intros Hon Hactive. unfold exec, last_question.
  rewrite answerQuestion_eq by assumption. cbn [snd this state set_state].
  unfold answered_state. destruct correct; cbn; apply last_snoc.
Qed.

Lemma startQuestion_store id type text t w :
  trackQuestions (config t) = true -> isCompleted t = false ->
  exists t1 w1,
    exec (startQuestion id type text) {| this := t; env := w |}
    = {| this := t1; env := w1 |}
    /\ trackQuestions (config t1) = true
    /\ isCompleted t1 = false
    /\ currentQuestionId (state t1) = Some id
    /\ currentQuestionStartTime (state t1) = Some (now w)
    /\ clock w1 = clock w
    /\ clock_reads w1 = S (S (clock_reads w)).
Proof.
  intros Hon Hactive. unfold exec. rewrite startQuestion_eq by assumption. cbn [snd].
  eexists _, _. split; [reflexivity|]. cbn [config set_state isCompleted state].
  do 4 (split; [first [assumption | reflexivity]|]).
  autorewrite with browser. split; reflexivity.
Qed.

Lemma answer_timeToAnswer id given expected correct points maxPoints options t w :
  trackQuestions (config t) = true -> isCompleted t = false ->
  timeToAnswer <$> last_question
    (exec (answerQuestion id given expected correct points maxPoints options)
          {| this := t; env := w |})
  = Some (if timed t id
          then Some (now w - nullish (currentQuestionStartTime (state t)) 0)
          else None).
Proof.
  intros Hon Hactive. rewrite last_question_answer by assumption. reflexivity.
Qed.

Lemma answer_closes id given expected correct points maxPoints options t w :
  trackQuestions (config t) = true -> isCompleted t = false ->
  exists t1 w1,
    exec (answerQuestion id given expected correct points maxPoints options)
         {| this := t; env := w |}
    = {| this := t1; env := w1 |}
    /\ trackQuestions (config t1) = true
    /\ isCompleted t1 = false
    /\ currentQuestionId (state t1) = None.
Proof.
  intros Hon Hactive. unfold exec. rewrite answerQuestion_eq by assumption. cbn [snd].
  eexists _, _. split; [reflexivity|]. cbn [config set_state isCompleted state].
  do 2 (split; [assumption|]). reflexivity.
Qed.

(** X20.  The time to answer is measured from the start of the same
    question.  On a tracker that records questions, [startQuestion(id)]
    followed by [answerQuestion(id)] records an answered event whose
    [timeToAnswer] is the clock reading at the answer less the reading at
    the start; there is no [timeToAnswer] in the single case that the
    clock read 0 at the start, a start time of 0 counting as none.  With
    a clock that does not run backwards the time is not negative.  The
    answer clears the open question, so that a second answer for the same
    id carries no time. *)
Theorem answer_time_is_measured
    (t : BlockTracker) (w : World) (id : string) (type : QuestionType)
    (text : option string) (given expected : option json) (correct : bool)
    (points maxPoints : Q) (options : option AnswerOptions) :
  recording t = true ->
  let answering := answerQuestion id given expected correct points maxPoints options in
  let s1 := exec (startQuestion id type text) {| this := t; env := w |} in
  let s2 := exec answering s1 in
  let s3 := exec answering s2 in
  (timeToAnswer <$> last_question s2) = Some (measured (reading w 0) (reading w 2))
  /\ (reading w 0 <= reading w 2 ->
      forall ms, timeToAnswer <$> last_question s2 = Some (Some ms) -> 0 <= ms)
  /\ (timeToAnswer <$> last_question s3) = Some None.
Proof.
  intros Hrec. pose proof (recording_guard t) as G. rewrite Hrec in G.
  apply orb_false_elim in G as [Hon Hactive]. apply negb_false_iff in Hon.
  cbv zeta.
  destruct (startQuestion_store id type text t w Hon Hactive)
    as (t1 & w1 & -> & Hon1 & Hactive1 & Hid & Hstart & Hclock & Hreads).
  assert (Hfirst : timeToAnswer <$> last_question
                     (exec (answerQuestion id given expected correct points maxPoints options)
                           {| this := t1; env := w1 |})
                   = Some (measured (reading w 0) (reading w 2))).
  { rewrite answer_timeToAnswer by assumption. f_equal.
    unfold timed, measured, reading. rewrite Hid, Hstart.
    cbn [strict_eq_string truthy_Z nullish]. rewrite String.eqb_refl. cbn [andb].
    assert (Hnow : now w = clock w (clock_reads w + 0))
      by (unfold now; rewrite Nat.add_0_r; reflexivity).
    assert (Hend : now w1 = clock w (clock_reads w + 2))
      by (unfold now; rewrite Hclock, Hreads; f_equal; lia).
    rewrite Hnow, Hend.
    destruct (Z.eqb (clock w (clock_reads w + 0)) 0); reflexivity. }
  split; [exact Hfirst|]. split.
  - intros Hmono ms Hms. rewrite Hfirst in Hms. unfold measured in Hms.
    destruct (Z.eqb (reading w 0) 0); [discriminate|].
    injection Hms as <-. lia.
  - destruct (answer_closes id given expected correct points maxPoints options
                t1 w1 Hon1 Hactive1) as (t2 & w2 & -> & Hon2 & Hactive2 & Hclosed).
    rewrite answer_timeToAnswer by assumption. unfold timed. rewrite Hclosed. reflexivity.
Qed.

Lemma answer_time_is_measured_witness :
  recording (this recorded_session) = true
  /\ (timeToAnswer <$> last_question
        (exec (answerQuestion "q1" (Some (JStr "A")) (Some (JStr "A")) true 1 1 None)
           (exec (startQuestion "q1" multiple_choice None)
                 {| this := this recorded_session; env := env recorded_session |})))
     = Some (measured (reading (env recorded_session) 0) (reading (env recorded_session) 2)).
Proof.
  assert (H : recording (this recorded_session) = true) by (vm_compute; reflexivity).
  split; [exact H|].
  exact (proj1 (answer_time_is_measured (this recorded_session) (env recorded_session)
                  "q1" multiple_choice None (Some (JStr "A")) (Some (JStr "A")) true 1 1 None H)).
Defined.

(** X21.  Only the question started last is timed.  On a tracker that
    records questions, [startQuestion(q1)] then [startQuestion(q2)] for
    another id leaves [q2] open: an answer for [q1] then carries no
    [timeToAnswer], and an answer for [q2] is timed from the start of
    [q2]. *)
Theorem later_start_replaces_open_question
    (t : BlockTracker) (w : World) (q1 q2 : string) (type : QuestionType)
    (given expected : option json) (correct : bool) (points maxPoints : Q) :
  recording t = true ->
  q1 <> q2 ->
  let s2 := exec (startQuestion q2 type None)
                 (exec (startQuestion q1 type None) {| this := t; env := w |}) in
  currentQuestionId (state (this s2)) = Some q2
  /\ (timeToAnswer <$> last_question
        (exec (answerQuestion q1 given expected correct points maxPoints None) s2))
     = Some None
  /\ (timeToAnswer <$> last_question
        (exec (answerQuestion q2 given expected correct points maxPoints None) s2))
     = Some (measured (reading w 2) (reading w 4)).
Proof.
  intros Hrec Hne. pose proof (recording_guard t) as G. rewrite Hrec in G.
  apply orb_false_elim in G as [Hon Hactive]. apply negb_false_iff in Hon.
  cbv zeta.
  destruct (startQuestion_store q1 type None t w Hon Hactive)
    as (t1 & w1 & -> & Hon1 & Hactive1 & _ & _ & Hclock1 & Hreads1).
  destruct (startQuestion_store q2 type None t1 w1 Hon1 Hactive1)
    as (t2 & w2 & -> & Hon2 & Hactive2 & Hid & Hstart & Hclock2 & Hreads2).
  cbn [this]. split; [exact Hid|].
  rewrite !answer_timeToAnswer by assumption. unfold timed. rewrite Hid, Hstart.
  cbn [strict_eq_string truthy_Z nullish]. rewrite String.eqb_refl.
  assert (Hdiff : String.eqb q2 q1 = false) by (apply String.eqb_neq; congruence).
  rewrite Hdiff. cbn [andb]. split; [reflexivity|]. f_equal.
  unfold measured, reading.
  assert (Hopened : now w1 = clock w (clock_reads w + 2))
    by (unfold now; rewrite Hclock1, Hreads1; f_equal; lia).
  assert (Hend : now w2 = clock w (clock_reads w + 4))
    by (unfold now; rewrite Hclock2, Hreads2, Hclock1, Hreads1; f_equal; lia).
  rewrite Hopened, Hend.
  destruct (Z.eqb (clock w (clock_reads w + 2)) 0); reflexivity.
Qed.

Lemma later_start_replaces_open_question_witness :
  recording (this recorded_session) = true
  /\ "q1" <> "q2"
  /\ currentQuestionId
       (state (this (exec (startQuestion "q2" multiple_choice None)
                      (exec (startQuestion "q1" multiple_choice None)
                            {| this := this recorded_session;
                               env := env recorded_session |}))))
     = Some "q2".
Proof.
  assert (H : recording (this recorded_session) = true) by (vm_compute; reflexivity).
  assert (Hne : "q1" <> "q2") by discriminate.
  split; [exact H|]. split; [exact Hne|].
  exact (proj1 (later_start_replaces_open_question
                  (this recorded_session) (env recorded_session) "q1" "q2"
                  multiple_choice (Some (JStr "A")) (Some (JStr "A")) true 1 1 H Hne)).
Defined.

(** ** Storage keys *)

Lemma named_block c :
  blockId (with_defaults c) <> "" ->
  opt_sessionStorageKey c = None ->
  sessionStorageKey (with_defaults c) = "blockTracker_" +:+ blockId (with_defaults c).
Proof.
  cbn [with_defaults blockId sessionStorageKey]. intros Hnamed ->. cbn [nullish].
  unfold or_string in *. destruct (opt_blockId c) as [b|]; [|contradiction].
  destruct (String.eqb b ""); [contradiction | reflexivity].
Qed.

(** X22.  The default storage keys keep the blocks apart.  A storage key
    given in the configuration is kept as it is.  Without one, the key is
    [blockTracker_] followed by the block id, and [blockTracker_anonymous]
    for a tracker without block id, whose [blockId] is the empty string.
    So two trackers with default keys and different, non-empty block ids
    never use the same key. *)
Theorem default_keys_separate_blocks (c1 c2 : BlockTrackerConfig) :
  opt_sessionStorageKey c1 = None ->
  opt_sessionStorageKey c2 = None ->
  (forall key c, opt_sessionStorageKey c = Some key ->
                 sessionStorageKey (with_defaults c) = key)
  /\ sessionStorageKey (with_defaults c1)
     = "blockTracker_" +:+ (if String.eqb (blockId (with_defaults c1)) ""
                            then "anonymous" else blockId (with_defaults c1))
  /\ (blockId (with_defaults c1) <> "" ->
      blockId (with_defaults c2) <> "" ->
      blockId (with_defaults c1) <> blockId (with_defaults c2) ->
      sessionStorageKey (with_defaults c1) <> sessionStorageKey (with_defaults c2)).
Proof.
  intros Hkey1 Hkey2. split; [|split].
  - intros key c Hkey. cbn [with_defaults sessionStorageKey]. rewrite Hkey. reflexivity.
  - cbn [with_defaults blockId sessionStorageKey]. rewrite Hkey1. cbn [nullish].
    unfold or_string. destruct (opt_blockId c1) as [b|]; [|reflexivity].
    destruct (String.eqb b "") eqn:Hb; [reflexivity|]. rewrite Hb. reflexivity.
  - intros Hnamed1 Hnamed2 Hdiff.
    rewrite (named_block c1 Hnamed1 Hkey1), (named_block c2 Hnamed2 Hkey2).
    cbn. intros [= Hsame]. contradiction.
Qed.

Lemma default_keys_separate_blocks_witness :
  opt_sessionStorageKey persisting = None
  /\ opt_sessionStorageKey persisting_poll = None
  /\ sessionStorageKey (with_defaults persisting) = "blockTracker_quiz"
  /\ sessionStorageKey (with_defaults persisting)
     <> sessionStorageKey (with_defaults persisting_poll).
Proof.
  do 2 (split; [reflexivity|]).
  destruct (default_keys_separate_blocks persisting persisting_poll eq_refl eq_refl)
    as (_ & Hkey & Hapart).
  split; [exact Hkey|]. apply Hapart; discriminate.
Defined.

(** ** Content stores *)

Lemma inlineUpdateRegisteredContent_eq storeId path value w :
  inlineUpdateRegisteredContent storeId path value w
  = (Returned tt,
     match registeredContents w !! storeId with
     | Some store => exec (postMessage (fst (update_of store path value))
                                       (snd (update_of store path value))) w
     | None => w
     end).
Proof.
  unfold inlineUpdateRegisteredContent, bind, gets.
  destruct (registeredContents w !! storeId); reflexivity.
Qed.

(** X23.  An update is forwarded for a registered store only.
    [inlineUpdateRegisteredContent(storeId, path, value)] returns without
    an exception.  For an id that is not registered it leaves the browser
    as it is.  For a registered id it posts to the parent exactly one
    [editor:inline-update] message, with the id and the three paths of the
    registered instance and the given path and value; the registry and the
    storage are as before. *)
Theorem update_forwarded_for_registered_store
    (storeId path : string) (value : json) (w : World) :
  let result := inlineUpdateRegisteredContent storeId path value w in
  fst result = Returned tt
  /\ registeredContents (snd result) = registeredContents w
  /\ localStorage (snd result) = localStorage w
  /\ (registeredContents w !! storeId = None -> snd result = w)
  /\ (forall store,
        registeredContents w !! storeId = Some store ->
        posted (snd result) = posted w ++ [update_of store path value]).
Proof.
  cbv zeta. rewrite inlineUpdateRegisteredContent_eq. cbn [fst snd].
  split; [reflexivity|].
  destruct (registeredContents w !! storeId) as [store|].
  - repeat split; try discriminate. intros store' [= <-]. reflexivity.
  - repeat split; discriminate.
Qed.

(** X24.  Updates carry the first registration.  After a store was
    constructed for a free id, and a second one for the same id, an update
    forwarded by [inlineUpdateRegisteredContent] carries the paths of the
    first.  The second instance is not registered, but it is an object
    like the first: [emitInlineEditEvent] called on it posts an update
    under the same store id with the paths of the second. *)
Theorem updates_carry_first_registration
    (dto again : RegisteredContentDto) (path : string) (value : json) (w : World) :
  registeredContents w !! dto_id dto = None ->
  dto_id again = dto_id dto ->
  let w2 := exec (new_RegisteredContent again) (exec (new_RegisteredContent dto) w) in
  posted (exec (inlineUpdateRegisteredContent (dto_id dto) path value) w2)
  = posted w ++ [announcement (instance_of dto); update_of (instance_of dto) path value]
  /\ posted (exec (emitInlineEditEvent (instance_of again) path value) w2)
     = posted w ++ [announcement (instance_of dto);
                    update_of (instance_of again) path value]
  /\ rc_id (instance_of again) = rc_id (instance_of dto).
Proof.
  intros Hfree Hid. cbv zeta.
  destruct (new_RegisteredContent_first dto w Hfree) as (w' & Hnew & Hreg & Hposted & _).
  assert (Hlookup : registeredContents w' !! dto_id dto = Some (instance_of dto))
    by (rewrite Hreg; apply lookup_insert_eq).
  assert (Hnew2 : new_RegisteredContent again w' = (Returned (instance_of again), w'))
    by (apply (new_RegisteredContent_again again w' (instance_of dto));
        rewrite Hid; exact Hlookup).
  assert (Hw2 : exec (new_RegisteredContent again) (exec (new_RegisteredContent dto) w)
                = w').
  { unfold exec. rewrite Hnew. cbn [snd]. rewrite Hnew2. reflexivity. }
  rewrite Hw2.
  split; [|split; [|exact Hid]].
  - unfold exec. rewrite inlineUpdateRegisteredContent_eq, Hlookup. cbn [snd].
    unfold exec, postMessage, modify. cbn [snd posted]. rewrite Hposted, <- app_assoc.
    reflexivity.
  - unfold exec, emitInlineEditEvent, postMessage, modify. cbn [snd posted].
    rewrite Hposted, <- app_assoc. reflexivity.
Qed.

Lemma updates_carry_first_registration_witness :
  registeredContents blank_page !! dto_id features_store = None
  /\ dto_id features_store_again = dto_id features_store
  /\ posted (exec (inlineUpdateRegisteredContent (dto_id features_store)
                     "features.title.content" (JStr "New"))
                  (exec (new_RegisteredContent features_store_again)
                        (exec (new_RegisteredContent features_store) blank_page)))
     = posted blank_page
       ++ [announcement (instance_of features_store);
           update_of (instance_of features_store) "features.title.content" (JStr "New")].
Proof.
  assert (Hfree : registeredContents blank_page !! dto_id features_store = None)
    by reflexivity.
  assert (Hid : dto_id features_store_again = dto_id features_store) by reflexivity.
  split; [exact Hfree|]. split; [exact Hid|].
  exact (proj1 (updates_carry_first_registration features_store features_store_again
                  "features.title.content" (JStr "New") blank_page Hfree Hid)).
Defined.

Lemma construct_all_cons dto rest w :
  construct_all (dto :: rest) w
  = construct_all rest (exec (new_RegisteredContent dto) w).
Proof.
  unfold construct_all at 1. cbn [forEach]. unfold bind, exec.
  destruct (registeredContents w !! dto_id dto) as [first|] eqn:Hlookup.
  - rewrite (new_RegisteredContent_again dto w first Hlookup). reflexivity.
  - destruct (new_RegisteredContent_first dto w Hlookup) as (w' & -> & _). reflexivity.
Qed.

Lemma newly_registered_fresh seen dtos :
  Forall (fun dto => dto_id dto ∉ seen) (newly_registered seen dtos)
  /\ NoDup (map dto_id (newly_registered seen dtos)).
Proof.
  revert seen. induction dtos as [|dto rest IH]; intros seen; cbn [newly_registered].
  - split; constructor.
  - destruct (bool_decide (dto_id dto ∈ seen)) eqn:Hseen; [apply IH|].
    apply bool_decide_eq_false in Hseen.
    destruct (IH ({[dto_id dto]} ∪ seen)) as [Hfresh Hnodup].
    split.
    + constructor; [exact Hseen|]. revert Hfresh. apply List.Forall_impl.
      intros d Hd Hin. apply Hd, elem_of_union_r, Hin.
    + cbn [map]. apply NoDup_cons. split; [|exact Hnodup].
      intros Hin. apply list_elem_of_In, in_map_iff in Hin as (d & Hid & Hd).
      apply (proj1 (List.Forall_forall _ _) Hfresh) in Hd.
      apply Hd. rewrite Hid. apply elem_of_union_l, elem_of_singleton. reflexivity.
Qed.

(** X25.  Each store id is announced at most once.  When the modules of a
    page construct their stores one after the other, whatever the ids,
    the construction returns; an id that was registered before keeps its
    instance; an id that was free is mapped to the first store of the list
    with that id; and the messages posted are the [editor:init]
    announcements of those first stores, in the order of the list, so no
    id is announced twice. *)
Theorem each_store_announced_once (dtos : list RegisteredContentDto) (w : World) :
  let w' := exec (construct_all dtos) w in
  let fresh := newly_registered (dom (registeredContents w)) dtos in
  fst (construct_all dtos w) = Returned tt
  /\ posted w' = posted w ++ map (fun dto => announcement (instance_of dto)) fresh
  /\ NoDup (map dto_id fresh)
  /\ (forall id,
        registeredContents w' !! id
        = match registeredContents w !! id with
          | Some first => Some first
          | None => instance_of <$> List.find (fun dto => String.eqb (dto_id dto) id) dtos
          end).
Proof.
  cbv zeta. revert w. induction dtos as [|dto rest IH]; intros w.
  - cbn. split; [reflexivity|]. split; [symmetry; apply app_nil_r|].
    split; [constructor|]. intros id. destruct (registeredContents w !! id); reflexivity.
  - unfold exec at 1 2. rewrite construct_all_cons. fold (exec (construct_all rest)
      (exec (new_RegisteredContent dto) w)).
    destruct (IH (exec (new_RegisteredContent dto) w)) as (Hret & Hposted & _ & Hlookup).
    split; [exact Hret|].
    split; [|split; [apply newly_registered_fresh|]].
    + rewrite Hposted. cbn [newly_registered].
      destruct (registeredContents w !! dto_id dto) as [first|] eqn:Hfirst.
      * rewrite bool_decide_eq_true_2 by (apply elem_of_dom; eauto).
        unfold exec at 1 2. rewrite (new_RegisteredContent_again dto w first Hfirst).
        reflexivity.
      * rewrite bool_decide_eq_false_2
          by (intros Hin; apply elem_of_dom in Hin as [x Hx]; congruence).
        destruct (new_RegisteredContent_first dto w Hfirst) as (w1 & Hnew & Hreg & Hp & _).
        unfold exec at 1 2. rewrite Hnew. cbn [snd map].
        rewrite Hp, Hreg, dom_insert_L, <- app_assoc. reflexivity.
    + intros id. rewrite Hlookup. cbn [List.find].
      destruct (registeredContents w !! dto_id dto) as [first|] eqn:Hfirst.
      * unfold exec. rewrite (new_RegisteredContent_again dto w first Hfirst). cbn [snd].
        destruct (registeredContents w !! id) as [x|] eqn:Hid; [reflexivity|].
        destruct (String.eqb_spec (dto_id dto) id) as [Heq|Hne]; [congruence | reflexivity].
      * destruct (new_RegisteredContent_first dto w Hfirst) as (w1 & Hnew & Hreg & _).
        unfold exec. rewrite Hnew. cbn [snd]. rewrite Hreg.
        destruct (String.eqb_spec (dto_id dto) id) as [Heq|Hne].
        -- subst id. rewrite lookup_insert_eq, Hfirst. reflexivity.
        -- rewrite lookup_insert_ne by exact Hne. reflexivity.
Qed.

(** ** Counters across reloads *)

Lemma call_consistent c t w :
  consistent (state t) ->
  storage_consistent {| this := t; env := w |} ->
  consistent (state (this (exec (call c) {| this := t; env := w |})))
  /\ storage_consistent (exec (call c) {| this := t; env := w |}).
Proof.
  intros [Hq Hi] Hstorage.
  assert (Hstate : consistent (state (this (exec (call c) {| this := t; env := w |})))).
  { split.
    - apply (call_counters c {| this := t; env := w |}), Hq.
    - apply call_interactions_counted, Hi. }
  split; [exact Hstate|].
  unfold storage_consistent in *. cbn [this env] in Hstorage.
  destruct (call_same_session c t w) as (Hcfg & _). rewrite Hcfg.
  intros Hon r. unfold stored_session. rewrite call_localStorage, Hon, andb_true_r.
  destruct (is_complete c).
  - destruct (isCompleted t); [apply (Hstorage Hon)|].
    rewrite lookup_delete_eq. discriminate.
  - destruct (records c t); [|apply (Hstorage Hon)].
    rewrite lookup_insert_eq. cbn.
    destruct (decide (st_blockId (state (this (exec (call c) {| this := t; env := w |})))
                      = Some (blockId (config t)))); [|discriminate].
    intros [= <-]. exact Hstate.
Qed.

Lemma run_consistent calls : forall s,
  consistent (state (this s)) -> storage_consistent s ->
  consistent (state (this (run calls s))) /\ storage_consistent (run calls s).
Proof.
  induction calls as [|c rest IH]; intros s Hs Hst; [split; assumption|].
  rewrite run_cons. destruct s as [t w].
  destruct (call_consistent c t w Hs Hst) as [Hs1 Hst1]. apply IH; assumption.
Qed.

(** X26.  The counters stay right across reloads.  Take a first tracker
    whose constructor restores no session, and any sequence of calls on
    it.  A second tracker built from the same configuration on the page
    as the first left it, whether it restores the stored session or
    creates one, starts with [totalQuestions], [correctQuestions] and
    [totalInteractions] in agreement with its events, and keeps them so
    through every sequence of calls. *)
Theorem counters_survive_reload
    (c : BlockTrackerConfig) (w : World) (calls later : list Call) :
  (if persistSessionFlag (with_defaults c)
   then stored_session (with_defaults c) w else None) = None ->
  exists t w',
    new_BlockTracker c w = (Returned t, w')
    /\ exists t2 w2,
         new_BlockTracker c (env (run calls {| this := t; env := w' |})) = (Returned t2, w2)
         /\ consistent (state t2)
         /\ consistent (state (this (run later {| this := t2; env := w2 |}))).
Proof.
  intros Hfresh.
  destruct (new_BlockTracker_spec c w)
    as (t & w' & Hnew & Hcfg & Hstate & _ & _ & Hls & _).
  exists t, w'. split; [exact Hnew|].
  assert (Hinit : consistent (state t)).
  { rewrite Hstate. unfold initial_session. rewrite Hfresh.
    split; [apply fresh_session_counters | apply fresh_session_interactions]. }
  assert (Hstorage : storage_consistent {| this := t; env := w' |}).
  { unfold storage_consistent. cbn [this env]. rewrite Hcfg. intros Hon r.
    rewrite Hon in Hfresh. unfold stored_session in *. rewrite Hls, Hfresh. discriminate. }
  destruct (run_consistent calls {| this := t; env := w' |} Hinit Hstorage) as [_ Hst1].
  assert (Hcfg1 : config (this (run calls {| this := t; env := w' |}))
                  = config (this {| this := t; env := w' |})).
  { clear. generalize {| this := t; env := w' |}. induction calls as [|c0 rest IH];
      intros s; [reflexivity|]. rewrite run_cons, IH. destruct s as [t0 w0].
    apply call_same_session. }
  set (s1 := run calls {| this := t; env := w' |}) in *.
  destruct (new_BlockTracker_spec c (env s1))
    as (t2 & w2 & Hnew2 & Hcfg2 & Hstate2 & _ & _ & Hls2 & _).
  exists t2, w2. split; [exact Hnew2|].
  assert (Hinit2 : consistent (state t2)).
  { rewrite Hstate2. unfold initial_session.
    destruct (persistSessionFlag (with_defaults c)) eqn:Hon;
      [|split; [apply fresh_session_counters | apply fresh_session_interactions]].
    destruct (stored_session (with_defaults c) (env s1)) as [r|] eqn:Hr;
      [|split; [apply fresh_session_counters | apply fresh_session_interactions]].
    unfold storage_consistent in Hst1. cbn [this] in Hcfg1.
    rewrite Hcfg1, Hcfg in Hst1. exact (Hst1 Hon r Hr). }
  split; [exact Hinit2|].
  apply run_consistent; [exact Hinit2|].
  unfold storage_consistent. cbn [this env]. rewrite Hcfg2. intros Hon r.
  unfold stored_session. rewrite Hls2. intros Hr.
  unfold storage_consistent in Hst1. cbn [this] in Hcfg1. rewrite Hcfg1, Hcfg in Hst1.
  exact (Hst1 Hon r Hr).
Qed.

Lemma counters_survive_reload_witness :
  let calls := [StartQuestion "q1" multiple_choice None;
                AnswerQuestion "q1" (Some (JStr "A")) (Some (JStr "A")) true 1 1 None;
                TrackInteraction click None None None None] in
  let later := [AnswerQuestion "q2" (Some (JStr "B")) (Some (JStr "A")) false 0 1 None] in
  (if persistSessionFlag (with_defaults persisting)
   then stored_session (with_defaults persisting) blank_page else None) = None
  /\ exists t w',
       new_BlockTracker persisting blank_page = (Returned t, w')
       /\ exists t2 w2,
            new_BlockTracker persisting (env (run calls {| this := t; env := w' |}))
            = (Returned t2, w2)
            /\ consistent (state t2)
            /\ consistent (state (this (run later {| this := t2; env := w2 |}))).
Proof.
  cbv zeta. split; [reflexivity|].
  exact (counters_survive_reload persisting blank_page _ _ eq_refl).
Defined.

(** ** Construction on a foreign or damaged record *)

Lemma restoreSession_warnings cfg w :
  persistSessionFlag cfg = true ->
  try_catch (restoreSession cfg)
    (fun _ => console_warn "[BlockTracker] Failed to restore session:";; ret None) w
  = (Returned (stored_session cfg w),
     with_console (console w ++ restore_warnings cfg w) w).
Proof.
  intros Hon.
  unfold try_catch, restoreSession, stored_session, restore_warnings, bind,
    localStorage_getItem, gets. rewrite Hon.
  assert (Hsame : with_console (console w ++ []) w = w)
    by (destruct w; unfold with_console; cbn; rewrite app_nil_r; reflexivity).
  destruct (localStorage w !! sessionStorageKey cfg) as [[text|[| |s]]|].
  - cbn [truthy_item JSON_parse]. destruct (String.eqb text ""); cbn [negb].
    + rewrite Hsame. reflexivity.
    + reflexivity.
  - reflexivity.
  - rewrite Hsame. reflexivity.
  - rewrite Hsame. cbn [truthy_item JSON_parse ret].
    rewrite strict_eq_string_decide.
    destruct (decide (st_blockId s = Some (blockId cfg))) as [Heq|Hne].
    + rewrite bool_decide_eq_true_2 by exact Heq. reflexivity.
    + rewrite bool_decide_eq_false_2 by exact Hne. reflexivity.
  - rewrite Hsame. reflexivity.
Qed.

Lemma restoreOrCreateSession_exact cfg w :
  let w0 := with_console (console w ++ restore_warnings cfg w) w in
  restoreOrCreateSession cfg w
  = (Returned (initial_session cfg w),
     match (if persistSessionFlag cfg then stored_session cfg w else None) with
     | Some _ => w0
     | None => created w0
     end).
Proof.
  cbv zeta. unfold restoreOrCreateSession, initial_session.
  destruct (persistSessionFlag cfg) eqn:Hon.
  - unfold bind at 1. rewrite restoreSession_warnings by exact Hon.
    destruct (stored_session cfg w); reflexivity.
  - unfold restore_warnings. rewrite Hon.
    assert (Hsame : with_console (console w ++ []) w = w)
      by (destruct w; unfold with_console; cbn; rewrite app_nil_r; reflexivity).
    rewrite Hsame. reflexivity.
Qed.

Lemma sent_console_nil event w : console (sent event [] w) = console w.
Proof. reflexivity. Qed.

Lemma sent_registeredContents event senders w :
  registeredContents (sent event senders w) = registeredContents w.
Proof. unfold sent. rewrite notify_registeredContents. reflexivity. Qed.

Lemma new_BlockTracker_quiet c w t w' :
  new_BlockTracker c w = (Returned t, w') ->
  console w' = console w ++ restore_warnings (with_defaults c) w
  /\ delivered w' = delivered w
  /\ registeredContents w' = registeredContents w
  /\ exists ev,
       posted w' = posted w ++ messages [BLOCK_SESSION ev]
       /\ se_eventType ev = SessionStarted
       /\ completed (summary ev) = false
       /\ score (summary ev) = None
       /\ maxScore (summary ev) = None
       /\ details ev = None.
Proof.
  unfold new_BlockTracker.
  pose proof (restoreOrCreateSession_exact (with_defaults c) w) as Hrestore.
  cbv zeta in Hrestore. rewrite Hrestore. clear Hrestore.
  set (cfg := with_defaults c).
  set (w0 := with_console (console w ++ restore_warnings cfg w) w).
  set (w1 := match (if persistSessionFlag cfg then stored_session cfg w else None) with
             | Some _ => w0
             | None => created w0
             end).
  assert (Hw1 : console w1 = console w ++ restore_warnings cfg w
                /\ delivered w1 = delivered w
                /\ registeredContents w1 = registeredContents w /\ posted w1 = posted w).
  { unfold w1. destruct (if persistSessionFlag cfg then stored_session cfg w else None);
      repeat split; reflexivity. }
  destruct Hw1 as (Hconsole & Hdelivered & Hregistry & Hposted).
  unfold bind at 1. rewrite sendSessionEvent_eq.
  assert (Hgoal : forall w2 ev,
            console w2 = console (sent (BLOCK_SESSION ev) [] (tick (session_clock None w1))) ->
            delivered w2 = delivered (sent (BLOCK_SESSION ev) [] (tick (session_clock None w1))) ->
            registeredContents w2
            = registeredContents (sent (BLOCK_SESSION ev) [] (tick (session_clock None w1))) ->
            posted w2 = posted (sent (BLOCK_SESSION ev) [] (tick (session_clock None w1))) ->
            console w2 = console w ++ restore_warnings cfg w
            /\ delivered w2 = delivered w
            /\ registeredContents w2 = registeredContents w
            /\ posted w2 = posted w ++ messages [BLOCK_SESSION ev]).
  { intros w2 ev -> -> -> ->.
    rewrite sent_console_nil, sent_delivered, sent_registeredContents, sent_posted.
    cbn [map]. rewrite app_nil_r.
    change (console (tick (session_clock None w1))) with (console w1).
    change (delivered (tick (session_clock None w1))) with (delivered w1).
    change (registeredContents (tick (session_clock None w1))) with (registeredContents w1).
    change (posted (tick (session_clock None w1))) with (posted w1).
    rewrite Hconsole, Hdelivered, Hregistry, Hposted. repeat split. }
  destruct (0 <? progressUpdateInterval cfg)%Z.
  - unfold bind, startProgressUpdates, setupUnloadHandler, bind, assign_this, modify, ret,
      in_env, setInterval. cbn [fst snd this env].
    intros [= <- <-].
    edestruct Hgoal as (H1 & H2 & H3 & H4); [reflexivity..|].
    split; [exact H1|]. split; [exact H2|]. split; [exact H3|].
    eexists. split; [exact H4|]. repeat split.
  - unfold bind, setupUnloadHandler, ret. cbn [fst snd this env].
    intros [= <- <-].
    edestruct Hgoal as (H1 & H2 & H3 & H4); [reflexivity..|].
    split; [exact H1|]. split; [exact H2|]. split; [exact H3|].
    eexists. split; [exact H4|]. repeat split.
Qed.

(** X27.  Construction on a foreign or damaged record.  Let the storage
    hold, under the key of the tracker, nothing, the empty text, a text
    that is not JSON, the JSON [null], a JSON number, string or boolean,
    or the JSON of a complete session state, of this block or of another
    (these are the stored texts of the model; an object that has the
    [blockId] of the configuration without being a complete session state
    is none of them, and the source restores it as it is).  Then the
    constructor returns a tracker that is not completed and has no
    listener; it leaves the storage and the registry of content stores as
    they are and calls no listener; it posts exactly one event, a
    [started] session event without score and without attached detail.
    With persistence on, a stored text that is not empty and no JSON, or
    that is the JSON [null], is reported by one warning on the console,
    and the session is created afresh; in every other case nothing is
    written to the console. *)
Theorem construction_is_safe (c : BlockTrackerConfig) (w : World) :
  exists t w',
    new_BlockTracker c w = (Returned t, w')
    /\ isCompleted t = false
    /\ eventSenders t = []
    /\ localStorage w' = localStorage w
    /\ registeredContents w' = registeredContents w
    /\ delivered w' = delivered w
    /\ console w' = console w ++ restore_warnings (with_defaults c) w
    /\ (restore_warnings (with_defaults c) w <> [] ->
        state t = fresh_session (with_defaults c) w)
    /\ exists ev,
         posted w' = posted w ++ messages [BLOCK_SESSION ev]
         /\ se_eventType ev = SessionStarted
         /\ completed (summary ev) = false
         /\ score (summary ev) = None
         /\ maxScore (summary ev) = None
         /\ details ev = None.
Proof.
  destruct (new_BlockTracker_spec c w)
    as (t & w' & Hnew & _ & Hstate & Hactive & Hsenders & Hls & _).
  destruct (new_BlockTracker_quiet c w t w' Hnew) as (Hconsole & Hdelivered & Hreg & Hev).
  exists t, w'. do 7 (split; [assumption|]). split; [|exact Hev].
  intros Hwarned. rewrite Hstate. unfold initial_session, restore_warnings, stored_session in *.
  destruct (persistSessionFlag (with_defaults c)); [|reflexivity].
  destruct (localStorage w !! sessionStorageKey (with_defaults c)) as [[text|[| |s]]|];
    try reflexivity; contradiction.
Qed.

(** A page with a text under the key that is no JSON: the constructor
    warns once, creates a session and leaves the text where it is. *)
Example construction_on_garbage :
  let built := session_of persisting page_with_garbage [] in
  (fun s => console (env s)) <$> built
  = Some ["[BlockTracker] Failed to restore session:"]
  /\ (fun s => localStorage (env s) !! "blockTracker_quiz") <$> built
     = Some (Some (Malformed "{oops"))
  /\ (fun s => sessionId (state (this s))) <$> built = Some "session_1000_k3j9x2a"
  /\ (fun s => length (posted (env s))) <$> built = Some 2%nat.
Proof. vm_compute. repeat split; reflexivity. Qed.

(** ** Instances of the further properties *)

Lemma session_identity_is_stable_witness :
  isCompleted (this (exec abandon recorded_session)) = true
  /\ isCompleted
       (this (run [StartQuestion "q1" multiple_choice None; Complete None None None]
                  (exec abandon recorded_session))) = true.
Proof.
  split; [reflexivity|].
  exact (proj2 (session_identity_is_stable
                  [StartQuestion "q1" multiple_choice None; Complete None None None]
                  (exec abandon recorded_session)) eq_refl).
Defined.

Lemma progress_interval_is_silent_witness :
  interval_live recorded_session = true
  /\ isCompleted (this recorded_session) = false
  /\ persistSessionFlag (config (this recorded_session)) = true
  /\ synced (exec intervalFires recorded_session).
Proof.
  do 3 (split; [reflexivity|]).
  pose proof (progress_interval_is_silent recorded_session) as Hsilent.
  cbv zeta in Hsilent.
  destruct Hsilent as (_ & _ & _ & _ & _ & Hsynced).
  exact (Hsynced eq_refl eq_refl eq_refl).
Defined.

Lemma ended_session_stops_interval_witness :
  interval_live recorded_session = true
  /\ isCompleted (this recorded_session) = false
  /\ interval_live (exec (complete (Some 1%Q) (Some 2%Q) None) recorded_session) = false
  /\ interval_live (exec abandon recorded_session) = false.
Proof.
  do 2 (split; [reflexivity|]).
  pose proof (ended_session_stops_interval recorded_session (Some 1%Q) (Some 2%Q) None)
    as Hstops.
  cbv zeta in Hstops.
  destruct Hstops as (_ & _ & Hdead).
  exact (Hdead eq_refl).
Defined.

Lemma interval_set_for_positive_period_witness :
  0 < progressUpdateInterval (with_defaults no_options)
  /\ progressUpdateInterval (with_defaults summary_only) <= 0
  /\ (exists t w',
        new_BlockTracker no_options blank_page = (Returned t, w')
        /\ progressTimer t = Some 1%positive
        /\ interval_live {| this := t; env := w' |} = true)
  /\ (exists t w',
        new_BlockTracker summary_only blank_page = (Returned t, w')
        /\ progressTimer t = None
        /\ intervals w' = intervals blank_page).
Proof.
  split; [reflexivity|]. split; [discriminate|]. split.
  - destruct (interval_set_for_positive_period no_options blank_page)
      as (t & w' & Hnew & Hset & _).
    exists t, w'. split; [exact Hnew|].
    destruct (Hset eq_refl) as (Hhandle & _ & Hlive).
    split; [exact Hhandle | exact Hlive].
  - destruct (interval_set_for_positive_period summary_only blank_page)
      as (t & w' & Hnew & _ & Hnone).
    exists t, w'. split; [exact Hnew|].
    destruct (Hnone ltac:(discriminate)) as (Hhandle & Hsame & _).
    split; [exact Hhandle | exact Hsame].
Defined.

Lemma unload_abandons_once_witness :
  isCompleted (this recorded_session) = false
  /\ exists ev,
       posted (env (exec unloadHandler recorded_session))
       = posted (env recorded_session) ++ messages [BLOCK_SESSION ev]
       /\ se_eventType ev = SessionAbandoned
       /\ timeSpent (summary ev)
          = now (env recorded_session) - startTime (state (this recorded_session)).
Proof.
  split; [reflexivity|].
  pose proof (unload_abandons_once recorded_session) as Hunload.
  cbv zeta in Hunload.
  destruct Hunload as (_ & _ & Hevent).
  destruct (Hevent eq_refl) as (ev & Hposted & Hkind & _ & _ & _ & Htime & _).
  exists ev. split; [exact Hposted|]. split; [exact Hkind | exact Htime].
Defined.

Lemma nothing_follows_the_end_witness :
  sendDetailedEvents (config summary_only_tracker) = false
  /\ exists ending,
       posted (env (run [TrackInteraction click None None None None;
                         StartQuestion "q1" multiple_choice None;
                         Complete None None None;
                         SkipQuestion "q1" None]
                        {| this := summary_only_tracker; env := blank_page |}))
       = posted blank_page ++ messages ending
       /\ is_ending ending = true.
Proof.
  split; [reflexivity|].
  destruct (nothing_follows_the_end
              [TrackInteraction click None None None None;
               StartQuestion "q1" multiple_choice None;
               Complete None None None;
               SkipQuestion "q1" None]
              {| this := summary_only_tracker; env := blank_page |})
    as (details & ending & Hposted & _ & Hending & Hquiet & _).
  exists ending. rewrite (Hquiet eq_refl) in Hposted.
  split; [exact Hposted | exact Hending].
Defined.

Lemma update_forwarded_for_registered_store_witness :
  registeredContents page_with_features !! "features" = Some (instance_of features_store)
  /\ registeredContents page_with_features !! "pricing" = None
  /\ posted (exec (inlineUpdateRegisteredContent "features" "title.content" (JStr "New"))
                  page_with_features)
     = posted page_with_features
       ++ [update_of (instance_of features_store) "title.content" (JStr "New")]
  /\ exec (inlineUpdateRegisteredContent "pricing" "title.content" (JStr "New"))
          page_with_features
     = page_with_features.
Proof.
  do 2 (split; [reflexivity|]).
  split.
  - pose proof (update_forwarded_for_registered_store
                  "features" "title.content" (JStr "New") page_with_features) as Hupdate.
    cbv zeta in Hupdate.
    destruct Hupdate as (_ & _ & _ & _ & Hsome).
    exact (Hsome (instance_of features_store) eq_refl).
  - pose proof (update_forwarded_for_registered_store
                  "pricing" "title.content" (JStr "New") page_with_features) as Hupdate.
    cbv zeta in Hupdate.
    destruct Hupdate as (_ & _ & _ & Hnone & _).
    exact (Hnone eq_refl).
Defined.

Lemma construction_is_safe_witness :
  restore_warnings (with_defaults persisting) page_with_garbage <> []
  /\ exists t w',
       new_BlockTracker persisting page_with_garbage = (Returned t, w')
       /\ state t = fresh_session (with_defaults persisting) page_with_garbage
       /\ console w' = ["[BlockTracker] Failed to restore session:"]
       /\ localStorage w' !! "blockTracker_quiz" = Some (Malformed "{oops").
Proof.
  split; [discriminate|].
  destruct (construction_is_safe persisting page_with_garbage)
    as (t & w' & Hnew & _ & _ & Hstorage & _ & _ & Hconsole & Hfresh & _).
  exists t, w'. split; [exact Hnew|].
  split; [exact (Hfresh ltac:(discriminate))|].
  split; [exact Hconsole|].
  rewrite Hstorage. reflexivity.
Defined.
